(** * Kicker app: rating formula, live match, rating ledger, season closure

    A shallow embedding of the match / rating / season logic of
    [src/App.jsx] and the properties of it that the specification states.

    Conventions of the embedding.
    - JavaScript numbers that hold ratings, scores, counters and
      durations are integers in every run of the program (they start as
      integer literals and are only changed by integer increments), so
      they are modelled as [Z].  Team averages are halves of integers and
      the rating formula divides by 40: these are modelled as exact
      rationals [Q].
    - The Firestore database is an explicit [Store] value that the
      handlers transform.  A collection of documents is a finite map from
      document id to document.  A store call that the network can make
      fail is indexed by a [StoreCall]; a fault plan says which calls are
      rejected.
    - React state of the game screen is the record [GameState]; a handler
      is a function on it, and the [useEffect] that declares or clears the
      winner is run after every handler that changes the score.
    - A string is the sequence of its UTF-8 bytes.  Case conversion and
      the comparison of strings are not computed on that sequence: they
      are operations of the [Runtime] that the definitions take as an
      argument. *)

From Stdlib Require Import ZArith QArith Qround Lia Lqa List Bool String Ascii.
From stdpp Require Import gmap strings list fin_maps.

Local Open Scope Z_scope.

(* ================================================================= *)
(** ** Config & utils *)
(* ================================================================= *)

(** [const clamp = (n, min, max) => Math.max(min, Math.min(max, n))] *)
Definition clamp (n min max : Z) : Z := Z.max min (Z.min max n).

(** [Math.round]: the nearest integer, a tie going to the larger one. *)
Definition Math_round (x : Q) : Z := Qfloor (x + (1 # 2))%Q.

Record ScoreChange := { winDelta : Z; loseDelta : Z }.

(** [function computeScoreChange(avgWinnerScore, avgLoserScore, isShutout)] *)
Definition computeScoreChange (avgWinnerScore avgLoserScore : Q)
    (isShutout : bool) : ScoreChange :=
  let base := 10%Q in
  let diff := (avgLoserScore - avgWinnerScore)%Q in
  let dynamic := Math_round (base + diff / 40)%Q in
  let dynamic := clamp dynamic 1 20 in
  let shutoutBonus := if isShutout then 5 else 0 in
  {| winDelta := dynamic + shutoutBonus; loseDelta := dynamic |}.

(** [const winningScoreFor = (team1, team2) => ...] *)
Definition winningScoreFor (team1 team2 : Z) : Z :=
  let isDeuce := (team1 =? 5) && (team2 =? 5) in
  if isDeuce then 7 else 6.

(** [encodeURIComponent] on a string seen as its UTF-8 bytes: the
    unreserved characters stay, every other byte becomes [%XX]. *)
Definition hexDigit (n : N) : ascii :=
  ascii_of_N (if (n <? 10)%N then 48 + n else 55 + n)%N.

Definition isUnreserved (c : ascii) : bool :=
  let n := N_of_ascii c in
  ((48 <=? n) && (n <=? 57) || (65 <=? n) && (n <=? 90)
   || (97 <=? n) && (n <=? 122))%N
  || bool_decide (c ∈ ["-"; "_"; "."; "!"; "~"; "*"; "'"; "("; ")"]%char).

Fixpoint encodeURIComponent (s : string) : string :=
  match s with
  | EmptyString => EmptyString
  | String c rest =>
      if isUnreserved c then String c (encodeURIComponent rest)
      else
        let n := N_of_ascii c in
        String "%" (String (hexDigit (n / 16)) (String (hexDigit (n mod 16))
          (encodeURIComponent rest)))
  end.

(** [const placeholderFor = (firstName, lastName) => ...] *)
Definition placeholderFor (firstName lastName : string) : string :=
  ("https://placehold.co/150x200/EFEFEF/333?text=" ++ encodeURIComponent firstName)%string.

(** The string operations whose result depends on the Unicode tables of
    the JavaScript engine are operations of the runtime and are not
    defined here: [toUpperCase] is [String.prototype.toUpperCase],
    [toLowerCase] is [String.prototype.toLowerCase], and [String_lt a b]
    is [a < b] on two strings, the comparison by UTF-16 code units.
    Every definition that calls one of them takes the runtime as an
    argument, and a statement about it holds for every runtime. *)
Class Runtime := {
  toUpperCase : string -> string;
  toLowerCase : string -> string;
  String_lt : string -> string -> bool;
}.

(* ================================================================= *)
(** ** Data model *)
(* ================================================================= *)

(** A document of the [players] collection, with the fields that
    [handleAddPlayer] writes.  [seasonsWon] is not among them: it is
    absent until [handleCloseSeason] sets it, and read as
    [seasonsWon || 0]. *)
Record PlayerDoc := {
  firstName : string;
  lastName : string;
  country : string;
  img : string;
  score : Z;
  gamesWon : Z;
  gamesLost : Z;
  gamesAsStriker : Z;
  gamesAsDefender : Z;
  totalGames : Z;
  goalsAsStriker : Z;
  goalsAsDefender : Z;
  shutoutWins : Z;
  totalPlaytime : Z;
  seasonsWon : option Z
}.

(** The numeric fields, as keys of an update object. *)
Inductive NumField :=
| F_score | F_gamesWon | F_gamesLost | F_gamesAsStriker | F_gamesAsDefender
| F_totalGames | F_goalsAsStriker | F_goalsAsDefender | F_shutoutWins
| F_totalPlaytime | F_seasonsWon.

Definition getNum (f : NumField) (d : PlayerDoc) : Z :=
  match f with
  | F_score => score d
  | F_gamesWon => gamesWon d
  | F_gamesLost => gamesLost d
  | F_gamesAsStriker => gamesAsStriker d
  | F_gamesAsDefender => gamesAsDefender d
  | F_totalGames => totalGames d
  | F_goalsAsStriker => goalsAsStriker d
  | F_goalsAsDefender => goalsAsDefender d
  | F_shutoutWins => shutoutWins d
  | F_totalPlaytime => totalPlaytime d
  | F_seasonsWon => default 0 (seasonsWon d)
  end.

Definition setNum (f : NumField) (v : Z) (d : PlayerDoc) : PlayerDoc :=
  {| firstName := firstName d; lastName := lastName d;
     country := country d; img := img d;
     score := if f is F_score then v else score d;
     gamesWon := if f is F_gamesWon then v else gamesWon d;
     gamesLost := if f is F_gamesLost then v else gamesLost d;
     gamesAsStriker := if f is F_gamesAsStriker then v else gamesAsStriker d;
     gamesAsDefender := if f is F_gamesAsDefender then v else gamesAsDefender d;
     totalGames := if f is F_totalGames then v else totalGames d;
     goalsAsStriker := if f is F_goalsAsStriker then v else goalsAsStriker d;
     goalsAsDefender := if f is F_goalsAsDefender then v else goalsAsDefender d;
     shutoutWins := if f is F_shutoutWins then v else shutoutWins d;
     totalPlaytime := if f is F_totalPlaytime then v else totalPlaytime d;
     seasonsWon := if f is F_seasonsWon then Some v else seasonsWon d |}.

(** One entry of the object given to [updateDoc] / [tx.update]:
    [{ f: increment(n) }] or [{ f: v }].  An increment of a field that
    the document lacks starts from 0. *)
Inductive Write :=
| Increment (f : NumField) (n : Z)
| Assign (f : NumField) (v : Z).

Definition applyWrite (w : Write) (d : PlayerDoc) : PlayerDoc :=
  match w with
  | Increment f n => setNum f (getNum f d + n) d
  | Assign f v => setNum f v d
  end.

(** The entries of an update object, applied to one document. *)
Definition applyWrites (ws : list Write) (d : PlayerDoc) : PlayerDoc :=
  foldl (fun acc w => applyWrite w acc) d ws.

(** A player as the screens hold it: [{ id: d.id, ...d.data() }]. *)
Module Player.
Record t := { id : string; data : PlayerDoc }.
End Player.

(** ["striker"] and ["defender"]. *)
Inductive Position := striker | defender.

#[global] Instance Position_eq_dec : EqDecision Position.
Proof. solve_decision. Defined.

(** ["Team 1"] and ["Team 2"]; [null] is [None]. *)
Inductive WinnerLabel := Team_1 | Team_2.

#[global] Instance WinnerLabel_eq_dec : EqDecision WinnerLabel.
Proof. solve_decision. Defined.

(** The keys ["team1"] and ["team2"] of the score object. *)
Module TeamKey.
Inductive t := team1 | team2.
End TeamKey.

#[global] Instance TeamKey_eq_dec : EqDecision TeamKey.t.
Proof. solve_decision. Defined.

Module Team.
Record t := { striker : Player.t; defender : Player.t }.
End Team.

(** [{ team1, team2 }], as [confirmWin] hands the teams over. *)
Module Teams.
Record t := { team1 : Team.t; team2 : Team.t }.
End Teams.

Module Score.
Record t := { team1 : Z; team2 : Z }.

  (** [s[teamKey]] *)
Definition get (k : TeamKey.t) (s : t) : Z :=
    match k with TeamKey.team1 => team1 s | TeamKey.team2 => team2 s end.

  (** [{ ...s, [teamKey]: v }] *)
Definition set (k : TeamKey.t) (v : Z) (s : t) : t :=
    match k with
    | TeamKey.team1 => {| team1 := v; team2 := team2 s |}
    | TeamKey.team2 => {| team1 := team1 s; team2 := v |}
    end.
End Score.

(** An entry of the goal log: [{ player, position, teamKey }]. *)
Module Goal.
Record t := { player : Player.t; position : Position; teamKey : TeamKey.t }.
End Goal.

(** The arguments of [onGameEnd(winner, teams, score, goalHistory,
    duration)]: the summary of a match handed to the ledger writer. *)
Module GameEnd.
Record t := {
    winner : option WinnerLabel;
    teams : Teams.t;
    score : Score.t;
    goalHistory : list Goal.t;
    duration : Z
  }.
End GameEnd.

(** The truth value of a reference that may be [null]. *)
Definition truthy {A} (o : option A) : bool :=
  match o with Some _ => true | None => false end.

(** How a call of a JavaScript function completes. *)
Inductive Completion (A : Type) :=
| Normal (a : A)
| Thrown (err : string).
Arguments Normal {A} a.
Arguments Thrown {A} err.

(* ================================================================= *)
(** ** The game screen: one live match *)
(* ================================================================= *)

(** What [PlayerSelectionScreen] passes to [onGameStart] for one team. *)
Module Selection.
Record t := { forward : Player.t; defender : Player.t }.
End Selection.

Module GameScreen.

(** The state hooks of [GameScreen], and [startTimeRef]. *)
Record State := {
  team1 : Team.t;
  team2 : Team.t;
  score : Score.t;
  goalHistory : list Goal.t;
  isSwapped : bool;
  winner : option WinnerLabel;
  startTime : Z
}.

(** The initial values of the hooks; [now] is [Date.now()] at mount. *)
Definition init (initialTeam1 initialTeam2 : Selection.t) (now : Z) : State :=
  {| team1 := {| Team.striker := Selection.forward initialTeam1;
                 Team.defender := Selection.defender initialTeam1 |};
     team2 := {| Team.striker := Selection.forward initialTeam2;
                 Team.defender := Selection.defender initialTeam2 |};
     score := {| Score.team1 := 0; Score.team2 := 0 |};
     goalHistory := [];
     isSwapped := false;
     winner := None;
     startTime := now |}.

Definition setScore (f : Score.t -> Score.t) (st : State) : State :=
  {| team1 := team1 st; team2 := team2 st; score := f (score st);
     goalHistory := goalHistory st; isSwapped := isSwapped st;
     winner := winner st; startTime := startTime st |}.

Definition setGoalHistory (f : list Goal.t -> list Goal.t) (st : State) : State :=
  {| team1 := team1 st; team2 := team2 st; score := score st;
     goalHistory := f (goalHistory st); isSwapped := isSwapped st;
     winner := winner st; startTime := startTime st |}.

Definition setWinner (w : option WinnerLabel) (st : State) : State :=
  {| team1 := team1 st; team2 := team2 st; score := score st;
     goalHistory := goalHistory st; isSwapped := isSwapped st;
     winner := w; startTime := startTime st |}.

Definition setTeam1 (f : Team.t -> Team.t) (st : State) : State :=
  {| team1 := f (team1 st); team2 := team2 st; score := score st;
     goalHistory := goalHistory st; isSwapped := isSwapped st;
     winner := winner st; startTime := startTime st |}.

Definition setTeam2 (f : Team.t -> Team.t) (st : State) : State :=
  {| team1 := team1 st; team2 := f (team2 st); score := score st;
     goalHistory := goalHistory st; isSwapped := isSwapped st;
     winner := winner st; startTime := startTime st |}.

Definition setIsSwapped (f : bool -> bool) (st : State) : State :=
  {| team1 := team1 st; team2 := team2 st; score := score st;
     goalHistory := goalHistory st; isSwapped := f (isSwapped st);
     winner := winner st; startTime := startTime st |}.

(** [const winningScore = winningScoreFor(score.team1, score.team2)] *)
Definition winningScore (st : State) : Z :=
  winningScoreFor (Score.team1 (score st)) (Score.team2 (score st)).

(** The body of the [useEffect] on [score, winner, winningScore].  Both
    tests read the [winner] of the render the effect belongs to. *)
Definition winnerEffect (st : State) : State :=
  let s1 := Score.team1 (score st) in
  let s2 := Score.team2 (score st) in
  let w := winningScore st in
  let st1 :=
    if negb (truthy (winner st)) && ((w <=? s1) || (w <=? s2))
    then setWinner (Some (if s2 <? s1 then Team_1 else Team_2)) st
    else st in
  if truthy (winner st) && (s1 <? w) && (s2 <? w)
  then setWinner None st1
  else st1.

(** The renders that follow a change of the score: the effect runs, and
    runs once more if it changed [winner]; after that nothing changes
    (see [winnerEffect_settled]). *)
Definition settle (st : State) : State := winnerEffect (winnerEffect st).

(** [handleGoal(player, position)] *)
Definition handleGoal (player : Player.t) (position : Position) (st : State) : State :=
  let teamKey :=
    if bool_decide (Player.id player = Player.id (Team.striker (team1 st)))
       || bool_decide (Player.id player = Player.id (Team.defender (team1 st)))
    then TeamKey.team1 else TeamKey.team2 in
  let st := setScore (fun prev => Score.set teamKey (Score.get teamKey prev + 1) prev) st in
  setGoalHistory (fun prev =>
    prev ++ [{| Goal.player := player; Goal.position := position;
                Goal.teamKey := teamKey |}]) st.

(** [handleUndoGoal()] *)
Definition handleUndoGoal (st : State) : State :=
  let prev := goalHistory st in
  if bool_decide (length prev = 0%nat) then st
  else
    match last prev with
    | None => st
    | Some lastGoal =>
        let st := setScore (fun s =>
          Score.set (Goal.teamKey lastGoal)
            (Z.max 0 (Score.get (Goal.teamKey lastGoal) s - 1)) s) st in
        setGoalHistory (fun prev => take (length prev - 1) prev) st
    end.

(** [swapPositions(teamNum)] *)
Definition swapPositions (teamNum : Z) (st : State) : State :=
  let swap := fun prev : Team.t =>
    {| Team.striker := Team.defender prev; Team.defender := Team.striker prev |} in
  if teamNum =? 1 then setTeam1 swap st else setTeam2 swap st.

(** [confirmWin()]; [now] is [Date.now()] at the call.  The value is the
    argument list of the call of [onGameEnd]. *)
Definition confirmWin (now : Z) (st : State) : Completion GameEnd.t :=
  let duration := now - startTime st in
  Normal {| GameEnd.winner := winner st;
            GameEnd.teams := {| Teams.team1 := team1 st; Teams.team2 := team2 st |};
            GameEnd.score := score st;
            GameEnd.goalHistory := goalHistory st;
            GameEnd.duration := duration |}.

(** What is rendered left and right. *)
Definition displayTeam1 (st : State) : Team.t := if isSwapped st then team2 st else team1 st.
Definition displayTeam2 (st : State) : Team.t := if isSwapped st then team1 st else team2 st.

(** The buttons of the screen.  The overlay that carries the confirm
    button is rendered under [{winner && ...}]. *)
Inductive Click :=
| LeftStriker | LeftDefender | RightStriker | RightDefender
| LeftSwapPositions | RightSwapPositions | SwapSides | UndoGoal | Confirm.

Definition rendered (c : Click) (st : State) : bool :=
  match c with
  | Confirm => truthy (winner st)
  | _ => true
  end.

(** The calls of the match session that change its state. *)
Inductive Action :=
| RecordGoal (player : Player.t) (position : Position)
| UndoLastGoal
| SwapPositions (teamNum : Z)
| DoSwapSides.

(** One call, followed by the renders it causes. *)
Definition step (st : State) (a : Action) : State :=
  match a with
  | RecordGoal player position => settle (handleGoal player position st)
  | UndoLastGoal => settle (handleUndoGoal st)
  | SwapPositions teamNum => swapPositions teamNum st
  | DoSwapSides => setIsSwapped negb st
  end.

Definition run (st : State) (acts : list Action) : State := foldl step st acts.

(** The action behind a button other than [Confirm]. *)
Definition onClick (c : Click) (st : State) : option Action :=
  match c with
  | LeftStriker => Some (RecordGoal (Team.striker (displayTeam1 st)) striker)
  | LeftDefender => Some (RecordGoal (Team.defender (displayTeam1 st)) defender)
  | RightStriker => Some (RecordGoal (Team.striker (displayTeam2 st)) striker)
  | RightDefender => Some (RecordGoal (Team.defender (displayTeam2 st)) defender)
  | LeftSwapPositions => Some (SwapPositions (if isSwapped st then 2 else 1))
  | RightSwapPositions => Some (SwapPositions (if isSwapped st then 1 else 2))
  | SwapSides => Some DoSwapSides
  | UndoGoal => Some UndoLastGoal
  | Confirm => None
  end.

(** A click on a button: nothing happens if the button is not rendered;
    [Confirm] calls [confirmWin] and leaves the state as it is. *)
Definition click (now : Z) (c : Click) (st : State) : State * option (Completion GameEnd.t) :=
  if rendered c st then
    match onClick c st with
    | Some a => (step st a, None)
    | None => (st, Some (confirmWin now st))
    end
  else (st, None).

(** The states a match session can be in. *)
Inductive reachable (st0 : State) : State -> Prop :=
| reachable_init : reachable st0 st0
| reachable_step st a : reachable st0 st -> reachable st0 (step st a).

End GameScreen.

(* ================================================================= *)
(** ** The database *)
(* ================================================================= *)

(** A document of [seasonHistory]; the server timestamp [endDate] is
    left out. *)
Record SeasonRecord := {
  seasonNumber : Z;
  winnerName : string;
  winnerId : string
}.

(** A document of [matches]; the server timestamp [createdAt] is left
    out. *)
Module MatchRecord.
Record Member := { id : string; name : string }.
Record Roster := { striker : Member; defender : Member }.
Record GoalEntry := {
  i : nat;
  playerId : string;
  position : Position;
  teamKey : TeamKey.t
}.
Record t := {
  duration : Z;
  score : Score.t;
  winner : option WinnerLabel;
  team1 : Roster;
  team2 : Roster;
  goals : list GoalEntry
}.
End MatchRecord.

(** The collections [players], [matches] and [seasonHistory] and the
    document [appState/config] (its field [currentSeason]), which may
    not exist. *)
Record Store := {
  players : gmap string PlayerDoc;
  matches : list MatchRecord.t;
  seasonHistory : list SeasonRecord;
  config : option Z
}.

Definition setPlayers (ps : gmap string PlayerDoc) (db : Store) : Store :=
  {| players := ps; matches := matches db;
     seasonHistory := seasonHistory db; config := config db |}.

(** The calls to the database that the handlers await.  Each can be
    rejected (store unreachable, permission, ...). *)
Inductive StoreCall :=
| AddPlayer | UpdatePlayer | DeletePlayer | RunMatchTransaction
| AddSeasonRecord | UpdateWinner | GetPlayers | CommitBatch | UpdateConfig.

(** Which calls are rejected in a run. *)
Definition FaultPlan := StoreCall -> bool.

Definition noFaults : FaultPlan := fun _ => false.

(** An awaited sequence of store calls inside [try]: every call gives
    the store it leaves behind and, unless it was rejected, a value. *)
Definition Attempt (A : Type) : Type := Store -> Store * option A.

Definition attempt_ret {A} (a : A) : Attempt A := fun db => (db, Some a).

Definition attempt_bind {A B} (m : Attempt A) (k : A -> Attempt B) : Attempt B :=
  fun db =>
    match m db with
    | (db', Some a) => k a db'
    | (db', None) => (db', None)
    end.

Notation "'await' x <- m ;; k" := (attempt_bind m (fun x => k))
  (at level 10, x name, m at level 99, k at level 200).

(** [try { ... } catch (e) { console.error(...) }]: what was written
    before the rejected call stays written. *)
Definition try_catch {A} (m : Attempt A) (db : Store) : Store := fst (m db).

(** The rejection a fault plan prescribes for a call. *)
Definition guarded {A} (faults : FaultPlan) (c : StoreCall) (m : Attempt A) : Attempt A :=
  fun db => if faults c then (db, None) else m db.

(** [tx.update(ref, ws)], [updateDoc(ref, ws)] and [batch.update(ref,
    ws)] on a document of [players]: rejected if it does not exist. *)
Definition updatePlayerDoc (id : string) (f : PlayerDoc -> PlayerDoc)
    (ps : gmap string PlayerDoc) : option (gmap string PlayerDoc) :=
  d ← ps !! id; Some (<[id := f d]> ps).

(** The updates that a transaction or a write batch has collected,
    applied to [players] in the order of the calls: all of them or
    none. *)
Definition commitUpdates (updates : list (string * list Write))
    (ps : gmap string PlayerDoc) : option (gmap string PlayerDoc) :=
  foldl (fun acc u => ps' ← acc; updatePlayerDoc u.1 (applyWrites u.2) ps')
        (Some ps) updates.

(** [Array.prototype.sort(cmp)]: a stable sort; [cmp a b <= 0] keeps [a]
    before [b]. *)
Fixpoint sort_insert {A} (cmp : A -> A -> Z) (x : A) (l : list A) : list A :=
  match l with
  | [] => [x]
  | y :: l' => if cmp x y <=? 0 then x :: y :: l' else y :: sort_insert cmp x l'
  end.

Definition Array_sort {A} (cmp : A -> A -> Z) (l : list A) : list A :=
  foldr (sort_insert cmp) [] l.

(** [`${p.firstName} ${p.lastName}`] *)
Definition fullName (p : Player.t) : string :=
  (firstName (Player.data p) ++ " " ++ lastName (Player.data p))%string.

(* ================================================================= *)
(** ** The handlers of [App] *)
(* ================================================================= *)

(** The data of [PlayerForm]. *)
Module PlayerForm.
Record t := { firstName : string; lastName : string; country : string; img : string }.
End PlayerForm.

Module App.

(** In every handler [hasDb] is the test [db !== null] of its first
    line, [faults] says which awaited calls are rejected, and the last
    argument is the database the handler runs against. *)

(** [handleAddPlayer(playerData)]; [newId] is the id that [addDoc]
    assigns. *)
Definition handleAddPlayer {rt : Runtime} (hasDb : bool) (faults : FaultPlan) (newId : string)
    (playerData : PlayerForm.t) (db : Store) : Store :=
  if negb hasDb then db
  else
    let newPlayer :=
      {| firstName := PlayerForm.firstName playerData;
         lastName := PlayerForm.lastName playerData;
         country := toUpperCase (PlayerForm.country playerData);
         img := if bool_decide (PlayerForm.img playerData = "")
                then placeholderFor (PlayerForm.firstName playerData)
                                    (PlayerForm.lastName playerData)
                else PlayerForm.img playerData;
         score := 1500;
         gamesWon := 0;
         gamesLost := 0;
         gamesAsStriker := 0;
         gamesAsDefender := 0;
         totalGames := 0;
         goalsAsStriker := 0;
         goalsAsDefender := 0;
         shutoutWins := 0;
         totalPlaytime := 0;
         seasonsWon := None |} in
    try_catch
      (guarded faults AddPlayer (fun db =>
         (setPlayers (<[newId := newPlayer]> (players db)) db, Some tt)))
      db.

(** The fields of the form, written over a document. *)
Definition setProfile (playerData : PlayerForm.t) (d : PlayerDoc) : PlayerDoc :=
  {| firstName := PlayerForm.firstName playerData;
     lastName := PlayerForm.lastName playerData;
     country := PlayerForm.country playerData;
     img := PlayerForm.img playerData;
     score := score d; gamesWon := gamesWon d; gamesLost := gamesLost d;
     gamesAsStriker := gamesAsStriker d; gamesAsDefender := gamesAsDefender d;
     totalGames := totalGames d; goalsAsStriker := goalsAsStriker d;
     goalsAsDefender := goalsAsDefender d; shutoutWins := shutoutWins d;
     totalPlaytime := totalPlaytime d; seasonsWon := seasonsWon d |}.

(** [handleUpdatePlayer(playerId, playerData)] *)
Definition handleUpdatePlayer (hasDb : bool) (faults : FaultPlan) (playerId : string)
    (playerData : PlayerForm.t) (db : Store) : Store :=
  if negb hasDb then db
  else
    try_catch
      (guarded faults UpdatePlayer (fun db =>
         match updatePlayerDoc playerId (setProfile playerData) (players db) with
         | Some ps => (setPlayers ps db, Some tt)
         | None => (db, None)
         end))
      db.

(** [handleDeletePlayer(playerId)] *)
Definition handleDeletePlayer (hasDb : bool) (faults : FaultPlan) (playerId : string)
    (db : Store) : Store :=
  if negb hasDb then db
  else
    try_catch
      (guarded faults DeletePlayer (fun db =>
         (setPlayers (delete playerId (players db)) db, Some tt)))
      db.

(** The [reduce] over the goal log in [handleGameEnd]. *)
Definition goalsByPlayer (goalHistory : list Goal.t) : gmap string Z :=
  foldl (fun acc g =>
           let id := Player.id (Goal.player g) in
           if bool_decide (id = "") then acc
           else <[id := default 0 (acc !! id) + 1]> acc)
        ∅ goalHistory.

(** [applyStats(pSnap, didWin, position)], with the variables of the
    transaction it closes over. *)
Definition applyStats (winDelta loseDelta : Z) (goalsByPlayer : gmap string Z)
    (duration : Z) (isShutout : bool)
    (pid : string) (didWin : bool) (position : Position) : list Write :=
  let goals := default 0 (goalsByPlayer !! pid) in
  let inc := if didWin then winDelta else - loseDelta in
  let common :=
    [Increment F_totalGames 1; Increment F_score inc;
     Increment F_totalPlaytime duration] in
  let role :=
    match position with
    | striker => [Increment F_gamesAsStriker 1; Increment F_goalsAsStriker goals]
    | defender => [Increment F_gamesAsDefender 1; Increment F_goalsAsDefender goals]
    end in
  let wl :=
    if didWin
    then [Increment F_gamesWon 1; Increment F_shutoutWins (if isShutout then 1 else 0)]
    else [Increment F_gamesLost 1] in
  common ++ role ++ wl.

(** [(a.score + b.score) / 2] *)
Definition average (a b : PlayerDoc) : Q := (inject_Z (score a + score b) / 2)%Q.

Definition member (p : Player.t) : MatchRecord.Member :=
  {| MatchRecord.id := Player.id p; MatchRecord.name := fullName p |}.

(** The four [tx.update] calls of the transaction in [handleGameEnd],
    from the documents [t1s], [t1d], [t2s], [t2d] that it has read. *)
Definition matchUpdates (call : GameEnd.t) (t1s t1d t2s t2d : PlayerDoc)
    : list (string * list Write) :=
  let winner := GameEnd.winner call in
  let team1 := Teams.team1 (GameEnd.teams call) in
  let team2 := Teams.team2 (GameEnd.teams call) in
  let score := GameEnd.score call in
  let goalHistory := GameEnd.goalHistory call in
  let duration := GameEnd.duration call in
  let isTeam1 := bool_decide (winner = Some Team_1) in
  let isTeam2 := bool_decide (winner = Some Team_2) in
  let losingTeamScore := if isTeam1 then Score.team2 score else Score.team1 score in
  let isShutout := losingTeamScore =? 0 in
  let pRef0 := Player.id (Team.striker team1) in
  let pRef1 := Player.id (Team.defender team1) in
  let pRef2 := Player.id (Team.striker team2) in
  let pRef3 := Player.id (Team.defender team2) in
  let freshWin := if isTeam1 then (t1s, t1d) else (t2s, t2d) in
  let freshLose := if isTeam1 then (t2s, t2d) else (t1s, t1d) in
  let avgWinner := average freshWin.1 freshWin.2 in
  let avgLoser := average freshLose.1 freshLose.2 in
  let change := computeScoreChange avgWinner avgLoser isShutout in
  let stats :=
    applyStats (winDelta change) (loseDelta change) (goalsByPlayer goalHistory)
               duration isShutout in
  [(pRef0, stats pRef0 isTeam1 striker);
   (pRef1, stats pRef1 isTeam1 defender);
   (pRef2, stats pRef2 isTeam2 striker);
   (pRef3, stats pRef3 isTeam2 defender)].

(** The match record that the transaction stores. *)
Definition matchRecord (call : GameEnd.t) : MatchRecord.t :=
  let team1 := Teams.team1 (GameEnd.teams call) in
  let team2 := Teams.team2 (GameEnd.teams call) in
  {| MatchRecord.duration := GameEnd.duration call;
     MatchRecord.score := GameEnd.score call;
     MatchRecord.winner := GameEnd.winner call;
     MatchRecord.team1 :=
       {| MatchRecord.striker := member (Team.striker team1);
          MatchRecord.defender := member (Team.defender team1) |};
     MatchRecord.team2 :=
       {| MatchRecord.striker := member (Team.striker team2);
          MatchRecord.defender := member (Team.defender team2) |};
     MatchRecord.goals :=
       imap (fun i g =>
               {| MatchRecord.i := i;
                  MatchRecord.playerId := Player.id (Goal.player g);
                  MatchRecord.position := Goal.position g;
                  MatchRecord.teamKey := Goal.teamKey g |})
            (GameEnd.goalHistory call) |}.

(** The body of [runTransaction] in [handleGameEnd]: the four reads, the
    four updates and the match record, committed together or not at
    all.  A participant whose document is gone makes its [tx.update]
    fail and with it the transaction. *)
Definition matchTransaction (call : GameEnd.t) (db : Store) : option Store :=
  let team1 := Teams.team1 (GameEnd.teams call) in
  let team2 := Teams.team2 (GameEnd.teams call) in
  t1s ← players db !! Player.id (Team.striker team1);
  t1d ← players db !! Player.id (Team.defender team1);
  t2s ← players db !! Player.id (Team.striker team2);
  t2d ← players db !! Player.id (Team.defender team2);
  ps ← commitUpdates (matchUpdates call t1s t1d t2s t2d) (players db);
  Some {| players := ps; matches := matches db ++ [matchRecord call];
          seasonHistory := seasonHistory db; config := config db |}.

(** [handleGameEnd(winner, teams, score, goalHistory, duration)] *)
Definition handleGameEnd (hasDb : bool) (faults : FaultPlan) (call : GameEnd.t)
    (db : Store) : Store :=
  if negb hasDb then db
  else
    try_catch
      (guarded faults RunMatchTransaction (fun db =>
         match matchTransaction call db with
         | Some db' => (db', Some tt)
         | None => (db, None)
         end))
      db.

(** The four awaited steps of [handleCloseSeason], in the order of the
    source. *)
Definition addSeasonRecord (faults : FaultPlan) (r : SeasonRecord) : Attempt unit :=
  guarded faults AddSeasonRecord (fun db =>
    ({| players := players db; matches := matches db;
        seasonHistory := seasonHistory db ++ [r]; config := config db |}, Some tt)).

Definition updateWinner (faults : FaultPlan) (winner : Player.t) : Attempt unit :=
  guarded faults UpdateWinner (fun db =>
    let ws := [Assign F_seasonsWon (default 0 (seasonsWon (Player.data winner)) + 1)] in
    match updatePlayerDoc (Player.id winner) (applyWrites ws) (players db) with
    | Some ps => (setPlayers ps db, Some tt)
    | None => (db, None)
    end).

(** [getDocs(query(collection(db, "players")))]: the ids of all player
    documents. *)
Definition getPlayers (faults : FaultPlan) : Attempt (list string) :=
  guarded faults GetPlayers (fun db => (db, Some (map fst (map_to_list (players db))))).

Definition resetScores (faults : FaultPlan) (all : list string) : Attempt unit :=
  guarded faults CommitBatch (fun db =>
    match commitUpdates (map (fun pd => (pd, [Assign F_score 1500])) all) (players db) with
    | Some ps => (setPlayers ps db, Some tt)
    | None => (db, None)
    end).

Definition updateCurrentSeason (faults : FaultPlan) (currentSeason : Z) : Attempt unit :=
  guarded faults UpdateConfig (fun db =>
    match config db with
    | Some _ =>
        ({| players := players db; matches := matches db;
            seasonHistory := seasonHistory db;
            config := Some ((if currentSeason =? 0 then 1 else currentSeason) + 1) |},
         Some tt)
    | None => (db, None)
    end).

(** The body of the [try] of [handleCloseSeason]. *)
Definition closeSeason (faults : FaultPlan) (winner : Player.t) (currentSeason : Z)
    : Attempt unit :=
  await _ <- addSeasonRecord faults
               {| seasonNumber := currentSeason;
                  winnerName := fullName winner;
                  winnerId := Player.id winner |} ;;
  await _ <- updateWinner faults winner ;;
  await all <- getPlayers faults ;;
  await _ <- resetScores faults all ;;
  updateCurrentSeason faults currentSeason.

(** [sortedPlayers[0]] of [handleCloseSeason]. *)
Definition seasonWinner (playerList : list Player.t) : option Player.t :=
  head (Array_sort (fun a b => score (Player.data b) - score (Player.data a)) playerList).

(** [handleCloseSeason()]; [playerList] and [currentSeason] are the
    React state [players] and [appState.currentSeason] that the handler
    closes over. *)
Definition handleCloseSeason (hasDb : bool) (faults : FaultPlan)
    (playerList : list Player.t) (currentSeason : Z) (db : Store) : Store :=
  if negb hasDb || bool_decide (length playerList = 0%nat) then db
  else
    match seasonWinner playerList with
    | Some winner => try_catch (closeSeason faults winner currentSeason) db
    | None => db
    end.

(** The React state [players] as the snapshot listener fills it from
    the collection: one entry per document, in some order. *)
Definition inSync (playerList : list Player.t) (db : Store) : Prop :=
  NoDup (map Player.id playerList) /\
  forall id d, {| Player.id := id; Player.data := d |} ∈ playerList <-> players db !! id = Some d.

(** The operations of the core on the database. *)
Inductive Op :=
| OpAddPlayer (newId : string) (playerData : PlayerForm.t)
| OpUpdatePlayer (playerId : string) (playerData : PlayerForm.t)
| OpDeletePlayer (playerId : string)
| OpGameEnd (call : GameEnd.t)
| OpCloseSeason (playerList : list Player.t) (currentSeason : Z).

Definition exec {rt : Runtime} (hasDb : bool) (faults : FaultPlan) (op : Op) (db : Store) : Store :=
  match op with
  | OpAddPlayer newId playerData => handleAddPlayer hasDb faults newId playerData db
  | OpUpdatePlayer playerId playerData => handleUpdatePlayer hasDb faults playerId playerData db
  | OpDeletePlayer playerId => handleDeletePlayer hasDb faults playerId db
  | OpGameEnd call => handleGameEnd hasDb faults call db
  | OpCloseSeason playerList currentSeason =>
      handleCloseSeason hasDb faults playerList currentSeason db
  end.

(** The databases that the core can produce from [db0]. *)
Inductive reachable {rt : Runtime} (db0 : Store) : Store -> Prop :=
| reachable_start : reachable db0 db0
| reachable_exec hasDb faults op db :
    reachable db0 db -> reachable db0 (exec hasDb faults op db).

End App.

(* ================================================================= *)
(** ** Notions used in the statements *)
(* ================================================================= *)

(** What a list of updates does to the document with id [id]. *)
Definition updatesFor (id : string) (updates : list (string * list Write))
    (d : PlayerDoc) : PlayerDoc :=
  foldl (fun d u => if decide (u.1 = id) then applyWrites u.2 d else d) d updates.

(** The four effects of a season closure on the database, each on its
    own: the season record appended, the winner's title counter raised,
    every rating reset, the season counter advanced. *)
Definition withSeasonRecord (r : SeasonRecord) (db : Store) : Store :=
  {| players := players db; matches := matches db;
     seasonHistory := seasonHistory db ++ [r]; config := config db |}.

Definition withTitle (winner : Player.t) (db : Store) : Store :=
  setPlayers
    (alter (setNum F_seasonsWon (default 0 (seasonsWon (Player.data winner)) + 1))
           (Player.id winner) (players db))
    db.

Definition withRatingsReset (db : Store) : Store :=
  setPlayers (setNum F_score 1500 <$> players db) db.

Definition withSeasonCounter (currentSeason : Z) (db : Store) : Store :=
  {| players := players db; matches := matches db;
     seasonHistory := seasonHistory db;
     config := Some ((if currentSeason =? 0 then 1 else currentSeason) + 1) |}.

Definition closureRecord (winner : Player.t) (currentSeason : Z) : SeasonRecord :=
  {| seasonNumber := currentSeason;
     winnerName := (firstName (Player.data winner) ++ " " ++ lastName (Player.data winner))%string;
     winnerId := Player.id winner |}.

Definition closureEffects (winner : Player.t) (currentSeason : Z) : list (Store -> Store) :=
  [withSeasonRecord (closureRecord winner currentSeason);
   withTitle winner;
   withRatingsReset;
   withSeasonCounter currentSeason].

Definition applyEffects (effects : list (Store -> Store)) (db : Store) : Store :=
  foldl (fun db f => f db) db effects.

(** How many of the four steps of a closure take effect: the steps
    before the first call that is rejected, by the fault plan or
    because the document to update does not exist. *)
Definition closureProgress (faults : FaultPlan) (winner : Player.t) (db : Store) : nat :=
  if faults AddSeasonRecord then 0
  else if faults UpdateWinner || negb (truthy (players db !! Player.id winner)) then 1
  else if faults GetPlayers || faults CommitBatch then 2
  else if faults UpdateConfig || negb (truthy (config db)) then 3
  else 4.

(** Two summaries of the same match: same winner, score and duration,
    the same four ids in the same slots and the same scorers in the goal
    log.  The player objects they carry may differ in everything else,
    the ratings among it. *)
Definition sameMatch (c c' : GameEnd.t) : Prop :=
  GameEnd.winner c = GameEnd.winner c' /\
  GameEnd.score c = GameEnd.score c' /\
  GameEnd.duration c = GameEnd.duration c' /\
  Player.id (Team.striker (Teams.team1 (GameEnd.teams c)))
    = Player.id (Team.striker (Teams.team1 (GameEnd.teams c'))) /\
  Player.id (Team.defender (Teams.team1 (GameEnd.teams c)))
    = Player.id (Team.defender (Teams.team1 (GameEnd.teams c'))) /\
  Player.id (Team.striker (Teams.team2 (GameEnd.teams c)))
    = Player.id (Team.striker (Teams.team2 (GameEnd.teams c'))) /\
  Player.id (Team.defender (Teams.team2 (GameEnd.teams c)))
    = Player.id (Team.defender (Teams.team2 (GameEnd.teams c'))) /\
  map (fun g => Player.id (Goal.player g)) (GameEnd.goalHistory c)
    = map (fun g => Player.id (Goal.player g)) (GameEnd.goalHistory c').

(** The three game counters of a player document. *)
Definition gameCounters (d : PlayerDoc) : Z * Z * Z :=
  (totalGames d, gamesWon d, gamesLost d).

(** The ids of the four participants of a match, in the order of the
    slots: team 1 striker and defender, team 2 striker and defender. *)
Definition participants (c : GameEnd.t) : list string :=
  [Player.id (Team.striker (Teams.team1 (GameEnd.teams c)));
   Player.id (Team.defender (Teams.team1 (GameEnd.teams c)));
   Player.id (Team.striker (Teams.team2 (GameEnd.teams c)));
   Player.id (Team.defender (Teams.team2 (GameEnd.teams c)))].

(** The number of entries of a goal log in which player [pid] scored. *)
Definition goalsBy (pid : string) (log : list Goal.t) : Z :=
  Z.of_nat (length (filter (fun g => Player.id (Goal.player g) = pid) log)).

(** The number of entries of a goal log that name team [k]. *)
Definition goalsOf (k : TeamKey.t) (log : list Goal.t) : Z :=
  Z.of_nat (length (filter (fun g => Goal.teamKey g = k) log)).

(** The number of entries of a goal log in which player [pid] scored
    from position [pos]. *)
Definition goalsAs (pid : string) (pos : Position) (log : list Goal.t) : Z :=
  Z.of_nat (length (filter
    (fun g => Player.id (Goal.player g) = pid /\ Goal.position g = pos) log)).

(* ================================================================= *)
(** ** Sample data *)
(* ================================================================= *)

Module Sample.

(** A runtime for the sample data, which is ASCII text: on strings of
    ASCII characters every engine maps the 26 letters and leaves the
    other characters, and compares two strings character by character.
    It stands for no engine on other strings and is used for the sample
    data only. *)
Definition upperAscii (c : ascii) : ascii :=
  let n := N_of_ascii c in
  if ((97 <=? n) && (n <=? 122))%N then ascii_of_N (n - 32) else c.

Definition lowerAscii (c : ascii) : ascii :=
  let n := N_of_ascii c in
  if ((65 <=? n) && (n <=? 90))%N then ascii_of_N (n + 32) else c.

Fixpoint mapAscii (f : ascii -> ascii) (s : string) : string :=
  match s with
  | EmptyString => EmptyString
  | String c rest => String (f c) (mapAscii f rest)
  end.

Definition runtime : Runtime :=
  {| toUpperCase := mapAscii upperAscii;
     toLowerCase := mapAscii lowerAscii;
     String_lt := String.ltb |}.

Definition doc (first last : string) (rating : Z) : PlayerDoc :=
  {| firstName := first; lastName := last; country := "DE"; img := "";
     score := rating; gamesWon := 0; gamesLost := 0;
     gamesAsStriker := 0; gamesAsDefender := 0; totalGames := 0;
     goalsAsStriker := 0; goalsAsDefender := 0; shutoutWins := 0;
     totalPlaytime := 0; seasonsWon := None |}.

Definition anna : Player.t := {| Player.id := "p1"; Player.data := doc "Anna" "Arndt" 1520 |}.
Definition bert : Player.t := {| Player.id := "p2"; Player.data := doc "Bert" "Brandt" 1500 |}.
Definition cleo : Player.t := {| Player.id := "p3"; Player.data := doc "Cleo" "Conrad" 1480 |}.
Definition dirk : Player.t := {| Player.id := "p4"; Player.data := doc "Dirk" "Dorn" 1500 |}.

(** Team 1 is Anna (forward) and Bert, team 2 is Cleo (forward) and Dirk. *)
Definition start : GameScreen.State :=
  GameScreen.init {| Selection.forward := anna; Selection.defender := bert |}
                  {| Selection.forward := cleo; Selection.defender := dirk |} 0.

Definition collection (l : list Player.t) : gmap string PlayerDoc :=
  list_to_map (map (fun p => (Player.id p, Player.data p)) l).

Definition roster : list Player.t := [anna; bert; cleo; dirk].

Definition db : Store :=
  {| players := collection roster; matches := []; seasonHistory := []; config := Some 1 |}.

(** The database some time later: Anna's rating has risen to 1900. *)
Definition laterDb : Store :=
  setPlayers (<["p1" := doc "Anna" "Arndt" 1900]> (players db)) db.

(** The summary that a confirmation at time [now] hands over. *)
Definition summary (now : Z) (st : GameScreen.State) : GameEnd.t :=
  {| GameEnd.winner := GameScreen.winner st;
     GameEnd.teams := {| Teams.team1 := GameScreen.team1 st;
                         Teams.team2 := GameScreen.team2 st |};
     GameEnd.score := GameScreen.score st;
     GameEnd.goalHistory := GameScreen.goalHistory st;
     GameEnd.duration := now - GameScreen.startTime st |}.

(** Anna scores as striker, team 1 swaps positions, Anna scores as
    defender, Bert scores four times as striker: 6:0 for team 1. *)
Definition swapMatch : list GameScreen.Click :=
  [GameScreen.LeftStriker; GameScreen.LeftSwapPositions; GameScreen.LeftDefender;
   GameScreen.LeftStriker; GameScreen.LeftStriker; GameScreen.LeftStriker;
   GameScreen.LeftStriker].

Definition clicks (cs : list GameScreen.Click) (st : GameScreen.State) : GameScreen.State :=
  foldl (fun st c => (GameScreen.click 0 c st).1) st cs.

(** Cleo scores three times, then Anna five times: 5:3, match open. *)
Definition fiveThree : list GameScreen.Action :=
  replicate 3 (GameScreen.RecordGoal cleo striker)
  ++ replicate 5 (GameScreen.RecordGoal anna striker).

(** One more goal of Anna: 6:3, team 1 has provisionally won. *)
Definition sixThree : list GameScreen.Action :=
  fiveThree ++ [GameScreen.RecordGoal anna striker].

(** Five goals each: 5:5. *)
Definition fiveFive : list GameScreen.Action :=
  replicate 5 (GameScreen.RecordGoal anna striker)
  ++ replicate 5 (GameScreen.RecordGoal cleo striker).

(** A fault plan that rejects exactly one call. *)
Definition failAt (c : StoreCall) : FaultPlan :=
  fun c' => match c, c' with
            | UpdateWinner, UpdateWinner => true
            | AddSeasonRecord, AddSeasonRecord => true
            | GetPlayers, GetPlayers => true
            | CommitBatch, CommitBatch => true
            | UpdateConfig, UpdateConfig => true
            | AddPlayer, AddPlayer => true
            | UpdatePlayer, UpdatePlayer => true
            | DeletePlayer, DeletePlayer => true
            | RunMatchTransaction, RunMatchTransaction => true
            | _, _ => false
            end.

End Sample.

(* ================================================================= *)
(** ** The other screens *)
(* ================================================================= *)

From Stdlib Require Import Sorted.

Module PlayerSelectionScreen.

(** [useState([null, null, null, null])] *)
Definition init : list (option Player.t) := [None; None; None; None].

(** [p && p.id === player.id] *)
Definition holds (player : Player.t) (p : option Player.t) : bool :=
  match p with
  | Some q => bool_decide (Player.id q = Player.id player)
  | None => false
  end.

(** The updater of [handleSelectPlayer(player)]. *)
Definition handleSelectPlayer (player : Player.t) (prev : list (option Player.t))
    : list (option Player.t) :=
  let isAlready := existsb (holds player) prev in
  if isAlready then map (fun p => if holds player p then None else p) prev
  else
    match list_find (fun s => s = None) prev with
    | None => prev
    | Some (firstEmpty, _) => <[firstEmpty := Some player]> prev
    end.

(** [[...players].sort((a, b) => b.score - a.score)], the order of the
    cards here, of the rows of [StatisticsScreen] and of the ranking in
    [handleCloseSeason]. *)
Definition sortedPlayers (players : list Player.t) : list Player.t :=
  Array_sort (fun a b => score (Player.data b) - score (Player.data a)) players.

(** [slots.every((s) => s !== null)] *)
Definition ready (slots : list (option Player.t)) : bool := forallb truthy slots.

(** [start()]: the two teams handed to [onGameStart], team 1 from slots
    0 (defender) and 1 (forward), team 2 from slots 2 (forward) and 3
    (defender); nothing unless [ready]. *)
Definition start (slots : list (option Player.t)) : option (Selection.t * Selection.t) :=
  if ready slots then
    defender1 ← (slots !! 0%nat) ≫= (fun s => s);
    forward1 ← (slots !! 1%nat) ≫= (fun s => s);
    forward2 ← (slots !! 2%nat) ≫= (fun s => s);
    defender2 ← (slots !! 3%nat) ≫= (fun s => s);
    Some ({| Selection.forward := forward1; Selection.defender := defender1 |},
          {| Selection.forward := forward2; Selection.defender := defender2 |})
  else None.

(** The slots after a sequence of taps on player cards. *)
Definition select (taps : list Player.t) : list (option Player.t) :=
  foldl (fun slots p => handleSelectPlayer p slots) init taps.

End PlayerSelectionScreen.

(** [sortedHistory] of [SaisonsScreen]: latest season first. *)
Definition sortedHistory (history : list SeasonRecord) : list SeasonRecord :=
  Array_sort (fun a b => seasonNumber b - seasonNumber a) history.

Module ManagePlayersScreen.

(** The comparison function of [sortedPlayers]: [lnA < lnB] is
    [String_lt lnA lnB], [lnA > lnB] is [String_lt lnB lnA], and
    [(a.lastName || "")] is the name itself. *)
Definition compareNames {rt : Runtime} (a b : Player.t) : Z :=
  let lnA := toLowerCase (lastName (Player.data a)) in
  let lnB := toLowerCase (lastName (Player.data b)) in
  let fnA := toLowerCase (firstName (Player.data a)) in
  let fnB := toLowerCase (firstName (Player.data b)) in
  if String_lt lnA lnB then -1
  else if String_lt lnB lnA then 1
  else if String_lt fnA fnB then -1
  else if String_lt fnB fnA then 1
  else 0.

Definition sortedPlayers {rt : Runtime} (players : list Player.t) : list Player.t :=
  Array_sort compareNames players.

(** [modalState]: which dialog is open, and for which player. *)
Inductive ModalType := modal_add | modal_edit | modal_delete.

Record ModalState := { modalType : option ModalType; modalPlayer : option Player.t }.

(** [handleSubmit] of [PlayerForm]: the form data handed to [onSave], or
    nothing (an alert) if a required field is empty. *)
Definition handleSubmit (formData : PlayerForm.t) : option PlayerForm.t :=
  if bool_decide (PlayerForm.firstName formData = "")
     || bool_decide (PlayerForm.lastName formData = "")
     || bool_decide (PlayerForm.country formData = "")
  then None
  else Some formData.

(** [handleSavePlayer(formData)]: the handler of [App] it calls; [newId]
    is the id a new document would get. *)
Definition handleSavePlayer (modalState : ModalState) (newId : string)
    (formData : PlayerForm.t) : option App.Op :=
  match modalType modalState with
  | Some modal_add => Some (App.OpAddPlayer newId formData)
  | Some modal_edit =>
      match modalPlayer modalState with
      | Some p => Some (App.OpUpdatePlayer (Player.id p) formData)
      | None => None
      end
  | _ => None
  end.

(** [handleDeleteConfirm()] *)
Definition handleDeleteConfirm (modalState : ModalState) : option App.Op :=
  match modalPlayer modalState with
  | Some p => if bool_decide (Player.id p = "") then None
              else Some (App.OpDeletePlayer (Player.id p))
  | None => None
  end.

(** A submitted form, from the form to the database. *)
Definition submit {rt : Runtime} (hasDb : bool) (faults : FaultPlan) (modalState : ModalState)
    (newId : string) (formData : PlayerForm.t) (db : Store) : Store :=
  match handleSubmit formData ≫= handleSavePlayer modalState newId with
  | Some op => App.exec hasDb faults op db
  | None => db
  end.

End ManagePlayersScreen.

(** The login screen (LoginScreen).  [env] is the configured
    administrator password, [import.meta?.env?.VITE_ADMIN_PASSWORD],
    absent when the variable is not set.  The second component of the
    result tells whether [onLogin] is scheduled. *)
Module LoginScreen.

Record State := {
  password : string;
  error : string;
  isLoggingIn : bool;
}.

Definition init : State := {| password := ""; error := ""; isLoggingIn := false |}.

Definition setPassword (v : string) (st : State) : State :=
  {| password := v; error := error st; isLoggingIn := isLoggingIn st |}.
Definition setError (v : string) (st : State) : State :=
  {| password := password st; error := v; isLoggingIn := isLoggingIn st |}.
Definition setIsLoggingIn (v : bool) (st : State) : State :=
  {| password := password st; error := error st; isLoggingIn := v |}.

(** A string is truthy when it is not empty. *)
Definition nonEmpty (s : string) : bool :=
  match s with EmptyString => false | String _ _ => true end.

Definition handleLogin (env : option string) (st : State) : State * bool :=
  let st := setError "" st in
  let expected := match env with
                  | Some v => if nonEmpty v then v else ""
                  | None => ""
                  end in
  if nonEmpty (password st) && nonEmpty expected && String.eqb (password st) expected
  then (setIsLoggingIn true st, true)
  else (setPassword "" (setError "Falsches Passwort" st), false).

End LoginScreen.

(* ================================================================= *)
(** ** Further notions used in the statements *)
(* ================================================================= *)

(** The ids of the four players of a live match, by slot. *)
Definition teamIds (st : GameScreen.State) : list string :=
  [Player.id (Team.striker (GameScreen.team1 st));
   Player.id (Team.defender (GameScreen.team1 st));
   Player.id (Team.striker (GameScreen.team2 st));
   Player.id (Team.defender (GameScreen.team2 st))].

(** The ids of the players in the selection slots. *)
Definition selectedIds (slots : list (option Player.t)) : list string :=
  omap (fun s => Player.id <$> s) slots.

(** The characters a URL component may contain after encoding. *)
Definition isUrlSafe (c : ascii) : bool :=
  isUnreserved c || bool_decide (c = "%"%char).

(** The sum of the ratings stored for a list of ids. *)
Definition ratingSum (ids : list string) (ps : gmap string PlayerDoc) : Z :=
  foldr (fun id acc => default 0 (score <$> ps !! id) + acc) 0 ids.

(** The team behind a key, the player in a position of a team, and the
    key of the team displayed on the left ([left = true]) or right. *)
Definition teamOf (k : TeamKey.t) (st : GameScreen.State) : Team.t :=
  match k with
  | TeamKey.team1 => GameScreen.team1 st
  | TeamKey.team2 => GameScreen.team2 st
  end.

Definition playerAt (pos : Position) (t : Team.t) : Player.t :=
  match pos with striker => Team.striker t | defender => Team.defender t end.

Definition sideKey (left : bool) (st : GameScreen.State) : TeamKey.t :=
  if xorb left (GameScreen.isSwapped st) then TeamKey.team1 else TeamKey.team2.

(** The goal button of a side and position. *)
Definition goalButton (left : bool) (pos : Position) : GameScreen.Click :=
  match left, pos with
  | true, striker => GameScreen.LeftStriker
  | true, defender => GameScreen.LeftDefender
  | false, striker => GameScreen.RightStriker
  | false, defender => GameScreen.RightDefender
  end.

(** The names a player is listed by in the player administration: last
    name, then first name, both in lower case. *)
Definition nameKey {rt : Runtime} (p : Player.t) : string * string :=
  (toLowerCase (lastName (Player.data p)), toLowerCase (firstName (Player.data p))).

(** The order of two such pairs: by the first components, then by the
    second, each compared with [<] on strings. *)
Definition nameLe {rt : Runtime} (k1 k2 : string * string) : Prop :=
  String_lt k1.1 k2.1 = true \/
  (k1.1 = k2.1 /\ (String_lt k1.2 k2.2 = true \/ k1.2 = k2.2)).

(** What the language guarantees of [<] on strings: it is a strict total
    order (the lexicographic order of the code units). *)
Definition strictTotalOrder (rt : Runtime) : Prop :=
  (forall a, String_lt a a = false) /\
  (forall a b c, String_lt a b = true -> String_lt b c = true -> String_lt a c = true) /\
  (forall a b, String_lt a b = false -> String_lt b a = false -> a = b).

(* ================================================================= *)
(** ** The rating formula *)
(* ================================================================= *)

Lemma Math_round_nearest (x : Q) :
  (inject_Z (Math_round x) - (1 # 2) <= x < inject_Z (Math_round x) + (1 # 2))%Q.
Proof.
  unfold Math_round.
  pose proof (Qfloor_le (x + (1 # 2))) as Hlo.
  pose proof (Qlt_floor (x + (1 # 2))) as Hhi.
  rewrite inject_Z_plus in Hhi.
  change (inject_Z 1) with 1%Q in Hhi.
  split; lra.
Qed.

Lemma clamp_cases (n lo hi : Z) :
  lo <= hi ->
  clamp n lo hi = if n <? lo then lo else if hi <? n then hi else n.
Proof.
  intros Hle. unfold clamp.
  destruct (Z.ltb_spec n lo); destruct (Z.ltb_spec hi n); lia.
Qed.

(** The result does not depend on how the rationals are written. *)
Lemma computeScoreChange_Qeq (r1 r1' r2 r2' : Q) (s : bool) :
  (r1 == r1')%Q -> (r2 == r2')%Q ->
  computeScoreChange r1 r2 s = computeScoreChange r1' r2' s.
Proof.
  intros H1 H2. unfold computeScoreChange, Math_round.
  assert (Hx : (10 + (r2 - r1) / 40 + (1 # 2) == 10 + (r2' - r1') / 40 + (1 # 2))%Q)
    by (rewrite H1, H2; reflexivity).
  rewrite (Qfloor_comp _ _ Hx). reflexivity.
Qed.

(** C3.  For all average ratings [r1] (winner side), [r2] (loser side)
    and every flag [s]: with [rounded] the integer nearest to
    [10 + (r2 - r1) / 40] (a tie going up) and [dynamic] that integer
    clamped to 1..20, [computeScoreChange r1 r2 s] is the pair
    [dynamic + (5 if s else 0)] and [dynamic]; and the three examples of
    the specification evaluate to (10, 10), (1, 1) and (6, 1). *)
Theorem computeScoreChange_formula (r1 r2 : Q) (s : bool) :
  let x := (10 + (r2 - r1) / 40)%Q in
  let rounded := Math_round x in
  let dynamic := if rounded <? 1 then 1 else if 20 <? rounded then 20 else rounded in
  (inject_Z rounded - (1 # 2) <= x < inject_Z rounded + (1 # 2))%Q /\
  1 <= dynamic <= 20 /\
  computeScoreChange r1 r2 s
    = {| winDelta := dynamic + (if s then 5 else 0); loseDelta := dynamic |} /\
  computeScoreChange 1500 1500 false = {| winDelta := 10; loseDelta := 10 |} /\
  computeScoreChange 1700 1300 false = {| winDelta := 1; loseDelta := 1 |} /\
  computeScoreChange 1700 1300 true = {| winDelta := 6; loseDelta := 1 |}.
Proof.
  intros x rounded dynamic.
  split; [apply Math_round_nearest |].
  split.
  { subst dynamic.
    destruct (Z.ltb_spec rounded 1); [lia |].
    destruct (Z.ltb_spec 20 rounded); lia. }
  split.
  { unfold computeScoreChange.
    fold x. fold rounded.
    rewrite clamp_cases by lia. reflexivity. }
  repeat split; reflexivity.
Qed.

(* ================================================================= *)
(** ** The live match *)
(* ================================================================= *)

Section MatchSession.
Import GameScreen.

Lemma winningScoreFor_cases (s1 s2 : Z) :
  winningScoreFor s1 s2 = if bool_decide (s1 = 5 /\ s2 = 5) then 7 else 6.
Proof.
  unfold winningScoreFor.
  destruct (Z.eqb_spec s1 5), (Z.eqb_spec s2 5); simpl;
    case_bool_decide; try reflexivity; lia.
Qed.

(** The effect only ever writes [winner]. *)
Lemma winnerEffect_frame (st : State) :
  score (winnerEffect st) = score st /\
  goalHistory (winnerEffect st) = goalHistory st /\
  team1 (winnerEffect st) = team1 st /\
  team2 (winnerEffect st) = team2 st /\
  isSwapped (winnerEffect st) = isSwapped st /\
  startTime (winnerEffect st) = startTime st.
Proof.
  unfold winnerEffect.
  repeat match goal with |- context [if ?b then _ else _] => destruct b end;
    simpl; auto 10.
Qed.

(** The winner that one run of the effect leaves. *)
Lemma winnerEffect_winner (st : State) :
  let s1 := Score.team1 (score st) in
  let s2 := Score.team2 (score st) in
  let w := winningScore st in
  winner (winnerEffect st) =
    match winner st with
    | None => if (w <=? s1) || (w <=? s2)
              then Some (if s2 <? s1 then Team_1 else Team_2) else None
    | Some l => if (s1 <? w) && (s2 <? w) then None else Some l
    end.
Proof.
  unfold winnerEffect. destruct (winner st) as [l|] eqn:Hw; simpl.
  - destruct (_ && _); simpl; auto.
  - destruct (_ || _); simpl; auto.
Qed.

Lemma state_eq (a b : State) :
  team1 a = team1 b -> team2 a = team2 b -> score a = score b ->
  goalHistory a = goalHistory b -> isSwapped a = isSwapped b ->
  winner a = winner b -> startTime a = startTime b -> a = b.
Proof. destruct a, b; simpl; intros; subst; reflexivity. Qed.

(** After one run of the effect a further run changes nothing: the
    renders stop. *)
Lemma winnerEffect_settled (st : State) :
  winnerEffect (winnerEffect st) = winnerEffect st.
Proof.
  destruct (winnerEffect_frame st) as (Hs & Hg & H1 & H2 & Hsw & Ht).
  destruct (winnerEffect_frame (winnerEffect st)) as (Hs' & Hg' & H1' & H2' & Hsw' & Ht').
  apply state_eq; try congruence.
  rewrite (winnerEffect_winner (winnerEffect st)).
  unfold winningScore. rewrite Hs.
  rewrite (winnerEffect_winner st). unfold winningScore.
  set (s1 := Score.team1 (score st)). set (s2 := Score.team2 (score st)).
  set (w := winningScoreFor s1 s2).
  destruct (winner st) as [l|].
  - destruct (Z.ltb_spec s1 w), (Z.ltb_spec s2 w); simpl;
      destruct (Z.leb_spec w s1), (Z.leb_spec w s2); simpl; try reflexivity; lia.
  - destruct (Z.leb_spec w s1), (Z.leb_spec w s2); simpl;
      destruct (Z.ltb_spec s1 w), (Z.ltb_spec s2 w); simpl; try reflexivity; lia.
Qed.

Lemma settle_winnerEffect (st : State) : settle st = winnerEffect st.
Proof. apply winnerEffect_settled. Qed.

Lemma settle_settled (st : State) : winnerEffect (settle st) = settle st.
Proof. rewrite settle_winnerEffect. apply winnerEffect_settled. Qed.

Lemma winnerEffect_winner_ext (st st' : State) :
  score st = score st' -> winner st = winner st' ->
  winner (winnerEffect st) = winner (winnerEffect st').
Proof.
  intros Hs Hw. rewrite !winnerEffect_winner. unfold winningScore.
  rewrite Hs, Hw. reflexivity.
Qed.

(** A call that leaves score and winner alone leaves the effect at rest. *)
Lemma settled_frame (st st' : State) :
  winnerEffect st = st -> score st' = score st -> winner st' = winner st ->
  winnerEffect st' = st'.
Proof.
  intros Hrest Hs Hw.
  destruct (winnerEffect_frame st') as (? & ? & ? & ? & ? & ?).
  apply state_eq; try assumption.
  rewrite (winnerEffect_winner_ext st' st Hs Hw), Hrest. symmetry. exact Hw.
Qed.

(** Every state of a session is one in which the effect is at rest. *)
Lemma reachable_settled (t1 t2 : Selection.t) (now : Z) (st : State) :
  reachable (init t1 t2 now) st -> winnerEffect st = st.
Proof.
  induction 1 as [| st a Hr IH].
  - reflexivity.
  - destruct a; simpl.
    + apply settle_settled.
    + apply settle_settled.
    + apply (settled_frame st); [exact IH | |];
        unfold swapPositions; destruct (teamNum =? 1); reflexivity.
    + apply (settled_frame st); [exact IH | |]; reflexivity.
Qed.

Lemma run_reachable (st0 : State) (acts : list Action) : reachable st0 (run st0 acts).
Proof.
  unfold run. induction acts as [| a acts IH] using rev_ind.
  - constructor.
  - rewrite foldl_app. simpl. constructor. exact IH.
Qed.

End MatchSession.

Section MatchSessionClaims.
Import GameScreen.

Lemma snoc_case {A} (l : list A) : l = [] \/ exists l' x, l = l' ++ [x].
Proof. destruct l as [| x l' _] using rev_ind; eauto. Qed.

Lemma handleUndoGoal_nil (st : State) :
  goalHistory st = [] -> handleUndoGoal st = st.
Proof. intros H. unfold handleUndoGoal. rewrite H. reflexivity. Qed.

Lemma handleUndoGoal_snoc (st : State) (log : list Goal.t) (g : Goal.t) :
  goalHistory st = log ++ [g] ->
  handleUndoGoal st =
    {| team1 := team1 st; team2 := team2 st;
       score := Score.set (Goal.teamKey g)
                  (Z.max 0 (Score.get (Goal.teamKey g) (score st) - 1)) (score st);
       goalHistory := log; isSwapped := isSwapped st;
       winner := winner st; startTime := startTime st |}.
Proof.
  intros H. unfold handleUndoGoal. rewrite H.
  rewrite bool_decide_eq_false_2 by (rewrite length_app; simpl; lia).
  rewrite last_snoc. unfold setGoalHistory, setScore. simpl. rewrite H.
  rewrite length_app. simpl. rewrite Nat.add_sub, take_app_length. reflexivity.
Qed.

Lemma Score_get_set (k k' : TeamKey.t) (v : Z) (s : Score.t) :
  Score.get k' (Score.set k v s) = if decide (k' = k) then v else Score.get k' s.
Proof. destruct k, k'; reflexivity. Qed.

Lemma goalsOf_snoc (k : TeamKey.t) (log : list Goal.t) (g : Goal.t) :
  goalsOf k (log ++ [g]) = goalsOf k log + (if decide (Goal.teamKey g = k) then 1 else 0).
Proof.
  unfold goalsOf. rewrite filter_app, length_app, filter_cons, filter_nil.
  destruct (decide (Goal.teamKey g = k)); simpl; lia.
Qed.

Lemma goalsOf_nonneg (k : TeamKey.t) (log : list Goal.t) : 0 <= goalsOf k log.
Proof. unfold goalsOf. lia. Qed.

(** The score is the tally of the goal log, in every state of a session. *)
Lemma score_tally (st0 st : State) :
  (forall k, Score.get k (score st0) = goalsOf k (goalHistory st0)) ->
  reachable st0 st ->
  forall k, Score.get k (score st) = goalsOf k (goalHistory st).
Proof.
  intros H0. induction 1 as [| st a Hr IH]; [exact H0 |].
  intros k. destruct a; simpl.
  - rewrite settle_winnerEffect.
    destruct (winnerEffect_frame (handleGoal player position st)) as (-> & -> & _).
    unfold handleGoal. simpl. rewrite goalsOf_snoc, Score_get_set. simpl.
    rewrite <- IH.
    repeat case_decide; try congruence; lia.
  - rewrite settle_winnerEffect.
    destruct (winnerEffect_frame (handleUndoGoal st)) as (-> & -> & _).
    destruct (snoc_case (goalHistory st)) as [Hlog | (log & g & Hlog)].
    + rewrite handleUndoGoal_nil by assumption. apply IH.
    + rewrite (handleUndoGoal_snoc st log g Hlog). simpl.
      rewrite Score_get_set. pose proof (IH k) as Hk. pose proof (IH (Goal.teamKey g)) as Hg.
      rewrite Hlog, goalsOf_snoc in Hk, Hg.
      pose proof (goalsOf_nonneg k log). pose proof (goalsOf_nonneg (Goal.teamKey g) log).
      repeat case_decide; try congruence; subst; lia.
  - unfold swapPositions. destruct (teamNum =? 1); apply IH.
  - apply IH.
Qed.

(** C10.  In every state that a sequence of recordGoal, undoLastGoal,
    swapPositions and swapSides calls reaches from the initial state,
    each team's score is the number of goal-log entries with that
    team's key; so no score is negative, and the floor at 0 in undo does
    not change the decremented score of the team of the last entry. *)
Theorem score_counts_goal_log (t1 t2 : Selection.t) (now : Z)
    (acts : list Action) (k : TeamKey.t) :
  let st := run (init t1 t2 now) acts in
  Score.get k (score st) = goalsOf k (goalHistory st) /\
  0 <= Score.get k (score st) /\
  match last (goalHistory st) with
  | Some g =>
      Z.max 0 (Score.get (Goal.teamKey g) (score st) - 1)
        = Score.get (Goal.teamKey g) (score st) - 1
  | None => True
  end.
Proof.
  intros st.
  assert (Htally : forall k, Score.get k (score st) = goalsOf k (goalHistory st)).
  { apply (score_tally (init t1 t2 now)); [intros []; reflexivity | apply run_reachable]. }
  split; [apply Htally |].
  split; [rewrite Htally; apply goalsOf_nonneg |].
  destruct (snoc_case (goalHistory st)) as [Hlog | (log & g & Hlog)];
    rewrite Hlog; [exact I |].
  rewrite last_snoc, Htally, Hlog, goalsOf_snoc.
  pose proof (goalsOf_nonneg (Goal.teamKey g) log).
  case_decide; [lia | congruence].
Qed.

End MatchSessionClaims.

Section MatchSessionTransitions.
Import GameScreen.

Lemma step_goal_frame (st : State) (player : Player.t) (position : Position) :
  let st' := step st (RecordGoal player position) in
  score st' = score (handleGoal player position st) /\
  winner st' = winner (winnerEffect (handleGoal player position st)).
Proof.
  simpl. rewrite settle_winnerEffect.
  destruct (winnerEffect_frame (handleGoal player position st)) as (-> & _).
  split; reflexivity.
Qed.

(** C5.  The threshold consulted in any state is 7 if both scores of
    that state are exactly 5 and 6 otherwise; so it is 6 at 5:4 and at
    4:5 and 7 at 5:5.  After a goal recorded while no winner is declared, a team
    whose score has reached the threshold of the new score while the
    other team's has not is the declared winner, and if neither has
    reached it no winner is declared. *)
Theorem win_threshold (st : State) (player : Player.t) (position : Position) :
  let st' := step st (RecordGoal player position) in
  let s1 := Score.team1 (score st') in
  let s2 := Score.team2 (score st') in
  (forall a b : Z, winningScoreFor a b = if bool_decide (a = 5 /\ b = 5) then 7 else 6) /\
  (forall s : State,
     winningScore s =
       if bool_decide (Score.team1 (score s) = 5 /\ Score.team2 (score s) = 5)
       then 7 else 6) /\
  winningScoreFor 5 4 = 6 /\ winningScoreFor 4 5 = 6 /\ winningScoreFor 5 5 = 7 /\
  (winner st = None -> winningScore st' <= s1 -> s2 < winningScore st' ->
   winner st' = Some Team_1) /\
  (winner st = None -> winningScore st' <= s2 -> s1 < winningScore st' ->
   winner st' = Some Team_2) /\
  (winner st = None -> s1 < winningScore st' -> s2 < winningScore st' ->
   winner st' = None).
Proof.
  intros st' s1 s2.
  destruct (step_goal_frame st player position) as (Hs & Hw).
  fold st' in Hs, Hw.
  assert (Hwin : winner st = None ->
            winner st' = if (winningScore st' <=? s1) || (winningScore st' <=? s2)
                         then Some (if s2 <? s1 then Team_1 else Team_2) else None).
  { intros Hnone. rewrite Hw, winnerEffect_winner.
    unfold winningScore, s1, s2. rewrite Hs.
    unfold handleGoal at 1. simpl. rewrite Hnone. reflexivity. }
  split; [apply winningScoreFor_cases |].
  split; [intros s; apply winningScoreFor_cases |].
  do 3 (split; [reflexivity |]).
  repeat split; intros Hnone H1 H2; rewrite (Hwin Hnone).
  - destruct (Z.leb_spec (winningScore st') s1); [| lia]. simpl.
    destruct (Z.ltb_spec s2 s1); [reflexivity | lia].
  - destruct (Z.leb_spec (winningScore st') s1); [lia |].
    destruct (Z.leb_spec (winningScore st') s2); [| lia]. simpl.
    destruct (Z.ltb_spec s2 s1); [lia | reflexivity].
  - destruct (Z.leb_spec (winningScore st') s1); [lia |].
    destruct (Z.leb_spec (winningScore st') s2); [lia | reflexivity].
Qed.

(** At 5:0 with no winner declared, the sixth goal of team 1 declares
    team 1. *)
Lemma win_threshold_witness :
  let st := run Sample.start (replicate 5 (RecordGoal Sample.anna striker)) in
  winner st = None /\
  winner (step st (RecordGoal Sample.anna striker)) = Some Team_1.
Proof.
  intros st. split; [reflexivity |].
  destruct (win_threshold st Sample.anna striker) as (_ & _ & _ & _ & _ & H & _).
  apply H; [reflexivity | vm_compute; discriminate | reflexivity].
Defined.

(** What the recomputed threshold does after 5:5: the next goal makes
    the score 6:5, the threshold is 6 again, and the scoring team is
    declared winner. *)
Example six_five_after_deuce :
  let st := run Sample.start Sample.fiveFive in
  let st' := step st (RecordGoal Sample.anna striker) in
  winningScore st = 7 /\ winner st = None /\
  score st' = {| Score.team1 := 6; Score.team2 := 5 |} /\
  winningScore st' = 6 /\ winner st' = Some Team_1.
Proof. repeat split; reflexivity. Qed.

(** C6.  In every state of a session: undo with an empty goal log
    changes nothing; otherwise it removes the last entry of the log and
    sets the score of that entry's team to the larger of 0 and that
    score minus 1, leaving the other score and the teams alone, and
    when afterwards neither score reaches the threshold of the new
    score no winner is declared.  In particular 6:3 with team 1
    declared, the last goal being team 1's, becomes 5:3 with threshold
    6 and no winner. *)
Theorem undoLastGoal_spec (t1 t2 : Selection.t) (now : Z) (acts : list Action) :
  let st := run (init t1 t2 now) acts in
  let st' := step st UndoLastGoal in
  (goalHistory st = [] -> handleUndoGoal st = st /\ st' = st) /\
  (forall log g, goalHistory st = log ++ [g] ->
     goalHistory st' = log /\
     Score.get (Goal.teamKey g) (score st')
       = Z.max 0 (Score.get (Goal.teamKey g) (score st) - 1) /\
     (forall k, k <> Goal.teamKey g -> Score.get k (score st') = Score.get k (score st)) /\
     team1 st' = team1 st /\ team2 st' = team2 st /\
     (Score.team1 (score st') < winningScore st' ->
      Score.team2 (score st') < winningScore st' -> winner st' = None)) /\
  (forall log g, goalHistory st = log ++ [g] -> Goal.teamKey g = TeamKey.team1 ->
     score st = {| Score.team1 := 6; Score.team2 := 3 |} -> winner st = Some Team_1 ->
     score st' = {| Score.team1 := 5; Score.team2 := 3 |} /\
     winningScore st' = 6 /\ winner st' = None).
Proof.
  intros st st'.
  assert (Hrest : winnerEffect st = st)
    by (apply (reachable_settled t1 t2 now), run_reachable).
  assert (Hstep : st' = winnerEffect (handleUndoGoal st))
    by (unfold st'; simpl; apply settle_winnerEffect).
  assert (Hclear : Score.team1 (score st') < winningScore st' ->
                   Score.team2 (score st') < winningScore st' -> winner st' = None).
  { intros H1 H2. destruct (winnerEffect_frame (handleUndoGoal st)) as (Hs & _).
    pose proof (winnerEffect_winner (handleUndoGoal st)) as Hw. simpl in Hw.
    rewrite <- Hstep in Hs, Hw. unfold winningScore in *. rewrite <- Hs in Hw.
    rewrite Hw. destruct (winner (handleUndoGoal st)).
    - destruct (Z.ltb_spec (Score.team1 (score st'))
                  (winningScoreFor (Score.team1 (score st')) (Score.team2 (score st'))));
        [| lia].
      destruct (Z.ltb_spec (Score.team2 (score st'))
                  (winningScoreFor (Score.team1 (score st')) (Score.team2 (score st'))));
        [reflexivity | lia].
    - destruct (Z.leb_spec
                  (winningScoreFor (Score.team1 (score st')) (Score.team2 (score st')))
                  (Score.team1 (score st'))); [lia |].
      destruct (Z.leb_spec
                  (winningScoreFor (Score.team1 (score st')) (Score.team2 (score st')))
                  (Score.team2 (score st'))); [lia | reflexivity]. }
  assert (Hsnoc : forall log g, goalHistory st = log ++ [g] ->
            goalHistory st' = log /\
            score st' = Score.set (Goal.teamKey g)
                          (Z.max 0 (Score.get (Goal.teamKey g) (score st) - 1)) (score st) /\
            team1 st' = team1 st /\ team2 st' = team2 st).
  { intros log g Hlog.
    destruct (winnerEffect_frame (handleUndoGoal st)) as (Hs & Hg & H1 & H2 & _).
    rewrite <- Hstep in Hs, Hg, H1, H2.
    rewrite (handleUndoGoal_snoc st log g Hlog) in Hs, Hg, H1, H2. auto. }
  split; [| split].
  - intros Hnil. split; [apply handleUndoGoal_nil, Hnil |].
    rewrite Hstep, handleUndoGoal_nil by assumption. exact Hrest.
  - intros log g Hlog. destruct (Hsnoc log g Hlog) as (Hg & Hs & H1 & H2).
    split; [exact Hg |]. rewrite Hs.
    split; [rewrite Score_get_set; case_decide; congruence |].
    split; [intros k Hk; rewrite Score_get_set; case_decide; congruence |].
    rewrite <- Hs. auto.
  - intros log g Hlog Hk Hscore Hw. destruct (Hsnoc log g Hlog) as (_ & Hs & _).
    rewrite Hk, Hscore in Hs. simpl in Hs.
    assert (Hth : winningScore st' = 6) by (unfold winningScore; rewrite Hs; reflexivity).
    split; [exact Hs |]. split; [exact Hth |].
    apply Hclear; rewrite Hth, Hs; simpl; lia.
Qed.

(** At 6:3 with team 1 declared, undo gives 5:3 and no winner. *)
Lemma undoLastGoal_spec_witness :
  let st := run Sample.start Sample.sixThree in
  winner st = Some Team_1 /\
  score (step st UndoLastGoal) = {| Score.team1 := 5; Score.team2 := 3 |} /\
  winningScore (step st UndoLastGoal) = 6 /\
  winner (step st UndoLastGoal) = None.
Proof.
  intros st. split; [reflexivity |].
  destruct (undoLastGoal_spec
              {| Selection.forward := Sample.anna; Selection.defender := Sample.bert |}
              {| Selection.forward := Sample.cleo; Selection.defender := Sample.dirk |}
              0 Sample.sixThree) as (_ & _ & H).
  apply (H (goalHistory (run Sample.start Sample.fiveThree))
           {| Goal.player := Sample.anna; Goal.position := striker;
              Goal.teamKey := TeamKey.team1 |}); reflexivity.
Defined.

End MatchSessionTransitions.

Section Confirmation.
Import GameScreen.

(** C7 as the specification states it fails: [confirmWin] called while
    no winner is declared is not rejected.  At the start of a match it
    completes normally and hands [onGameEnd] a summary without winner. *)
Lemma confirmWin_while_playing_not_rejected :
  winner Sample.start = None /\
  confirmWin 1000 Sample.start
    = Normal {| GameEnd.winner := None;
                GameEnd.teams := {| Teams.team1 := team1 Sample.start;
                                    Teams.team2 := team2 Sample.start |};
                GameEnd.score := {| Score.team1 := 0; Score.team2 := 0 |};
                GameEnd.goalHistory := [];
                GameEnd.duration := 1000 |} /\
  ~ (exists err, confirmWin 1000 Sample.start = Thrown err).
Proof.
  split; [reflexivity |]. split; [reflexivity |].
  intros [err H]. discriminate H.
Qed.

(** C7, amended.  The confirm button is rendered exactly when a winner
    is declared.  While none is declared a click on it does nothing: no
    state change, no summary, no error.  With winner [w] declared the
    click leaves the state as it is and calls [onGameEnd] with [w], the
    teams, the final score, the whole goal log and the time elapsed
    since the start.  [confirmWin] itself never throws. *)
Theorem confirm_only_offered_after_win (now : Z) (st : State) :
  (rendered Confirm st = true <-> exists w, winner st = Some w) /\
  (winner st = None -> click now Confirm st = (st, None)) /\
  (forall w, winner st = Some w ->
     click now Confirm st =
       (st, Some (Normal {| GameEnd.winner := Some w;
                            GameEnd.teams := {| Teams.team1 := team1 st;
                                                Teams.team2 := team2 st |};
                            GameEnd.score := score st;
                            GameEnd.goalHistory := goalHistory st;
                            GameEnd.duration := now - startTime st |}))) /\
  (forall err, confirmWin now st <> Thrown err).
Proof.
  unfold click, confirmWin. simpl.
  destruct (winner st) as [w |] eqn:Hw; simpl.
  - split; [split; eauto |].
    split; [discriminate |].
    split; [| discriminate].
    intros w' [= <-]. reflexivity.
  - split; [split; [discriminate | intros [w [=]]] |].
    split; [reflexivity |].
    split; discriminate.
Qed.

(** At 6:3 with team 1 declared, the click on the confirm button after
    90 seconds hands over the summary of the match. *)
Lemma confirm_only_offered_after_win_witness :
  let st := run Sample.start Sample.sixThree in
  winner st = Some Team_1 /\
  click 90000 Confirm st =
    (st, Some (Normal {| GameEnd.winner := Some Team_1;
                         GameEnd.teams := {| Teams.team1 := team1 st;
                                             Teams.team2 := team2 st |};
                         GameEnd.score := {| Score.team1 := 6; Score.team2 := 3 |};
                         GameEnd.goalHistory := goalHistory st;
                         GameEnd.duration := 90000 |})).
Proof.
  intros st. split; [reflexivity |].
  destruct (confirm_only_offered_after_win 90000 st) as (_ & _ & H & _).
  apply (H Team_1). reflexivity.
Defined.

End Confirmation.

(* ================================================================= *)
(** ** Updates of player documents *)
(* ================================================================= *)

Section Updates.

Lemma updatePlayerDoc_Some (id : string) (f : PlayerDoc -> PlayerDoc)
    (ps : gmap string PlayerDoc) (d : PlayerDoc) :
  ps !! id = Some d -> updatePlayerDoc id f ps = Some (<[id := f d]> ps).
Proof. intros H. unfold updatePlayerDoc. rewrite H. reflexivity. Qed.

Lemma updatePlayerDoc_None (id : string) (f : PlayerDoc -> PlayerDoc)
    (ps : gmap string PlayerDoc) :
  ps !! id = None -> updatePlayerDoc id f ps = None.
Proof. intros H. unfold updatePlayerDoc. rewrite H. reflexivity. Qed.

Lemma commitUpdates_cons (u : string * list Write) (us : list (string * list Write))
    (ps : gmap string PlayerDoc) :
  commitUpdates (u :: us) ps =
    match updatePlayerDoc u.1 (applyWrites u.2) ps with
    | Some ps1 => commitUpdates us ps1
    | None => None
    end.
Proof.
  unfold commitUpdates. simpl.
  destruct (updatePlayerDoc u.1 (applyWrites u.2) ps); simpl; [reflexivity |].
  induction us as [| u' us IH]; simpl; auto.
Qed.

(** A committed list of updates changes each document by the updates
    that name it, and neither adds nor removes a document. *)
Lemma commitUpdates_lookup (us : list (string * list Write)) :
  forall (ps ps' : gmap string PlayerDoc),
    commitUpdates us ps = Some ps' ->
    forall id, ps' !! id = updatesFor id us <$> ps !! id.
Proof.
  induction us as [| u us IH]; intros ps ps' H id.
  - injection H as <-. unfold updatesFor. simpl. destruct (ps !! id); reflexivity.
  - rewrite commitUpdates_cons in H.
    destruct (ps !! u.1) as [d |] eqn:Hd.
    + rewrite (updatePlayerDoc_Some _ _ _ _ Hd) in H.
      rewrite (IH _ _ H id). unfold updatesFor at 2. simpl.
      destruct (decide (u.1 = id)) as [<- | Hne].
      * rewrite lookup_insert_eq, Hd. reflexivity.
      * rewrite lookup_insert_ne by exact Hne. reflexivity.
    + rewrite (updatePlayerDoc_None _ _ _ Hd) in H. discriminate H.
Qed.

(** A list of updates commits if every document it names exists. *)
Lemma commitUpdates_present (us : list (string * list Write)) :
  forall ps : gmap string PlayerDoc,
    Forall (fun u => is_Some (ps !! u.1)) us -> is_Some (commitUpdates us ps).
Proof.
  induction us as [| u us IH]; intros ps Hall.
  - eexists. reflexivity.
  - rewrite commitUpdates_cons. inversion Hall as [| ? ? [d Hd] Hrest]; subst.
    rewrite (updatePlayerDoc_Some _ _ _ _ Hd). apply IH.
    eapply Forall_impl; [exact Hrest |]. intros u' [d' Hd']. simpl.
    destruct (decide (u.1 = u'.1)) as [<- | Hne].
    + rewrite lookup_insert_eq. eauto.
    + rewrite lookup_insert_ne by exact Hne. eauto.
Qed.

(** ... and only then. *)
Lemma commitUpdates_absent (us : list (string * list Write))
    (ps : gmap string PlayerDoc) (u : string * list Write) :
  u ∈ us -> ps !! u.1 = None -> commitUpdates us ps = None.
Proof.
  revert ps. induction us as [| u' us IH]; intros ps Hin Hnone.
  - inversion Hin.
  - rewrite commitUpdates_cons.
    destruct (ps !! u'.1) as [d |] eqn:Hd.
    + rewrite (updatePlayerDoc_Some _ _ _ _ Hd).
      apply elem_of_cons in Hin as [-> | Hin]; [congruence |].
      apply IH; [exact Hin |].
      rewrite lookup_insert_ne; [exact Hnone | congruence].
    + rewrite (updatePlayerDoc_None _ _ _ Hd). reflexivity.
Qed.

Lemma PlayerDoc_eq (a b : PlayerDoc) :
  firstName a = firstName b -> lastName a = lastName b ->
  country a = country b -> img a = img b -> score a = score b ->
  gamesWon a = gamesWon b -> gamesLost a = gamesLost b ->
  gamesAsStriker a = gamesAsStriker b -> gamesAsDefender a = gamesAsDefender b ->
  totalGames a = totalGames b -> goalsAsStriker a = goalsAsStriker b ->
  goalsAsDefender a = goalsAsDefender b -> shutoutWins a = shutoutWins b ->
  totalPlaytime a = totalPlaytime b -> seasonsWon a = seasonsWon b -> a = b.
Proof. destruct a, b; simpl; intros; subst; reflexivity. Qed.

(** The update object of [applyStats], applied to a document. *)
Lemma applyStats_effect (wd ld : Z) (tally : gmap string Z) (dur : Z) (sh : bool)
    (pid : string) (didWin : bool) (pos : Position) (d : PlayerDoc) :
  let goals := default 0 (tally !! pid) in
  applyWrites (App.applyStats wd ld tally dur sh pid didWin pos) d =
    {| firstName := firstName d; lastName := lastName d;
       country := country d; img := img d;
       score := score d + (if didWin then wd else - ld);
       gamesWon := gamesWon d + (if didWin then 1 else 0);
       gamesLost := gamesLost d + (if didWin then 0 else 1);
       gamesAsStriker := gamesAsStriker d + (if pos is striker then 1 else 0);
       gamesAsDefender := gamesAsDefender d + (if pos is striker then 0 else 1);
       totalGames := totalGames d + 1;
       goalsAsStriker := goalsAsStriker d + (if pos is striker then goals else 0);
       goalsAsDefender := goalsAsDefender d + (if pos is striker then 0 else goals);
       shutoutWins := shutoutWins d + (if didWin && sh then 1 else 0);
       totalPlaytime := totalPlaytime d + dur;
       seasonsWon := seasonsWon d |}.
Proof.
  intros goals. unfold App.applyStats. fold goals. clearbody goals.
  destruct didWin, pos, sh;
    cbv [applyWrites applyWrite foldl app];
    apply PlayerDoc_eq; cbn [setNum getNum andb
         firstName lastName country img
         score gamesWon gamesLost gamesAsStriker gamesAsDefender totalGames
         goalsAsStriker goalsAsDefender shutoutWins totalPlaytime seasonsWon];
    first [reflexivity | lia].
Qed.

End Updates.

(* ================================================================= *)
(** ** Season closure *)
(* ================================================================= *)

Section SeasonClosure.

Lemma sort_insert_head {A} (cmp : A -> A -> Z) (x : A) (l : list A) :
  head (sort_insert cmp x l) =
    Some (match head l with
          | Some y => if cmp x y <=? 0 then x else y
          | None => x
          end).
Proof. destruct l as [| y l]; simpl; [| destruct (cmp x y <=? 0)]; reflexivity. Qed.

(** The first element of the sorted ranking is one of the players and no
    player has a higher rating. *)
Lemma seasonWinner_top (playerList : list Player.t) :
  match App.seasonWinner playerList with
  | Some w =>
      w ∈ playerList /\
      forall p, p ∈ playerList -> score (Player.data p) <= score (Player.data w)
  | None => playerList = []
  end.
Proof.
  unfold App.seasonWinner, Array_sort.
  induction playerList as [| x l IH]; simpl; [reflexivity |].
  rewrite sort_insert_head.
  destruct (head (foldr _ [] l)) as [y |].
  - destruct IH as [Hy Hmax].
    destruct (Z.leb_spec (score (Player.data y) - score (Player.data x)) 0).
    + split; [left |]. intros p [-> | Hp]%elem_of_cons; [lia |].
      specialize (Hmax p Hp). lia.
    + split; [right; exact Hy |]. intros p [-> | Hp]%elem_of_cons; [lia | auto].
  - subst l. split; [left |]. intros p [-> | Hp]%elem_of_cons; [lia | inversion Hp].
Qed.

Lemma setNum_score_idem (v : Z) (d : PlayerDoc) :
  setNum F_score v (setNum F_score v d) = setNum F_score v d.
Proof. reflexivity. Qed.

Lemma updatesFor_reset (id : string) (all : list string) :
  forall d : PlayerDoc,
    updatesFor id (map (fun pd => (pd, [Assign F_score 1500])) all) d =
      if decide (id ∈ all) then setNum F_score 1500 d else d.
Proof.
  unfold updatesFor. induction all as [| pd all IH]; intros d; simpl.
  - reflexivity.
  - rewrite IH. destruct (decide (pd = id)) as [-> | Hne].
    + rewrite (decide_True (P := id ∈ id :: all)) by left.
      case_decide; reflexivity.
    + destruct (decide (id ∈ all)) as [Hin | Hnin].
      * rewrite decide_True by (right; exact Hin). reflexivity.
      * rewrite decide_False; [reflexivity |].
        intros [-> | ?]%elem_of_cons; congruence.
Qed.

(** The write batch over all player documents sets every rating to 1500. *)
Lemma commitUpdates_reset (ps : gmap string PlayerDoc) :
  commitUpdates (map (fun pd => (pd, [Assign F_score 1500])) (map fst (map_to_list ps))) ps
    = Some (setNum F_score 1500 <$> ps).
Proof.
  set (all := map fst (map_to_list ps)).
  assert (Hall : forall id d, ps !! id = Some d -> id ∈ all).
  { intros id d Hd. unfold all. apply list_elem_of_fmap. exists (id, d).
    split; [reflexivity |]. apply elem_of_map_to_list. exact Hd. }
  destruct (commitUpdates_present (map (fun pd => (pd, [Assign F_score 1500])) all) ps)
    as [ps' Hps'].
  { apply Forall_forall. intros u [pd [-> Hpd]]%list_elem_of_fmap. simpl.
    unfold all in Hpd. apply list_elem_of_fmap in Hpd as [[k d] [-> Hk]].
    apply elem_of_map_to_list in Hk. simpl. eauto. }
  rewrite Hps'. f_equal. apply map_eq. intros id.
  rewrite (commitUpdates_lookup _ _ _ Hps' id), lookup_fmap.
  destruct (ps !! id) as [d |] eqn:Hd; simpl; [| reflexivity].
  rewrite updatesFor_reset, decide_True by eauto. reflexivity.
Qed.

Lemma updateWinner_alter (winner : Player.t) (d : PlayerDoc) (ps : gmap string PlayerDoc) :
  ps !! Player.id winner = Some d ->
  updatePlayerDoc (Player.id winner)
    (applyWrites [Assign F_seasonsWon (default 0 (seasonsWon (Player.data winner)) + 1)]) ps
  = Some (alter (setNum F_seasonsWon (default 0 (seasonsWon (Player.data winner)) + 1))
                (Player.id winner) ps).
Proof.
  intros Hd. rewrite (updatePlayerDoc_Some _ _ _ _ Hd). f_equal.
  apply map_eq. intros k. rewrite lookup_alter.
  destruct (decide (Player.id winner = k)) as [<- | Hne].
  - rewrite lookup_insert_eq, Hd. reflexivity.
  - rewrite lookup_insert_ne by exact Hne. reflexivity.
Qed.

(** The closure performs its four steps in order and stops at the first
    rejected call: what is persisted is the first [closureProgress]
    effects. *)
Lemma closeSeason_progress (faults : FaultPlan) (winner : Player.t)
    (currentSeason : Z) (db : Store) :
  try_catch (App.closeSeason faults winner currentSeason) db =
    applyEffects (take (closureProgress faults winner db)
                       (closureEffects winner currentSeason)) db.
Proof.
  unfold try_catch, App.closeSeason, attempt_bind, closureProgress.
  unfold App.addSeasonRecord, App.updateWinner, App.getPlayers, App.resetScores,
    App.updateCurrentSeason, guarded.
  destruct (faults AddSeasonRecord); [reflexivity |].
  destruct (faults UpdateWinner); [reflexivity |]. simpl.
  destruct (players db !! Player.id winner) as [d |] eqn:Hd; simpl.
  2: { rewrite (updatePlayerDoc_None _ _ _ Hd). reflexivity. }
  rewrite (updateWinner_alter _ _ _ Hd).
  destruct (faults GetPlayers); [reflexivity |].
  destruct (faults CommitBatch); [reflexivity |]. simpl.
  rewrite commitUpdates_reset.
  destruct (faults UpdateConfig); [reflexivity |]. simpl.
  clear Hd. destruct db as [ps ms hs [cfg |]]; reflexivity.
Qed.

End SeasonClosure.

Section SeasonClosureClaims.

Lemma closureProgress_le (faults : FaultPlan) (winner : Player.t) (db : Store) :
  (closureProgress faults winner db <= 4)%nat.
Proof.
  unfold closureProgress.
  repeat match goal with |- context [if ?b then _ else _] => destruct b end; lia.
Qed.

Lemma handleCloseSeason_progress (hasDb : bool) (faults : FaultPlan)
    (playerList : list Player.t) (currentSeason : Z) (db : Store) :
  App.handleCloseSeason hasDb faults playerList currentSeason db =
    match App.seasonWinner playerList with
    | Some winner =>
        applyEffects
          (take (if hasDb then closureProgress faults winner db else 0%nat)
                (closureEffects winner currentSeason)) db
    | None => db
    end.
Proof.
  unfold App.handleCloseSeason.
  pose proof (seasonWinner_top playerList) as Htop.
  destruct (App.seasonWinner playerList) as [winner |].
  - destruct hasDb; simpl; [| reflexivity].
    case_bool_decide as Hlen; [| apply closeSeason_progress].
    destruct playerList; [| discriminate Hlen]. destruct Htop as [Hin _]. inversion Hin.
  - destruct (negb hasDb || _); reflexivity.
Qed.

(** C2 as the specification states it fails.  With Anna at 1520, Bert and
    Dirk at 1500 and Cleo at 1480 in season 1, a closure in which the
    update of the winner's title counter is rejected leaves the season
    record written and nothing else: neither all four effects nor
    none. *)
Lemma closeSeason_not_all_or_nothing :
  let db' := App.handleCloseSeason true (Sample.failAt UpdateWinner) Sample.roster 1 Sample.db in
  let closed := App.handleCloseSeason true noFaults Sample.roster 1 Sample.db in
  ~ (db' = Sample.db \/ db' = closed) /\
  seasonHistory db' = [{| seasonNumber := 1; winnerName := "Anna Arndt"; winnerId := "p1" |}] /\
  players db' = players Sample.db /\
  config db' = Some 1 /\
  seasonHistory closed = seasonHistory db' /\
  config closed = Some 2.
Proof.
  split.
  - intros [H | H].
    + apply (f_equal seasonHistory) in H. vm_compute in H. discriminate H.
    + apply (f_equal config) in H. vm_compute in H. discriminate H.
  - repeat split; reflexivity.
Qed.

(** C2, amended.  The closure applies its four effects in the order
    season record, title counter, rating reset, season counter, each by
    a call of its own, and stops at the first rejected call: the
    database it leaves shows the effects of the calls before that one
    and no other.  So the season counter is not changed without the
    season record being written, and no rating is changed without it;
    the record can be written without the later effects. *)
Theorem closeSeason_stops_at_first_failure (hasDb : bool) (faults : FaultPlan)
    (playerList : list Player.t) (currentSeason : Z) (db : Store) :
  let db' := App.handleCloseSeason hasDb faults playerList currentSeason db in
  match App.seasonWinner playerList with
  | None => db' = db
  | Some winner =>
      let r := closureRecord winner currentSeason in
      (exists k, (k <= 4)%nat /\
         db' = applyEffects (take k (closureEffects winner currentSeason)) db) /\
      (hasDb = true ->
       db' = applyEffects (take (closureProgress faults winner db)
                                (closureEffects winner currentSeason)) db) /\
      (config db' <> config db -> seasonHistory db' = seasonHistory db ++ [r]) /\
      ((exists id d d', players db !! id = Some d /\ players db' !! id = Some d' /\
                        score d' <> score d) ->
       seasonHistory db' = seasonHistory db ++ [r]) /\
      (seasonHistory db' = seasonHistory db \/ seasonHistory db' = seasonHistory db ++ [r])
  end.
Proof.
  intros db'. unfold db'. rewrite handleCloseSeason_progress.
  destruct (App.seasonWinner playerList) as [winner |]; [| reflexivity].
  set (r := closureRecord winner currentSeason).
  set (k := if hasDb then closureProgress faults winner db else 0%nat).
  assert (Hk : (k <= 4)%nat)
    by (unfold k; destruct hasDb; [apply closureProgress_le | lia]).
  split; [exists k; auto |].
  split; [intros ->; reflexivity |].
  clearbody k.
  destruct k as [| [| k]]; simpl.
  - split; [congruence |]. split; [| auto].
    intros (id & d & d' & Hd & Hd' & Hne). congruence.
  - split; [congruence |]. split; [| auto].
    intros (id & d & d' & Hd & Hd' & Hne). congruence.
  - assert (Hh : seasonHistory
               (applyEffects (take k [withRatingsReset; withSeasonCounter currentSeason])
                  (withTitle winner (withSeasonRecord (closureRecord winner currentSeason) db)))
             = seasonHistory db ++ [r]).
    { destruct k as [| [| k]]; [reflexivity | reflexivity |].
      destruct k; reflexivity. }
    unfold applyEffects in Hh |- *. rewrite Hh. auto.
Qed.

(** A closure whose last call is rejected: everything but the season
    counter is persisted, the season record among it. *)
Lemma closeSeason_stops_at_first_failure_witness :
  let db' := App.handleCloseSeason true (Sample.failAt UpdateConfig) Sample.roster 1 Sample.db in
  score <$> players Sample.db !! "p3" = Some 1480 /\
  score <$> players db' !! "p3" = Some 1500 /\
  config db' = Some 1 /\
  seasonHistory db' =
    seasonHistory Sample.db ++ [closureRecord Sample.anna 1].
Proof.
  intros db'. do 3 (split; [reflexivity |]).
  pose proof (closeSeason_stops_at_first_failure true (Sample.failAt UpdateConfig)
                Sample.roster 1 Sample.db) as H.
  change (App.seasonWinner Sample.roster) with (Some Sample.anna) in H.
  destruct H as (_ & H & _).
  fold db' in H. rewrite (H eq_refl). reflexivity.
Defined.

End SeasonClosureClaims.

Section SeasonClosureSuccess.

(** A player list written into an empty collection mirrors it. *)
Lemma collection_inSync (l : list Player.t) (ms : list MatchRecord.t)
    (hs : list SeasonRecord) (cfg : option Z) :
  NoDup (map Player.id l) ->
  App.inSync l {| players := Sample.collection l; matches := ms;
                  seasonHistory := hs; config := cfg |}.
Proof.
  intros Hnodup. split; [exact Hnodup |]. intros id d. simpl.
  unfold Sample.collection.
  rewrite <- elem_of_list_to_map.
  - rewrite list_elem_of_fmap. split.
    + intros Hin. eexists. split; [| exact Hin]. reflexivity.
    + intros ([id' d'] & [= -> ->] & Hin). exact Hin.
  - rewrite <- list_fmap_compose. exact Hnodup.
Qed.

(** C8, amended.  A closure takes winner, title and season number from
    the state of the app - the player list and [currentSeason] - not
    from the store.  For a non-empty player list the winner is the
    first of the ranking of that list, one of its players and rated at
    least as high as each of them.  If no call is rejected and the two
    documents that are updated exist, the closure leaves: every player
    document with rating 1500; the winner's document with the title
    counter of the winner's entry in the list plus 1 (absent counted as
    0), every other title counter and every other field unchanged; no
    document added or removed; one new season record with
    [currentSeason] and the winner's id and name; the stored season
    counter at [currentSeason + 1], but at 2 when [currentSeason] is 0;
    the match records as they were.  If the list mirrors the
    collection, the winner's entry is the stored document - so the
    stored title counter is raised by 1 - and no stored document is
    rated higher. *)
Theorem closeSeason_success (playerList : list Player.t) (currentSeason : Z) (db : Store) :
  playerList <> [] ->
  exists winner,
    App.seasonWinner playerList = Some winner /\
    winner ∈ playerList /\
    (forall p, p ∈ playerList -> score (Player.data p) <= score (Player.data winner)) /\
    let db' := App.handleCloseSeason true noFaults playerList currentSeason db in
    (is_Some (players db !! Player.id winner) -> is_Some (config db) ->
     (forall id d, players db !! id = Some d ->
        players db' !! id =
          Some {| firstName := firstName d; lastName := lastName d;
                  country := country d; img := img d;
                  score := 1500;
                  gamesWon := gamesWon d; gamesLost := gamesLost d;
                  gamesAsStriker := gamesAsStriker d;
                  gamesAsDefender := gamesAsDefender d;
                  totalGames := totalGames d;
                  goalsAsStriker := goalsAsStriker d;
                  goalsAsDefender := goalsAsDefender d;
                  shutoutWins := shutoutWins d;
                  totalPlaytime := totalPlaytime d;
                  seasonsWon := if bool_decide (id = Player.id winner)
                                then Some (default 0 (seasonsWon (Player.data winner)) + 1)
                                else seasonsWon d |}) /\
     (forall id, players db !! id = None -> players db' !! id = None) /\
     seasonHistory db' =
       seasonHistory db ++
         [{| seasonNumber := currentSeason;
             winnerName := (firstName (Player.data winner) ++ " "
                            ++ lastName (Player.data winner))%string;
             winnerId := Player.id winner |}] /\
     config db' = Some (if currentSeason =? 0 then 2 else currentSeason + 1) /\
     matches db' = matches db) /\
    (App.inSync playerList db ->
     players db !! Player.id winner = Some (Player.data winner) /\
     forall id d, players db !! id = Some d -> score d <= score (Player.data winner)).
Proof.
  intros Hne.
  pose proof (seasonWinner_top playerList) as Htop.
  pose proof (handleCloseSeason_progress true noFaults playerList currentSeason db) as Hrun.
  destruct (App.seasonWinner playerList) as [winner |]; [| contradiction].
  destruct Htop as [Hin Hmax].
  exists winner. split; [reflexivity |]. split; [exact Hin |]. split; [exact Hmax |].
  intros db'. split.
  - intros [dw Hdoc] [cfg Hcfg].
    assert (Hk : closureProgress noFaults winner db = 4%nat).
    { unfold closureProgress. simpl. rewrite Hdoc, Hcfg. reflexivity. }
    rewrite Hk in Hrun. simpl in Hrun. subst db'. rewrite Hrun.
    unfold applyEffects. simpl.
    split; [| split; [| split; [reflexivity | split; [| reflexivity]]]].
    + intros id d Hd. rewrite lookup_fmap, lookup_alter.
      destruct (decide (Player.id winner = id)) as [<- | Hother].
      * rewrite Hd. simpl. rewrite bool_decide_eq_true_2 by reflexivity. reflexivity.
      * rewrite Hd. simpl. rewrite bool_decide_eq_false_2 by congruence. reflexivity.
    + intros id Hd. rewrite lookup_fmap, lookup_alter.
      destruct (decide (Player.id winner = id)) as [<- | Hother]; rewrite Hd; reflexivity.
    + destruct (Z.eqb_spec currentSeason 0); reflexivity.
  - intros [_ Hsync]. split.
    + apply Hsync. destruct winner. exact Hin.
    + intros id d Hd. apply Hsync in Hd. apply (Hmax _ Hd).
Qed.

(** The closure of season 1 over the sample roster: Anna, at 1520, wins. *)
Lemma closeSeason_success_witness :
  let db' := App.handleCloseSeason true noFaults Sample.roster 1 Sample.db in
  exists winner,
    winner ∈ Sample.roster /\
    (forall p, p ∈ Sample.roster -> score (Player.data p) <= score (Player.data winner)) /\
    config db' = Some 2.
Proof.
  destruct (closeSeason_success Sample.roster 1 Sample.db) as (w & Hw & Hin & Hmax & H & _).
  - discriminate.
  - exists w. split; [exact Hin |]. split; [exact Hmax |].
    assert (Hanna : Some w = Some Sample.anna) by (rewrite <- Hw; reflexivity).
    injection Hanna as ->.
    apply H; eexists; reflexivity.
Defined.

(** C8 as the specification states it fails at season 0.  With the
    season counter at 0 in the store and in the app, the player list
    mirroring the collection and no call rejected, the closure runs to
    its end - the season record is written with number 0, Anna gets a
    first title, every rating is 1500 - and the season counter is 2: it
    has increased by 2, not by 1. *)
Lemma closeSeason_season_zero_advances_by_two :
  let db0 := {| players := Sample.collection Sample.roster; matches := [];
                seasonHistory := []; config := Some 0 |} in
  let db' := App.handleCloseSeason true noFaults Sample.roster 0 db0 in
  App.inSync Sample.roster db0 /\
  closureProgress noFaults Sample.anna db0 = 4%nat /\
  seasonHistory db' = [{| seasonNumber := 0; winnerName := "Anna Arndt"; winnerId := "p1" |}] /\
  seasonsWon <$> players db' !! "p1" = Some (Some 1) /\
  score <$> players db' !! "p3" = Some 1500 /\
  config db0 = Some 0 /\
  config db' = Some 2 /\
  config db' <> Some (0 + 1).
Proof.
  intros db0 db'. split.
  - apply collection_inSync. apply (bool_decide_unpack _). vm_compute. exact I.
  - do 6 (split; [reflexivity |]). vm_compute. discriminate.
Qed.

(** The title is assigned, not incremented: closing twice from the same
    state of the app, before the listeners have brought the first
    closure's writes back, gives Anna the title count 1 both times,
    writes two records for season 1 and leaves the counter at 2. *)
Example closeSeason_twice_from_same_state :
  let once := App.handleCloseSeason true noFaults Sample.roster 1 Sample.db in
  let twice := App.handleCloseSeason true noFaults Sample.roster 1 once in
  seasonsWon <$> players once !! "p1" = Some (Some 1) /\
  seasonsWon <$> players twice !! "p1" = Some (Some 1) /\
  map seasonNumber (seasonHistory twice) = [1; 1] /\
  config twice = Some 2.
Proof. intros once twice. do 3 (split; [reflexivity |]). reflexivity. Qed.

End SeasonClosureSuccess.

(* ================================================================= *)
(** ** The rating ledger *)
(* ================================================================= *)

Section Ledger.

Lemma NoDup_four {A} (a b c d : A) :
  NoDup [a; b; c; d] -> a <> b /\ a <> c /\ a <> d /\ b <> c /\ b <> d /\ c <> d.
Proof.
  intros H.
  apply NoDup_cons in H as [Ha H]. apply NoDup_cons in H as [Hb H].
  apply NoDup_cons in H as [Hc _].
  repeat split; intros ->; first [apply Ha | apply Hb | apply Hc]; set_solver.
Qed.

(** With four different ids, each document gets the update of its slot. *)
Lemma updatesFor_four (i0 i1 i2 i3 : string) (w0 w1 w2 w3 : list Write) (d : PlayerDoc) :
  NoDup [i0; i1; i2; i3] ->
  let us := [(i0, w0); (i1, w1); (i2, w2); (i3, w3)] in
  updatesFor i0 us d = applyWrites w0 d /\
  updatesFor i1 us d = applyWrites w1 d /\
  updatesFor i2 us d = applyWrites w2 d /\
  updatesFor i3 us d = applyWrites w3 d /\
  (forall id, id ∉ [i0; i1; i2; i3] -> updatesFor id us d = d).
Proof.
  intros (H01 & H02 & H03 & H12 & H13 & H23)%NoDup_four us.
  unfold us, updatesFor. simpl.
  repeat split;
    [.. | intros id Hid; repeat (apply not_elem_of_cons in Hid as [? Hid])];
    repeat (case_decide; try congruence).
Qed.

(** The transaction commits when the four documents exist and the call
    is not rejected. *)
Lemma handleGameEnd_commit (faults : FaultPlan) (call : GameEnd.t) (db : Store)
    (d0 d1 d2 d3 : PlayerDoc) :
  players db !! Player.id (Team.striker (Teams.team1 (GameEnd.teams call))) = Some d0 ->
  players db !! Player.id (Team.defender (Teams.team1 (GameEnd.teams call))) = Some d1 ->
  players db !! Player.id (Team.striker (Teams.team2 (GameEnd.teams call))) = Some d2 ->
  players db !! Player.id (Team.defender (Teams.team2 (GameEnd.teams call))) = Some d3 ->
  faults RunMatchTransaction = false ->
  exists ps',
    commitUpdates (App.matchUpdates call d0 d1 d2 d3) (players db) = Some ps' /\
    App.handleGameEnd true faults call db =
      {| players := ps'; matches := matches db ++ [App.matchRecord call];
         seasonHistory := seasonHistory db; config := config db |}.
Proof.
  intros H0 H1 H2 H3 Hf.
  destruct (commitUpdates_present (App.matchUpdates call d0 d1 d2 d3) (players db))
    as [ps' Hps'].
  { unfold App.matchUpdates. repeat constructor; simpl; eauto. }
  exists ps'. split; [exact Hps' |].
  unfold App.handleGameEnd, try_catch, guarded, App.matchTransaction. simpl.
  rewrite Hf, H0, H1, H2, H3. simpl. rewrite Hps'. reflexivity.
Qed.

(** Whatever happens, the handler either leaves the database alone or
    commits the four updates and the match record. *)
Lemma handleGameEnd_cases (hasDb : bool) (faults : FaultPlan) (call : GameEnd.t)
    (db : Store) :
  App.handleGameEnd hasDb faults call db = db \/
  exists d0 d1 d2 d3 ps',
    commitUpdates (App.matchUpdates call d0 d1 d2 d3) (players db) = Some ps' /\
    App.handleGameEnd hasDb faults call db =
      {| players := ps'; matches := matches db ++ [App.matchRecord call];
         seasonHistory := seasonHistory db; config := config db |}.
Proof.
  unfold App.handleGameEnd, try_catch, guarded, App.matchTransaction.
  destruct hasDb; simpl; [| left; reflexivity].
  destruct (faults RunMatchTransaction); [left; reflexivity |].
  destruct (players db !! Player.id (Team.striker (Teams.team1 (GameEnd.teams call))))
    as [d0 |]; simpl; [| left; reflexivity].
  destruct (players db !! Player.id (Team.defender (Teams.team1 (GameEnd.teams call))))
    as [d1 |]; simpl; [| left; reflexivity].
  destruct (players db !! Player.id (Team.striker (Teams.team2 (GameEnd.teams call))))
    as [d2 |]; simpl; [| left; reflexivity].
  destruct (players db !! Player.id (Team.defender (Teams.team2 (GameEnd.teams call))))
    as [d3 |]; simpl; [| left; reflexivity].
  destruct (commitUpdates _ _) as [ps' |] eqn:Hps'; simpl; [| left; reflexivity].
  right. exists d0, d1, d2, d3, ps'. split; [exact Hps' | reflexivity].
Qed.

Lemma goalsByPlayer_ids (log log' : list Goal.t) :
  map (fun g => Player.id (Goal.player g)) log
    = map (fun g => Player.id (Goal.player g)) log' ->
  App.goalsByPlayer log = App.goalsByPlayer log'.
Proof.
  unfold App.goalsByPlayer. generalize (∅ : gmap string Z).
  revert log'. induction log as [| g log IH]; intros [| g' log'] acc H;
    try discriminate H; [reflexivity |].
  simpl in H. injection H as Hid Hrest. simpl. rewrite Hid. apply IH, Hrest.
Qed.

Lemma matchUpdates_sameMatch (c c' : GameEnd.t) (d0 d1 d2 d3 : PlayerDoc) :
  sameMatch c c' -> App.matchUpdates c d0 d1 d2 d3 = App.matchUpdates c' d0 d1 d2 d3.
Proof.
  intros (Hw & Hs & Hd & H0 & H1 & H2 & H3 & Hlog).
  unfold App.matchUpdates.
  rewrite Hw, Hs, Hd, H0, H1, H2, H3, (goalsByPlayer_ids _ _ Hlog). reflexivity.
Qed.

End Ledger.

Section LedgerClaims.

#[local] Arguments updatesFor : simpl never.
#[local] Arguments applyWrites : simpl never.
#[local] Arguments App.applyStats : simpl never.

(** C4.  When the transaction of [handleGameEnd] commits (four different
    participants whose documents exist, call not rejected), the rating
    written for each participant is the rating of its document as read
    in the transaction plus [winDelta] (winning team) or minus
    [loseDelta] (other team), where the deltas are [computeScoreChange]
    of the two team averages of the ratings as read in the transaction.
    The ratings inside the player objects of the summary play no part:
    any summary of the same match leaves the same player documents. *)
Theorem commit_uses_fresh_ratings (faults : FaultPlan) (call call' : GameEnd.t)
    (db : Store) (d0 d1 d2 d3 : PlayerDoc) :
  let id0 := Player.id (Team.striker (Teams.team1 (GameEnd.teams call))) in
  let id1 := Player.id (Team.defender (Teams.team1 (GameEnd.teams call))) in
  let id2 := Player.id (Team.striker (Teams.team2 (GameEnd.teams call))) in
  let id3 := Player.id (Team.defender (Teams.team2 (GameEnd.teams call))) in
  let team1Won := bool_decide (GameEnd.winner call = Some Team_1) in
  let team2Won := bool_decide (GameEnd.winner call = Some Team_2) in
  let isShutout :=
    (if team1Won then Score.team2 (GameEnd.score call)
     else Score.team1 (GameEnd.score call)) =? 0 in
  let avg1 := (inject_Z (score d0 + score d1) / 2)%Q in
  let avg2 := (inject_Z (score d2 + score d3) / 2)%Q in
  let change :=
    if team1Won then computeScoreChange avg1 avg2 isShutout
    else computeScoreChange avg2 avg1 isShutout in
  let delta1 := if team1Won then winDelta change else - loseDelta change in
  let delta2 := if team2Won then winDelta change else - loseDelta change in
  let db' := App.handleGameEnd true faults call db in
  NoDup [id0; id1; id2; id3] ->
  players db !! id0 = Some d0 -> players db !! id1 = Some d1 ->
  players db !! id2 = Some d2 -> players db !! id3 = Some d3 ->
  faults RunMatchTransaction = false ->
  sameMatch call call' ->
  score <$> players db' !! id0 = Some (score d0 + delta1) /\
  score <$> players db' !! id1 = Some (score d1 + delta1) /\
  score <$> players db' !! id2 = Some (score d2 + delta2) /\
  score <$> players db' !! id3 = Some (score d3 + delta2) /\
  players (App.handleGameEnd true faults call' db) = players db'.
Proof.
  intros id0 id1 id2 id3 team1Won team2Won isShutout avg1 avg2 change delta1 delta2 db'
    Hnodup H0 H1 H2 H3 Hf Hsame.
  destruct (handleGameEnd_commit faults call db d0 d1 d2 d3 H0 H1 H2 H3 Hf)
    as (ps' & Hps' & Hrun).
  assert (Hrun' : players (App.handleGameEnd true faults call' db) = ps').
  { destruct Hsame as (Hw & Hs & Hd & E0 & E1 & E2 & E3 & Hlog).
    fold id0 in E0. fold id1 in E1. fold id2 in E2. fold id3 in E3.
    destruct (handleGameEnd_commit faults call' db d0 d1 d2 d3) as (ps'' & Hps'' & ->);
      try congruence.
    rewrite <- (matchUpdates_sameMatch call call') in Hps''
      by (unfold sameMatch; auto 10).
    simpl. congruence. }
  unfold db'. rewrite Hrun, Hrun'. simpl.
  rewrite !(commitUpdates_lookup _ _ _ Hps').
  fold id0 id1 id2 id3. rewrite H0, H1, H2, H3. simpl.
  unfold App.matchUpdates. cbv zeta.
  match goal with
  | |- context [updatesFor _ [(?i0, ?w0); (?i1, ?w1); (?i2, ?w2); (?i3, ?w3)]] =>
      pose proof (updatesFor_four i0 i1 i2 i3 w0 w1 w2 w3) as Hfour
  end.
  destruct (Hfour d0 Hnodup) as (E0 & _).
  destruct (Hfour d1 Hnodup) as (_ & E1 & _).
  destruct (Hfour d2 Hnodup) as (_ & _ & E2 & _).
  destruct (Hfour d3 Hnodup) as (_ & _ & _ & E3 & _).
  unfold id0 at 1. unfold id1 at 1. unfold id2 at 1. unfold id3 at 1.
  rewrite E0, E1, E2, E3, !applyStats_effect. simpl.
  unfold delta1, delta2, change, App.average, avg1, avg2, isShutout,
    team1Won, team2Won.
  destruct (bool_decide (GameEnd.winner call = Some Team_1)),
    (bool_decide (GameEnd.winner call = Some Team_2)); simpl; auto.
Qed.

End LedgerClaims.

Section GameCounters.

#[local] Arguments updatesFor : simpl never.
#[local] Arguments applyWrites : simpl never.
#[local] Arguments App.applyStats : simpl never.

Lemma updatesFor_preserves (P : PlayerDoc -> Prop) (id : string)
    (us : list (string * list Write)) :
  Forall (fun u => forall d, P d -> P (applyWrites u.2 d)) us ->
  forall d, P d -> P (updatesFor id us d).
Proof.
  unfold updatesFor. induction 1 as [| u us Hu _ IH]; intros d Hd; simpl; [exact Hd |].
  apply IH. case_decide; auto.
Qed.

(** Every update object of [applyStats] adds one game and one win or
    one loss. *)
Lemma applyStats_counters (wd ld : Z) (tally : gmap string Z) (dur : Z) (sh : bool)
    (pid : string) (didWin : bool) (pos : Position) (d : PlayerDoc) :
  gameCounters (applyWrites (App.applyStats wd ld tally dur sh pid didWin pos) d) =
    (totalGames d + 1,
     gamesWon d + (if didWin then 1 else 0),
     gamesLost d + (if didWin then 0 else 1)).
Proof. rewrite applyStats_effect. reflexivity. Qed.

Lemma matchUpdates_consistent (call : GameEnd.t) (d0 d1 d2 d3 : PlayerDoc) :
  Forall (fun u => forall d, totalGames d = gamesWon d + gamesLost d ->
            totalGames (applyWrites u.2 d)
              = gamesWon (applyWrites u.2 d) + gamesLost (applyWrites u.2 d))
         (App.matchUpdates call d0 d1 d2 d3).
Proof.
  unfold App.matchUpdates. cbv zeta.
  repeat first [apply Forall_nil_2 | apply Forall_cons_2]; intros d Hd; cbn [snd];
    rewrite !applyStats_effect; cbn [totalGames gamesWon gamesLost];
    destruct (bool_decide _); lia.
Qed.

Lemma applyEffects_counters (fs : list (Store -> Store)) :
  Forall (fun f => forall db id,
            gameCounters <$> players (f db) !! id = gameCounters <$> players db !! id) fs ->
  forall db id,
    gameCounters <$> players (applyEffects fs db) !! id = gameCounters <$> players db !! id.
Proof.
  unfold applyEffects. induction 1 as [| f fs Hf _ IH]; intros db id; simpl; [reflexivity |].
  rewrite IH. apply Hf.
Qed.

(** The effects of a closure leave the game counters of every document
    as they are. *)
Lemma closureEffects_counters (winner : Player.t) (currentSeason : Z) (k : nat)
    (db : Store) (id : string) :
  gameCounters <$> players (applyEffects (take k (closureEffects winner currentSeason)) db) !! id
    = gameCounters <$> players db !! id.
Proof.
  apply applyEffects_counters, Forall_take.
  unfold closureEffects.
  repeat first [apply Forall_nil_2 | apply Forall_cons_2]; clear; intros db id;
    unfold withSeasonCounter, withRatingsReset, withTitle, withSeasonRecord, setPlayers;
    cbn [players]; rewrite ?lookup_fmap, ?lookup_alter;
    try case_decide; subst; destruct (players db !! _); reflexivity.
Qed.

(** What an operation other than the end of a game does to the document
    with a given id: nothing; a change that keeps the game counters;
    its removal; or its creation with all three counters 0. *)
Lemma exec_other_counters {rt : Runtime} (hasDb : bool) (faults : FaultPlan) (op : App.Op)
    (db : Store) (id : string) :
  (forall call, op <> App.OpGameEnd call) ->
  let db' := App.exec hasDb faults op db in
  (gameCounters <$> players db' !! id = gameCounters <$> players db !! id) \/
  players db' !! id = None \/
  (exists newId playerData d',
     op = App.OpAddPlayer newId playerData /\ id = newId /\
     players db' !! id = Some d' /\ gameCounters d' = (0, 0, 0)).
Proof.
  intros Hop. destruct op as [newId form | pid form | pid | call | playerList cs]; simpl.
  - unfold App.handleAddPlayer, try_catch, guarded.
    destruct hasDb; simpl; [| left; reflexivity].
    destruct (faults AddPlayer); simpl; [left; reflexivity |].
    destruct (decide (newId = id)) as [-> | Hne].
    + right. right. eexists _, _, _. split; [reflexivity |]. split; [reflexivity |].
      rewrite lookup_insert_eq. split; reflexivity.
    + left. rewrite lookup_insert_ne by exact Hne. reflexivity.
  - unfold App.handleUpdatePlayer, try_catch, guarded, updatePlayerDoc.
    destruct hasDb; simpl; [| left; reflexivity].
    destruct (faults UpdatePlayer); simpl; [left; reflexivity |].
    destruct (players db !! pid) as [d |] eqn:Hd; simpl; [| left; reflexivity].
    left. destruct (decide (pid = id)) as [-> | Hne].
    + rewrite lookup_insert_eq, Hd. reflexivity.
    + rewrite lookup_insert_ne by exact Hne. reflexivity.
  - unfold App.handleDeletePlayer, try_catch, guarded.
    destruct hasDb; simpl; [| left; reflexivity].
    destruct (faults DeletePlayer); simpl; [left; reflexivity |].
    destruct (decide (pid = id)) as [-> | Hne].
    + right. left. apply lookup_delete_eq.
    + left. rewrite lookup_delete_ne by exact Hne. reflexivity.
  - destruct (Hop call eq_refl).
  - left. rewrite handleCloseSeason_progress.
    destruct (App.seasonWinner playerList); [| reflexivity].
    apply closureEffects_counters.
Qed.

End GameCounters.

Section GameCountersClaim.

#[local] Arguments updatesFor : simpl never.
#[local] Arguments applyWrites : simpl never.
#[local] Arguments App.applyStats : simpl never.

(** What a committed game does to the counters of a document. *)
Lemma matchUpdates_counters (call : GameEnd.t) (d0 d1 d2 d3 : PlayerDoc)
    (id : string) (d : PlayerDoc) :
  NoDup (participants call) ->
  let d' := updatesFor id (App.matchUpdates call d0 d1 d2 d3) d in
  if bool_decide (id ∈ participants call)
  then totalGames d' = totalGames d + 1 /\
       (gamesWon d' = gamesWon d + 1 /\ gamesLost d' = gamesLost d \/
        gamesWon d' = gamesWon d /\ gamesLost d' = gamesLost d + 1)
  else d' = d.
Proof.
  intros Hnodup. unfold App.matchUpdates, participants in *. cbv zeta.
  match goal with
  | |- context [updatesFor _ [(?i0, ?w0); (?i1, ?w1); (?i2, ?w2); (?i3, ?w3)]] =>
      destruct (updatesFor_four i0 i1 i2 i3 w0 w1 w2 w3 d Hnodup)
        as (E0 & E1 & E2 & E3 & Eother);
      destruct (decide (id ∈ [i0; i1; i2; i3])) as [Hin | Hnin];
      [ rewrite bool_decide_eq_true_2 by exact Hin
      | rewrite bool_decide_eq_false_2 by exact Hnin; apply Eother, Hnin ]
  end.
  apply elem_of_cons in Hin as [-> | Hin]; [rewrite E0 |].
  2: apply elem_of_cons in Hin as [-> | Hin]; [rewrite E1 |].
  3: apply elem_of_cons in Hin as [-> | Hin]; [rewrite E2 |].
  4: apply elem_of_cons in Hin as [-> | Hin]; [rewrite E3 | inversion Hin].
  all: clear E0 E1 E2 E3 Eother.
  all: rewrite applyStats_effect; cbn [totalGames gamesWon gamesLost].
  all: match goal with |- context [if ?b then _ else _] => destruct b end; lia.
Qed.

(** C9.  (1) If [totalGames = gamesWon + gamesLost] holds for every
    player document of a database, as it does when there is none, it
    holds for every player document of every database the core produces
    from it.  (2) A committed game with four different participants
    adds 1 to [totalGames] of each participant and 1 to exactly one of
    its [gamesWon] and [gamesLost], and leaves every other document as
    it is.  (3) No other operation changes the three counters of an
    existing document.  (4) A new document has all three at 0. *)
Theorem game_counters_invariant {rt : Runtime} :
  (forall db0 db,
     (forall id d, players db0 !! id = Some d -> totalGames d = gamesWon d + gamesLost d) ->
     App.reachable db0 db ->
     forall id d, players db !! id = Some d -> totalGames d = gamesWon d + gamesLost d) /\
  (forall faults call db,
     NoDup (participants call) ->
     (forall id, id ∈ participants call -> is_Some (players db !! id)) ->
     faults RunMatchTransaction = false ->
     forall id d, players db !! id = Some d ->
       exists d', players (App.handleGameEnd true faults call db) !! id = Some d' /\
         if bool_decide (id ∈ participants call)
         then totalGames d' = totalGames d + 1 /\
              (gamesWon d' = gamesWon d + 1 /\ gamesLost d' = gamesLost d \/
               gamesWon d' = gamesWon d /\ gamesLost d' = gamesLost d + 1)
         else d' = d) /\
  (forall hasDb faults op db,
     (forall call, op <> App.OpGameEnd call) ->
     (forall newId playerData, op = App.OpAddPlayer newId playerData ->
                               players db !! newId = None) ->
     forall id d d', players db !! id = Some d ->
       players (App.exec hasDb faults op db) !! id = Some d' ->
       gameCounters d' = gameCounters d) /\
  (forall faults newId playerData db,
     faults AddPlayer = false ->
     gameCounters <$> players (App.handleAddPlayer true faults newId playerData db) !! newId
       = Some (0, 0, 0)).
Proof.
  split; [| split; [| split]].
  - intros db0 db H0. induction 1 as [| hasDb faults op db Hr IH]; [exact H0 |].
    intros id d' Hd'.
    assert (Hother : (forall call, op <> App.OpGameEnd call) ->
                     totalGames d' = gamesWon d' + gamesLost d').
    { intros Hop.
      destruct (exec_other_counters hasDb faults op db id Hop)
        as [Hsame | [Hnone | (? & ? & d'' & _ & _ & Hnew & Hzero)]].
      - rewrite Hd' in Hsame. destruct (players db !! id) as [d |] eqn:Hd;
          [| discriminate Hsame].
        injection Hsame as Ht Hw Hl. specialize (IH id d Hd). lia.
      - congruence.
      - assert (d'' = d') as -> by congruence.
        injection Hzero as -> -> ->. reflexivity. }
    destruct op as [newId form | pid form | pid | call | playerList cs];
      try (apply Hother; intros c; discriminate).
    clear Hother.
    simpl in Hd'.
    destruct (handleGameEnd_cases hasDb faults call db)
      as [Hsame | (d0 & d1 & d2 & d3 & ps' & Hps' & Hrun)].
    + rewrite Hsame in Hd'. eauto.
    + rewrite Hrun in Hd'. cbn [players] in Hd'.
      rewrite (commitUpdates_lookup _ _ _ Hps') in Hd'.
      destruct (players db !! id) as [d |] eqn:Hd; [| discriminate Hd'].
      injection Hd' as <-.
      apply (updatesFor_preserves
               (fun d => totalGames d = gamesWon d + gamesLost d));
        [apply matchUpdates_consistent | eauto].
  - intros faults call db Hnodup Hpresent Hf id d Hd.
    destruct (Hpresent (Player.id (Team.striker (Teams.team1 (GameEnd.teams call)))))
      as [d0 H0]; [unfold participants; set_solver |].
    destruct (Hpresent (Player.id (Team.defender (Teams.team1 (GameEnd.teams call)))))
      as [d1 H1]; [unfold participants; set_solver |].
    destruct (Hpresent (Player.id (Team.striker (Teams.team2 (GameEnd.teams call)))))
      as [d2 H2]; [unfold participants; set_solver |].
    destruct (Hpresent (Player.id (Team.defender (Teams.team2 (GameEnd.teams call)))))
      as [d3 H3]; [unfold participants; set_solver |].
    destruct (handleGameEnd_commit faults call db d0 d1 d2 d3 H0 H1 H2 H3 Hf)
      as (ps' & Hps' & ->).
    cbn [players]. rewrite (commitUpdates_lookup _ _ _ Hps'), Hd.
    eexists. split; [reflexivity |].
    apply matchUpdates_counters, Hnodup.
  - intros hasDb faults op db Hop Hfresh id d d' Hd Hd'.
    destruct (exec_other_counters hasDb faults op db id Hop)
      as [Hsame | [Hnone | (newId & form & ? & -> & -> & _)]].
    + rewrite Hd, Hd' in Hsame. simpl in Hsame. congruence.
    + congruence.
    + rewrite (Hfresh newId form eq_refl) in Hd. discriminate Hd.
  - intros faults newId form db Hf.
    unfold App.handleAddPlayer, try_catch, guarded. simpl. rewrite Hf. simpl.
    rewrite lookup_insert_eq. reflexivity.
Qed.

End GameCountersClaim.

Section GoalAttribution.

#[local] Arguments updatesFor : simpl never.
#[local] Arguments applyWrites : simpl never.
#[local] Arguments App.applyStats : simpl never.

(** The tally of [handleGameEnd] counts the goals of a player whatever
    the position recorded with them. *)
Lemma goalsByPlayer_count (log : list Goal.t) (pid : string) :
  pid <> "" ->
  default 0 (App.goalsByPlayer log !! pid) = goalsBy pid log.
Proof.
  intros Hpid. unfold App.goalsByPlayer, goalsBy.
  assert (Hgen : forall acc : gmap string Z,
    default 0 (foldl (fun acc g =>
                        let id := Player.id (Goal.player g) in
                        if bool_decide (id = "") then acc
                        else <[id := default 0 (acc !! id) + 1]> acc) acc log !! pid)
    = default 0 (acc !! pid)
      + Z.of_nat (length (filter (fun g => Player.id (Goal.player g) = pid) log))).
  { induction log as [| g log IH]; intros acc; simpl; [lia |].
    rewrite IH, filter_cons. clear IH.
    destruct (decide (Player.id (Goal.player g) = pid)) as [-> | Hne].
    - rewrite bool_decide_eq_false_2 by exact Hpid.
      rewrite lookup_insert_eq. simpl. lia.
    - case_bool_decide; [lia |]. rewrite lookup_insert_ne by exact Hne. lia. }
  rewrite Hgen, lookup_empty. simpl. lia.
Qed.

Lemma goalsBy_positions (pid : string) (log : list Goal.t) :
  goalsBy pid log = goalsAs pid striker log + goalsAs pid defender log.
Proof.
  unfold goalsBy, goalsAs. induction log as [| g log IH]; [reflexivity |].
  rewrite !filter_cons.
  destruct (decide (Player.id (Goal.player g) = pid)) as [Hid | Hid].
  - destruct (Goal.position g) eqn:Hpos.
    + rewrite decide_True by auto. rewrite decide_False by (intros [_ ?]; discriminate).
      simpl length. lia.
    + rewrite decide_False by (intros [_ ?]; discriminate). rewrite decide_True by auto.
      simpl length. lia.
  - rewrite !decide_False by (intros [? _]; contradiction). exact IH.
Qed.

(** What the ledger writer does with the goals of a participant: a
    committed game adds all goals of the player who ends the match as
    a team's striker to his [goalsAsStriker], and all goals of the
    player who ends it as defender to his [goalsAsDefender], whatever
    position the goal-log entries record. *)
Lemma commit_credits_final_position (faults : FaultPlan) (call : GameEnd.t) (db : Store)
    (d0 d1 d2 d3 : PlayerDoc) :
  let id0 := Player.id (Team.striker (Teams.team1 (GameEnd.teams call))) in
  let id1 := Player.id (Team.defender (Teams.team1 (GameEnd.teams call))) in
  let id2 := Player.id (Team.striker (Teams.team2 (GameEnd.teams call))) in
  let id3 := Player.id (Team.defender (Teams.team2 (GameEnd.teams call))) in
  let log := GameEnd.goalHistory call in
  let db' := App.handleGameEnd true faults call db in
  let goalCounters := fun d => (goalsAsStriker d, goalsAsDefender d) in
  NoDup [id0; id1; id2; id3] -> "" ∉ [id0; id1; id2; id3] ->
  players db !! id0 = Some d0 -> players db !! id1 = Some d1 ->
  players db !! id2 = Some d2 -> players db !! id3 = Some d3 ->
  faults RunMatchTransaction = false ->
  goalCounters <$> players db' !! id0
    = Some (goalsAsStriker d0 + goalsBy id0 log, goalsAsDefender d0) /\
  goalCounters <$> players db' !! id1
    = Some (goalsAsStriker d1, goalsAsDefender d1 + goalsBy id1 log) /\
  goalCounters <$> players db' !! id2
    = Some (goalsAsStriker d2 + goalsBy id2 log, goalsAsDefender d2) /\
  goalCounters <$> players db' !! id3
    = Some (goalsAsStriker d3, goalsAsDefender d3 + goalsBy id3 log).
Proof.
  intros id0 id1 id2 id3 log db' goalCounters Hnodup Hids H0 H1 H2 H3 Hf.
  destruct (handleGameEnd_commit faults call db d0 d1 d2 d3 H0 H1 H2 H3 Hf)
    as (ps' & Hps' & Hrun).
  unfold db'. rewrite Hrun. cbn [players].
  rewrite !(commitUpdates_lookup _ _ _ Hps').
  fold id0 id1 id2 id3. rewrite H0, H1, H2, H3. simpl.
  unfold App.matchUpdates. cbv zeta.
  match goal with
  | |- context [updatesFor _ [(?i0, ?w0); (?i1, ?w1); (?i2, ?w2); (?i3, ?w3)]] =>
      pose proof (updatesFor_four i0 i1 i2 i3 w0 w1 w2 w3) as Hfour
  end.
  destruct (Hfour d0 Hnodup) as (E0 & _).
  destruct (Hfour d1 Hnodup) as (_ & E1 & _).
  destruct (Hfour d2 Hnodup) as (_ & _ & E2 & _).
  destruct (Hfour d3 Hnodup) as (_ & _ & _ & E3 & _).
  unfold id0 at 1. unfold id1 at 1. unfold id2 at 1. unfold id3 at 1.
  rewrite E0, E1, E2, E3, !applyStats_effect.
  unfold goalCounters. cbn [goalsAsStriker goalsAsDefender].
  fold id0 id1 id2 id3 log.
  rewrite !goalsByPlayer_count
    by (intros Heq; apply Hids; rewrite <- Heq; unfold id0, id1, id2, id3;
        repeat first [left; reflexivity | right]).
  rewrite !Z.add_0_r. auto.
Qed.

(** C1 at a concrete match.  Anna scores once as striker of team 1, team
    1 swaps positions, Anna scores once as defender, Bert scores four
    times; team 1 wins 6:0 and the result is confirmed and committed.
    The goal log holds one goal of Anna as striker and one as defender,
    the match record stores them so, and Anna's [goalsAsStriker] stays
    0 while her [goalsAsDefender] becomes 2. *)
Theorem swap_goals_credited_to_final_position :
  let st := Sample.clicks Sample.swapMatch Sample.start in
  let call := Sample.summary 60000 st in
  let db' := App.handleGameEnd true noFaults call Sample.db in
  GameScreen.click 60000 GameScreen.Confirm st = (st, Some (Normal call)) /\
  GameScreen.score st = {| Score.team1 := 6; Score.team2 := 0 |} /\
  goalsAs "p1" striker (GameEnd.goalHistory call) = 1 /\
  goalsAs "p1" defender (GameEnd.goalHistory call) = 1 /\
  (fun d => (goalsAsStriker d, goalsAsDefender d)) <$> players Sample.db !! "p1"
    = Some (0, 0) /\
  (fun d => (goalsAsStriker d, goalsAsDefender d)) <$> players db' !! "p1"
    = Some (0, 2) /\
  (fun r => take 2 (map (fun g => (MatchRecord.playerId g, MatchRecord.position g))
                        (MatchRecord.goals r))) <$> last (matches db')
    = Some [("p1", striker); ("p1", defender)].
Proof. intros st call db'. do 6 (split; [reflexivity |]). reflexivity. Qed.

End GoalAttribution.

Section LedgerWitnesses.

(** The 6:3 match of the sample players, committed after Anna's stored
    rating has risen from the 1520 that the screens still hold to 1900:
    the averages are 1700 and 1490, the delta is 5, Anna ends at 1905. *)
Lemma commit_uses_fresh_ratings_witness :
  let call := Sample.summary 90000 (GameScreen.run Sample.start Sample.sixThree) in
  score (Player.data (Team.striker (Teams.team1 (GameEnd.teams call)))) = 1520 /\
  score <$> players Sample.laterDb !! "p1" = Some 1900 /\
  score <$> players (App.handleGameEnd true noFaults call Sample.laterDb) !! "p1"
    = Some 1905.
Proof.
  intros call. split; [reflexivity |]. split; [reflexivity |].
  destruct (commit_uses_fresh_ratings noFaults call call Sample.laterDb
              (Sample.doc "Anna" "Arndt" 1900) (Player.data Sample.bert)
              (Player.data Sample.cleo) (Player.data Sample.dirk)) as (H & _).
  - apply (bool_decide_unpack _). vm_compute. exact I.
  - reflexivity.
  - reflexivity.
  - reflexivity.
  - reflexivity.
  - reflexivity.
  - unfold sameMatch. do 7 (split; [reflexivity |]). reflexivity.
  - exact H.
Defined.

(** The same match committed on the sample database: Anna has one game,
    won. *)
Lemma game_counters_invariant_witness :
  let call := Sample.summary 90000 (GameScreen.run Sample.start Sample.sixThree) in
  exists d',
    players (App.handleGameEnd true noFaults call Sample.db) !! "p1" = Some d' /\
    totalGames d' = 1 /\ gamesWon d' + gamesLost d' = 1.
Proof.
  intros call.
  destruct (game_counters_invariant (rt := Sample.runtime)) as (_ & Hcommit & _).
  destruct (Hcommit noFaults call Sample.db) with (id := "p1") (d := Player.data Sample.anna)
    as (d' & Hd' & Hc).
  - apply (bool_decide_unpack _). vm_compute. exact I.
  - intros id Hin. change (participants call) with ["p1"; "p2"; "p3"; "p4"] in Hin.
    repeat (apply elem_of_cons in Hin as [-> | Hin]; [eexists; reflexivity |]).
    inversion Hin.
  - reflexivity.
  - reflexivity.
  - exists d'. split; [exact Hd' |].
    rewrite bool_decide_eq_true_2 in Hc by (left; reflexivity).
    change (totalGames (Player.data Sample.anna)) with 0 in Hc.
    change (gamesWon (Player.data Sample.anna)) with 0 in Hc.
    change (gamesLost (Player.data Sample.anna)) with 0 in Hc.
    lia.
Defined.

End LedgerWitnesses.

(* ================================================================= *)
(** ** Further properties of the rating formula *)
(* ================================================================= *)

Section RatingFormulaMore.

(** X1.  With [min <= max], [clamp] returns a value between them, and
    its argument if that lies between them; with [max < min] it returns
    [min] whatever the argument. *)
Theorem clamp_range (n lo hi : Z) :
  (lo <= hi -> lo <= clamp n lo hi <= hi /\ (lo <= n <= hi -> clamp n lo hi = n)) /\
  (hi < lo -> clamp n lo hi = lo).
Proof. unfold clamp. split; intros; [split |]; lia. Qed.

Lemma clamp_range_witness :
  1 <= clamp 37 1 20 <= 20 /\ clamp 37 20 1 = 20.
Proof.
  destruct (clamp_range 37 1 20) as (H & _).
  destruct (clamp_range 37 20 1) as (_ & H').
  split; [apply H; lia | apply H'; lia].
Defined.

Lemma Math_round_mono (x y : Q) : (x <= y)%Q -> Math_round x <= Math_round y.
Proof. intros H. unfold Math_round. apply Qfloor_resp_le. lra. Qed.

(** X2.  The deltas grow with the rating lead of the losing side: if the
    loser's average exceeds the winner's by at least as much in a second
    match as in a first, neither delta of the second match is smaller. *)
Theorem computeScoreChange_monotone (r1 r2 r1' r2' : Q) (s : bool) :
  (r2 - r1 <= r2' - r1')%Q ->
  loseDelta (computeScoreChange r1 r2 s) <= loseDelta (computeScoreChange r1' r2' s) /\
  winDelta (computeScoreChange r1 r2 s) <= winDelta (computeScoreChange r1' r2' s).
Proof.
  intros H. unfold computeScoreChange. simpl.
  assert (Hr : Math_round (10 + (r2 - r1) / 40) <= Math_round (10 + (r2' - r1') / 40)).
  { apply Math_round_mono. unfold Qdiv. change (/ 40)%Q with (1 # 40)%Q. lra. }
  unfold clamp. destruct s; lia.
Qed.

Lemma computeScoreChange_monotone_witness :
  loseDelta (computeScoreChange 1500 1400 false)
    <= loseDelta (computeScoreChange 1500 1600 false).
Proof. apply (computeScoreChange_monotone 1500 1400 1500 1600 false). lra. Defined.

(** X3.  Where the formula saturates: the loser's delta is 1 exactly when
    the winner's average exceeds the loser's by more than 340, and 20
    exactly when the loser's average exceeds the winner's by 380 or
    more; the winner's delta is the loser's plus 5 in a shutout and
    equal to it otherwise, so it lies between 1 and 25. *)
Theorem computeScoreChange_saturation (r1 r2 : Q) (s : bool) :
  let c := computeScoreChange r1 r2 s in
  (loseDelta c = 1 <-> (r2 - r1 < -340)%Q) /\
  (loseDelta c = 20 <-> (380 <= r2 - r1)%Q) /\
  winDelta c - loseDelta c = (if s then 5 else 0) /\
  1 <= winDelta c <= 25.
Proof.
  intros c. unfold c, computeScoreChange. simpl.
  pose proof (Math_round_nearest (10 + (r2 - r1) / 40)) as [Hlo Hhi].
  set (n := Math_round (10 + (r2 - r1) / 40)) in *.
  unfold Qdiv in Hlo, Hhi. change (/ 40)%Q with (1 # 40)%Q in Hlo, Hhi.
  assert (Hle1 : n <= 1 <-> (r2 - r1 < -340)%Q).
  { split.
    - intros Hn. rewrite Zle_Qle in Hn. change (inject_Z 1) with 1%Q in Hn. lra.
    - intros Hd. apply Z.lt_succ_r. rewrite Zlt_Qlt.
      change (inject_Z (Z.succ 1)) with 2%Q. lra. }
  assert (Hge20 : 20 <= n <-> (380 <= r2 - r1)%Q).
  { split.
    - intros Hn. rewrite Zle_Qle in Hn. change (inject_Z 20) with 20%Q in Hn. lra.
    - intros Hd. apply Z.lt_pred_le. rewrite Zlt_Qlt.
      change (inject_Z (Z.pred 20)) with 19%Q. lra. }
  unfold clamp.
  split; [rewrite <- Hle1; lia |].
  split; [rewrite <- Hge20; lia |].
  destruct s; lia.
Qed.

End RatingFormulaMore.

(* ================================================================= *)
(** ** Further properties of the live match *)
(* ================================================================= *)

Section MatchSessionMore.
Import GameScreen.

Local Abbreviation declared s1 s2 w :=
  (match w with
   | None => if (winningScoreFor s1 s2 <=? s1) || (winningScoreFor s1 s2 <=? s2)
             then Some (if s2 <? s1 then Team_1 else Team_2) else None
   | Some l => if (s1 <? winningScoreFor s1 s2) && (s2 <? winningScoreFor s1 s2)
               then None else Some l
   end).

Ltac cases_arith :=
  unfold winningScoreFor in *;
  repeat match goal with
    | H : context [Z.eqb ?a ?b] |- _ => destruct (Z.eqb_spec a b); simpl in H
    | |- context [Z.eqb ?a ?b] => destruct (Z.eqb_spec a b); simpl
    | H : context [Z.leb ?a ?b] |- _ => destruct (Z.leb_spec a b); simpl in H
    | |- context [Z.leb ?a ?b] => destruct (Z.leb_spec a b); simpl
    | H : context [Z.ltb ?a ?b] |- _ => destruct (Z.ltb_spec a b); simpl in H
    | |- context [Z.ltb ?a ?b] => destruct (Z.ltb_spec a b); simpl
    end;
  simpl in *; repeat split;
  try reflexivity; try congruence; try lia; try (exfalso; lia).

Lemma reachable_facts (t1 t2 : Selection.t) (now : Z) (acts : list Action) :
  let st := run (init t1 t2 now) acts in
  winner st = declared (Score.team1 (score st)) (Score.team2 (score st)) (winner st) /\
  0 <= Score.team1 (score st) /\ 0 <= Score.team2 (score st).
Proof.
  intros st.
  pose proof (reachable_settled t1 t2 now st (run_reachable _ _)) as Hrest.
  pose proof (winnerEffect_winner st) as Hw. rewrite Hrest in Hw.
  split; [exact Hw |].
  pose proof (score_tally (init t1 t2 now) st) as Ht.
  split.
  - rewrite (Ht ltac:(intros []; reflexivity) (run_reachable _ _) TeamKey.team1 : Score.team1 (score st) = _).
    apply goalsOf_nonneg.
  - rewrite (Ht ltac:(intros []; reflexivity) (run_reachable _ _) TeamKey.team2 : Score.team2 (score st) = _).
    apply goalsOf_nonneg.
Qed.

(** X4.  In every state of a session a winner is declared exactly when
    one of the scores has reached the threshold of the current score;
    and while no winner is declared both scores are between 0 and 5. *)
Theorem winner_iff_threshold (t1 t2 : Selection.t) (now : Z) (acts : list Action) :
  let st := run (init t1 t2 now) acts in
  let s1 := Score.team1 (score st) in
  let s2 := Score.team2 (score st) in
  (winner st = None <-> s1 < winningScore st /\ s2 < winningScore st) /\
  (winner st = None -> 0 <= s1 <= 5 /\ 0 <= s2 <= 5).
Proof.
  intros st s1 s2.
  destruct (reachable_facts t1 t2 now acts) as (Hw & H1 & H2).
  fold st in Hw, H1, H2. fold s1 s2 in Hw, H1, H2. unfold winningScore. fold s1 s2.
  destruct (winner st) as [l |]; split; try split; try intros; try discriminate;
    cases_arith.
Qed.

Lemma winner_iff_threshold_witness :
  let st := run Sample.start Sample.fiveThree in
  winner st = None /\ 0 <= Score.team1 (score st) <= 5.
Proof.
  intros st. split; [reflexivity |].
  destruct (winner_iff_threshold
              {| Selection.forward := Sample.anna; Selection.defender := Sample.bert |}
              {| Selection.forward := Sample.cleo; Selection.defender := Sample.dirk |}
              0 Sample.fiveThree) as (_ & H).
  apply H. reflexivity.
Defined.

Lemma step_goal_fields (st : State) (player : Player.t) (position : Position) :
  let k := if bool_decide (Player.id player = Player.id (Team.striker (team1 st)))
              || bool_decide (Player.id player = Player.id (Team.defender (team1 st)))
           then TeamKey.team1 else TeamKey.team2 in
  let st' := step st (RecordGoal player position) in
  score st' = Score.set k (Score.get k (score st) + 1) (score st) /\
  goalHistory st' = goalHistory st ++
    [{| Goal.player := player; Goal.position := position; Goal.teamKey := k |}] /\
  team1 st' = team1 st /\ team2 st' = team2 st /\
  isSwapped st' = isSwapped st /\ startTime st' = startTime st /\
  winner st' = declared (Score.team1 (score st')) (Score.team2 (score st')) (winner st).
Proof.
  intros k st'. unfold st'. simpl. rewrite settle_winnerEffect.
  destruct (winnerEffect_frame (handleGoal player position st))
    as (Hs & Hg & H1 & H2 & Hsw & Ht).
  rewrite Hs, Hg, H1, H2, Hsw, Ht.
  do 6 (split; [reflexivity |]).
  rewrite winnerEffect_winner. reflexivity.
Qed.

(** X5.  Every match is decided at six goals.  While no winner is
    declared, a recorded goal raises one score by 1, and afterwards team
    1 is declared exactly if its score is 6, team 2 exactly if its score
    is 6, and the other team then has at most 5; in particular the goal
    that follows 5:5 declares its scorer's team at 6:5, so the threshold
    of 7 never decides a match. *)
Theorem match_decided_at_six (t1 t2 : Selection.t) (now : Z) (acts : list Action)
    (player : Player.t) (position : Position) :
  let st := run (init t1 t2 now) acts in
  let st' := step st (RecordGoal player position) in
  let s1 := Score.team1 (score st') in
  let s2 := Score.team2 (score st') in
  winner st = None ->
  (winner st' = Some Team_1 <-> s1 = 6) /\
  (winner st' = Some Team_2 <-> s2 = 6) /\
  (winner st' = Some Team_1 -> s2 <= 5) /\
  (winner st' = Some Team_2 -> s1 <= 5) /\
  (Score.team1 (score st) = 5 -> Score.team2 (score st) = 5 -> winner st' <> None) /\
  s1 + s2 = Score.team1 (score st) + Score.team2 (score st) + 1.
Proof.
  intros st st' s1 s2 Hnone.
  destruct (reachable_facts t1 t2 now acts) as (Hw & H1 & H2). fold st in Hw, H1, H2.
  destruct (step_goal_fields st player position) as (Hs & _ & _ & _ & _ & _ & Hw').
  set (k := if bool_decide (Player.id player = Player.id (Team.striker (team1 st)))
               || bool_decide (Player.id player = Player.id (Team.defender (team1 st)))
            then TeamKey.team1 else TeamKey.team2) in *.
  fold st' in Hs, Hw'. fold s1 s2 in Hw'.
  rewrite Hnone in Hw, Hw'. rewrite Hw'.
  assert (Hscore : (s1 = Score.team1 (score st) + 1 /\ s2 = Score.team2 (score st)) \/
                   (s1 = Score.team1 (score st) /\ s2 = Score.team2 (score st) + 1)).
  { unfold s1, s2. rewrite Hs. destruct k; simpl; [left | right]; split; reflexivity. }
  clear Hw' Hs.
  generalize dependent (Score.team1 (score st)). generalize dependent (Score.team2 (score st)).
  intros b Hb a Ha Hw Hscore.
  destruct Hscore as [[-> ->] | [-> ->]]; cases_arith.
Qed.

Lemma match_decided_at_six_witness :
  let st := run Sample.start Sample.fiveFive in
  winner st = None /\
  winner (step st (RecordGoal Sample.cleo striker)) = Some Team_2.
Proof.
  intros st. split; [reflexivity |].
  destruct (match_decided_at_six
              {| Selection.forward := Sample.anna; Selection.defender := Sample.bert |}
              {| Selection.forward := Sample.cleo; Selection.defender := Sample.dirk |}
              0 Sample.fiveFive Sample.cleo striker) as (_ & H & _).
  - reflexivity.
  - apply H. reflexivity.
Defined.

Lemma Score_set_get_id (k : TeamKey.t) (s : Score.t) (v : Z) :
  Score.set k (Score.get k s) (Score.set k v s) = s.
Proof. destruct k, s; reflexivity. Qed.

(** X6.  Undo is the exact inverse of a recorded goal: in every state of
    a session, recording a goal and undoing it gives back the state as
    it was, the declared winner included. *)
Theorem undo_reverts_goal (t1 t2 : Selection.t) (now : Z) (acts : list Action)
    (player : Player.t) (position : Position) :
  let st := run (init t1 t2 now) acts in
  step (step st (RecordGoal player position)) UndoLastGoal = st.
Proof.
  intros st.
  destruct (reachable_facts t1 t2 now acts) as (Hw & H1 & H2). fold st in Hw, H1, H2.
  destruct (step_goal_fields st player position)
    as (Hs & Hg & Ht1 & Ht2 & Hsw & Htime & Hw').
  set (k := if bool_decide (Player.id player = Player.id (Team.striker (team1 st)))
               || bool_decide (Player.id player = Player.id (Team.defender (team1 st)))
            then TeamKey.team1 else TeamKey.team2) in *.
  set (st' := step st (RecordGoal player position)) in *.
  assert (Hk : 0 <= Score.get k (score st)) by (destruct k; assumption).
  change (step st' UndoLastGoal) with (settle (handleUndoGoal st')).
  rewrite settle_winnerEffect.
  rewrite (handleUndoGoal_snoc st' _ _ Hg). cbn [Goal.teamKey].
  assert (Hback : Score.set k (Z.max 0 (Score.get k (score st') - 1)) (score st') = score st).
  { rewrite Hs, Score_get_set, decide_True by reflexivity.
    replace (Z.max 0 (Score.get k (score st) + 1 - 1)) with (Score.get k (score st)) by lia.
    apply Score_set_get_id. }
  rewrite Hback, Ht1, Ht2, Hsw, Htime.
  match goal with |- winnerEffect ?u = _ =>
    destruct (winnerEffect_frame u) as (Fs & Fg & F1 & F2 & Fsw & Ft);
    pose proof (winnerEffect_winner u) as Fw
  end.
  cbn [score goalHistory team1 team2 isSwapped startTime winner winningScore] in *.
  apply state_eq; try assumption.
  rewrite Fw, Hw'. unfold winningScore. cbn [score].
  assert (Hscore : (Score.team1 (score st') = Score.team1 (score st) + 1 /\
                    Score.team2 (score st') = Score.team2 (score st)) \/
                   (Score.team1 (score st') = Score.team1 (score st) /\
                    Score.team2 (score st') = Score.team2 (score st) + 1)).
  { rewrite Hs. destruct k; simpl; [left | right]; split; reflexivity. }
  clear - Hw H1 H2 Hscore.
  generalize dependent (Score.team1 (score st')). generalize dependent (Score.team2 (score st')).
  generalize dependent (Score.team1 (score st)). generalize dependent (Score.team2 (score st)).
  intros b Hb a Ha Hw b' a' Hscore.
  destruct Hscore as [[-> ->] | [-> ->]]; destruct (winner st) as [l |]; cases_arith.
Qed.

End MatchSessionMore.

Section MatchSessionTeams.
Import GameScreen.

(** X7.  Swapping the positions of a team twice, or the sides twice,
    gives back the state; neither swap touches score, goal log or
    winner; a swap of sides exchanges what is displayed left and right
    and leaves the logical teams as they are. *)
Theorem swaps_are_involutions (st : State) (teamNum : Z) :
  step (step st (SwapPositions teamNum)) (SwapPositions teamNum) = st /\
  step (step st DoSwapSides) DoSwapSides = st /\
  (forall a, a = SwapPositions teamNum \/ a = DoSwapSides ->
     score (step st a) = score st /\ goalHistory (step st a) = goalHistory st /\
     winner (step st a) = winner st) /\
  displayTeam1 (step st DoSwapSides) = displayTeam2 st /\
  displayTeam2 (step st DoSwapSides) = displayTeam1 st /\
  team1 (step st DoSwapSides) = team1 st /\ team2 (step st DoSwapSides) = team2 st.
Proof.
  destruct st as [[a b] [c d] sc log sw w t0]. simpl.
  split; [unfold swapPositions; destruct (teamNum =? 1); reflexivity |].
  split; [unfold setIsSwapped; simpl; rewrite negb_involutive; reflexivity |].
  split.
  - intros a0 [-> | ->]; simpl; [| auto].
    unfold swapPositions. destruct (teamNum =? 1); auto.
  - unfold displayTeam1, displayTeam2. simpl. destruct sw; auto.
Qed.

Lemma swaps_are_involutions_witness :
  score (step Sample.start (SwapPositions 1)) = score Sample.start.
Proof.
  destruct (swaps_are_involutions Sample.start 1) as (_ & _ & H & _).
  apply (H (SwapPositions 1)). left. reflexivity.
Defined.

(** X8.  A goal button credits the team it is displayed for, whichever
    way the sides are swapped: with four different player ids, a click
    on the striker or defender button of a side appends to the goal log
    the player who holds that position in the team displayed on that
    side, with that position and that team's key, and raises that
    team's score, and no other, by 1. *)
Theorem goal_button_credits_own_team (st : State) (now : Z) (left : bool) (pos : Position) :
  NoDup (teamIds st) ->
  let k := sideKey left st in
  let st' := (click now (goalButton left pos) st).1 in
  goalHistory st' = goalHistory st ++
    [{| Goal.player := playerAt pos (teamOf k st); Goal.position := pos;
        Goal.teamKey := k |}] /\
  Score.get k (score st') = Score.get k (score st) + 1 /\
  (forall k', k' <> k -> Score.get k' (score st') = Score.get k' (score st)).
Proof.
  intros (H01 & H02 & H03 & H12 & H13 & H23)%NoDup_four k st'.
  assert (Hclick : st' = step st (RecordGoal (playerAt pos (teamOf k st)) pos)).
  { unfold st', k, click, sideKey, displayTeam1, displayTeam2.
    destruct left, pos, (isSwapped st) eqn:Hsw; simpl;
      unfold displayTeam1, displayTeam2; rewrite Hsw; reflexivity. }
  destruct (step_goal_fields st (playerAt pos (teamOf k st)) pos) as (Hs & Hg & _).
  rewrite <- Hclick in Hs, Hg.
  assert (Hk : (if bool_decide (Player.id (playerAt pos (teamOf k st))
                               = Player.id (Team.striker (team1 st)))
                   || bool_decide (Player.id (playerAt pos (teamOf k st))
                                   = Player.id (Team.defender (team1 st)))
                then TeamKey.team1 else TeamKey.team2) = k).
  { destruct k, pos; simpl;
      repeat (case_bool_decide; simpl; try reflexivity; try congruence). }
  rewrite Hk in Hs, Hg.
  split; [exact Hg |]. rewrite Hs.
  split; [rewrite Score_get_set, decide_True by reflexivity; reflexivity |].
  intros k' Hne. rewrite Score_get_set, decide_False by exact Hne. reflexivity.
Qed.

Lemma goal_button_credits_own_team_witness :
  let st := step Sample.start DoSwapSides in
  goalHistory (click 0 LeftStriker st).1 =
    [{| Goal.player := Sample.cleo; Goal.position := striker;
        Goal.teamKey := TeamKey.team2 |}].
Proof.
  intros st.
  destruct (goal_button_credits_own_team st 0 true striker) as (H & _).
  - apply (bool_decide_unpack _). vm_compute. exact I.
  - exact H.
Defined.

Lemma teamIds_step (st : State) (a : Action) : teamIds (step st a) ≡ₚ teamIds st.
Proof.
  destruct a; simpl.
  - destruct (step_goal_fields st player position) as (_ & _ & H1 & H2 & _).
    unfold teamIds. simpl in H1, H2. rewrite H1, H2. reflexivity.
  - rewrite settle_winnerEffect.
    destruct (winnerEffect_frame (handleUndoGoal st)) as (_ & _ & H1 & H2 & _).
    unfold teamIds. rewrite H1, H2. unfold handleUndoGoal.
    case_bool_decide; [reflexivity |]. destruct (last (goalHistory st)); reflexivity.
  - unfold swapPositions, teamIds. destruct (teamNum =? 1); simpl.
    + apply perm_swap.
    + do 2 apply perm_skip. apply perm_swap.
  - reflexivity.
Qed.

Lemma teamIds_run (st : State) (acts : list Action) : teamIds (run st acts) ≡ₚ teamIds st.
Proof.
  unfold run. induction acts as [| a acts IH] using rev_ind; [reflexivity |].
  rewrite foldl_app. simpl. rewrite teamIds_step. exact IH.
Qed.

(** X9.  A match keeps its four players: whatever goals, undos and swaps
    happen, the participants of the summary that a confirmation hands
    over are the four players the match started with, so they are
    pairwise different if those were. *)
Theorem session_keeps_participants (st0 : State) (acts : list Action) (now : Z) :
  exists call,
    confirmWin now (run st0 acts) = Normal call /\
    participants call ≡ₚ teamIds st0 /\
    (NoDup (teamIds st0) -> NoDup (participants call)).
Proof.
  eexists. split; [reflexivity |].
  assert (Hp : teamIds (run st0 acts) ≡ₚ teamIds st0) by apply teamIds_run.
  split; [exact Hp |]. intros Hnd. unfold participants. simpl.
  change (NoDup (teamIds (run st0 acts))). rewrite Hp. exact Hnd.
Qed.

Lemma session_keeps_participants_witness :
  exists call,
    confirmWin 7 (run Sample.start Sample.sixThree) = Normal call /\
    NoDup (participants call).
Proof.
  destruct (session_keeps_participants Sample.start Sample.sixThree 7) as (call & H & _ & Hnd).
  exists call. split; [exact H |]. apply Hnd.
  apply (bool_decide_unpack _). vm_compute. exact I.
Defined.

End MatchSessionTeams.

(* ================================================================= *)
(** ** The player selection *)
(* ================================================================= *)

Section Selection.
Import PlayerSelectionScreen.

Lemma existsb_holds_false (player : Player.t) (slots : list (option Player.t)) :
  existsb (holds player) slots = false <-> Player.id player ∉ selectedIds slots.
Proof.
  unfold selectedIds. induction slots as [| [q |] slots IH]; simpl.
  - split; [intros _ H; inversion H | reflexivity].
  - rewrite orb_false_iff, IH, not_elem_of_cons, bool_decide_eq_false.
    split; intros [? ?]; split; auto.
  - exact IH.
Qed.

Lemma selectedIds_deselect (player : Player.t) (slots : list (option Player.t)) :
  selectedIds (map (fun p => if holds player p then None else p) slots)
    = filter (fun i => i <> Player.id player) (selectedIds slots).
Proof.
  unfold selectedIds. induction slots as [| [q |] slots IH]; simpl; [reflexivity | |].
  - rewrite filter_cons. case_bool_decide as Hq; simpl.
    + rewrite decide_False by (intros H; apply H; exact Hq). exact IH.
    + rewrite decide_True by exact Hq. simpl. f_equal. exact IH.
  - exact IH.
Qed.

Lemma selectedIds_insert (player : Player.t) (slots : list (option Player.t)) (i : nat) :
  slots !! i = Some None ->
  selectedIds (<[i := Some player]> slots) ≡ₚ Player.id player :: selectedIds slots.
Proof.
  unfold selectedIds. revert i. induction slots as [| s slots IH]; intros [| i] H;
    try discriminate H; simpl in *.
  - injection H as ->. reflexivity.
  - destruct s as [q |]; simpl.
    + rewrite (IH i H). apply perm_swap.
    + apply (IH i H).
Qed.

Lemma handleSelectPlayer_cases (player : Player.t) (slots : list (option Player.t)) :
  (existsb (holds player) slots = true /\
   handleSelectPlayer player slots
     = map (fun p => if holds player p then None else p) slots) \/
  (existsb (holds player) slots = false /\ (None ∉ slots) /\
   handleSelectPlayer player slots = slots) \/
  (existsb (holds player) slots = false /\
   exists i, slots !! i = Some None /\ (forall j, (j < i)%nat -> slots !! j <> Some None) /\
             handleSelectPlayer player slots = <[i := Some player]> slots).
Proof.
  unfold handleSelectPlayer. destruct (existsb (holds player) slots); [left; auto | right].
  destruct (list_find (fun s => s = None) slots) as [[i s] |] eqn:Hfind.
  - right. split; [reflexivity |]. exists i.
    apply list_find_Some in Hfind as (Hi & -> & Hbefore).
    split; [exact Hi |]. split; [| reflexivity].
    intros j Hj Hnone. exact (Hbefore j None Hnone Hj eq_refl).
  - left. split; [reflexivity |]. split; [| reflexivity].
    apply list_find_None in Hfind. intros Hin.
    rewrite Forall_forall in Hfind. exact (Hfind None Hin eq_refl).
Qed.

Lemma handleSelectPlayer_invariant (player : Player.t) (slots : list (option Player.t)) :
  NoDup (selectedIds slots) ->
  length (handleSelectPlayer player slots) = length slots /\
  NoDup (selectedIds (handleSelectPlayer player slots)).
Proof.
  intros Hnd.
  destruct (handleSelectPlayer_cases player slots)
    as [(_ & ->) | [(_ & _ & ->) | (Hnot & i & Hi & _ & ->)]].
  - split; [apply length_map |]. rewrite selectedIds_deselect. apply NoDup_filter, Hnd.
  - auto.
  - split; [apply length_insert |].
    rewrite (selectedIds_insert _ _ _ Hi). apply NoDup_cons. split; [| exact Hnd].
    apply existsb_holds_false, Hnot.
Qed.

Lemma select_invariant (taps : list Player.t) :
  length (select taps) = 4%nat /\ NoDup (selectedIds (select taps)).
Proof.
  unfold select. induction taps as [| p taps IH] using rev_ind.
  - split; [reflexivity | constructor].
  - rewrite foldl_app. simpl. destruct IH as [Hlen Hnd].
    destruct (handleSelectPlayer_invariant p _ Hnd) as [Hlen' Hnd'].
    split; [congruence | exact Hnd'].
Qed.

Lemma start_Some (slots : list (option Player.t)) (t1 t2 : Selection.t) :
  length slots = 4%nat -> start slots = Some (t1, t2) ->
  slots = [Some (Selection.defender t1); Some (Selection.forward t1);
           Some (Selection.forward t2); Some (Selection.defender t2)].
Proof.
  intros Hlen. destruct slots as [| a [| b [| c [| d [| e slots]]]]]; try discriminate Hlen.
  unfold start. destruct (ready _); [| discriminate].
  destruct a, b, c, d; simpl; try discriminate.
  intros [= <- <-]. reflexivity.
Qed.

(** X10.  Whatever cards are tapped in whatever order, there are always
    four slots and no player is in two of them; so when the selection is
    complete and the match is started, it starts with four players of
    pairwise different ids, team 1 from slots 0 (defender) and 1
    (forward), team 2 from slots 2 (forward) and 3 (defender). *)
Theorem selection_is_distinct (taps : list Player.t) :
  let slots := select taps in
  length slots = 4%nat /\
  NoDup (selectedIds slots) /\
  (forall t1 t2 now, start slots = Some (t1, t2) ->
     slots = [Some (Selection.defender t1); Some (Selection.forward t1);
              Some (Selection.forward t2); Some (Selection.defender t2)] /\
     NoDup (teamIds (GameScreen.init t1 t2 now))) /\
  (start slots = None <-> None ∈ slots).
Proof.
  intros slots. destruct (select_invariant taps) as [Hlen Hnd]. fold slots in Hlen, Hnd.
  split; [exact Hlen |]. split; [exact Hnd |]. split.
  - intros t1 t2 now Hstart. pose proof (start_Some _ _ _ Hlen Hstart) as Hslots.
    split; [exact Hslots |]. rewrite Hslots in Hnd. unfold selectedIds in Hnd. simpl in Hnd.
    unfold teamIds. simpl.
    match goal with |- NoDup [?a; ?b; ?c; ?d] =>
      assert (Hp : [a; b; c; d] ≡ₚ [b; a; c; d]) by apply perm_swap
    end.
    rewrite Hp. exact Hnd.
  - destruct slots as [| a [| b [| c [| d [| e rest]]]]]; try discriminate Hlen.
    unfold start, ready. destruct a, b, c, d; simpl;
      (split; [intros H; try discriminate H; set_solver
              | intros H; try reflexivity; exfalso;
                repeat (apply elem_of_cons in H as [H | H]; [discriminate H |]);
                inversion H]).
Qed.

Lemma selection_is_distinct_witness :
  let slots := select [Sample.bert; Sample.anna; Sample.cleo; Sample.dirk] in
  exists t1 t2, start slots = Some (t1, t2) /\ NoDup (teamIds (GameScreen.init t1 t2 0)).
Proof.
  intros slots.
  destruct (selection_is_distinct [Sample.bert; Sample.anna; Sample.cleo; Sample.dirk])
    as (_ & _ & H & _).
  eexists _, _. split; [reflexivity |]. eapply H. reflexivity.
Defined.

(** X11.  A tap on a card toggles the player.  If the player is in a
    slot, the tap empties it and leaves every other slot as it is.  If
    not, the tap puts the player into the first empty slot and leaves
    the others, or changes nothing when no slot is empty; a second tap
    then restores the slots exactly. *)
Theorem select_toggles (player : Player.t) (slots : list (option Player.t)) :
  let slots' := handleSelectPlayer player slots in
  (Player.id player ∈ selectedIds slots ->
     (Player.id player ∉ selectedIds slots') /\
     forall i s, slots !! i = Some s ->
       slots' !! i = Some (if holds player s then None else s)) /\
  (Player.id player ∉ selectedIds slots ->
     (None ∉ slots -> slots' = slots) /\
     (forall i, slots !! i = Some None ->
                (forall j, (j < i)%nat -> slots !! j <> Some None) ->
                slots' = <[i := Some player]> slots) /\
     handleSelectPlayer player slots' = slots).
Proof.
  intros slots'. split.
  - intros Hin.
    destruct (handleSelectPlayer_cases player slots)
      as [(_ & Heq) | [(Hnot & _) | (Hnot & _)]];
      try (apply existsb_holds_false in Hnot; contradiction).
    unfold slots'. rewrite Heq. split.
    + rewrite selectedIds_deselect. intros [Hne _]%list_elem_of_filter. apply Hne. reflexivity.
    + intros i s Hi. rewrite list_lookup_fmap, Hi. reflexivity.
  - intros Hnotin. apply existsb_holds_false in Hnotin as Hex.
    destruct (handleSelectPlayer_cases player slots)
      as [(Hyes & _) | [(_ & Hfull & Heq) | (_ & i & Hi & Hfirst & Heq)]];
      [congruence | |]; unfold slots'; rewrite Heq.
    + split; [reflexivity |]. split.
      * intros j Hj _. exfalso. apply Hfull. eapply list_elem_of_lookup_2, Hj.
      * unfold handleSelectPlayer. rewrite Hex.
        destruct (list_find _ slots) as [[j s] |] eqn:Hfind; [| reflexivity].
        apply list_find_Some in Hfind as (Hj & -> & _).
        exfalso. apply Hfull. eapply list_elem_of_lookup_2, Hj.
    + split; [intros Hfull; exfalso; apply Hfull; eapply list_elem_of_lookup_2, Hi |].
      split.
      * intros j Hj Hjfirst. f_equal.
        destruct (Nat.lt_trichotomy i j) as [Hlt | [-> | Hgt]]; [| reflexivity |].
        -- destruct (Hjfirst i Hlt Hi).
        -- destruct (Hfirst j Hgt Hj).
      * assert (Hlt : (i < length slots)%nat) by (eapply lookup_lt_Some, Hi).
        unfold handleSelectPlayer.
        assert (Hnow : existsb (holds player) (<[i := Some player]> slots) = true).
        { apply not_false_iff_true. intros Hf. apply existsb_holds_false in Hf.
          apply Hf. rewrite (selectedIds_insert _ _ _ Hi). left. }
        rewrite Hnow. apply list_eq. intros j.
        rewrite list_lookup_fmap.
        destruct (decide (i = j)) as [<- | Hne].
        -- rewrite list_lookup_insert_eq by exact Hlt. simpl.
           rewrite bool_decide_eq_true_2 by reflexivity. symmetry. exact Hi.
        -- rewrite list_lookup_insert_ne by exact Hne.
           destruct (slots !! j) as [[q |] |] eqn:Hj; simpl; try reflexivity.
           case_bool_decide as Hq; [| reflexivity].
           exfalso. apply Hnotin. rewrite <- Hq.
           unfold selectedIds. apply list_elem_of_omap. exists (Some q).
           split; [eapply list_elem_of_lookup_2, Hj | reflexivity].
Qed.

Lemma select_toggles_witness :
  handleSelectPlayer Sample.anna (handleSelectPlayer Sample.anna [Some Sample.bert; None; None; None])
    = [Some Sample.bert; None; None; None].
Proof.
  destruct (select_toggles Sample.anna [Some Sample.bert; None; None; None]) as (_ & H).
  apply H. unfold selectedIds. simpl. intros [Hc | Hc]%elem_of_cons; [discriminate Hc | inversion Hc].
Defined.

End Selection.

(* ================================================================= *)
(** ** From the selection to the ledger *)
(* ================================================================= *)

Section SelectionToLedger.

(** X12.  Every summary that the screens can produce has four different
    participants: for a match started from a complete selection, after
    any goals, undos and swaps, the summary handed over by a
    confirmation names four pairwise different player ids. *)
Theorem ui_summary_participants_distinct (taps : list Player.t) (t1 t2 : Selection.t)
    (now now' : Z) (acts : list GameScreen.Action) :
  PlayerSelectionScreen.start (PlayerSelectionScreen.select taps) = Some (t1, t2) ->
  exists call,
    GameScreen.confirmWin now' (GameScreen.run (GameScreen.init t1 t2 now) acts) = Normal call /\
    NoDup (participants call).
Proof.
  intros Hstart. destruct (select_invariant taps) as [Hlen Hnd].
  pose proof (start_Some _ _ _ Hlen Hstart) as Hslots.
  rewrite Hslots in Hnd. unfold selectedIds in Hnd. simpl in Hnd.
  eexists. split; [reflexivity |].
  change (NoDup (teamIds (GameScreen.run (GameScreen.init t1 t2 now) acts))).
  rewrite teamIds_run. unfold teamIds. simpl.
  match goal with |- NoDup [?a; ?b; ?c; ?d] =>
    assert (Hp : [a; b; c; d] ≡ₚ [b; a; c; d]) by apply perm_swap
  end.
  rewrite Hp. exact Hnd.
Qed.

Lemma ui_summary_participants_distinct_witness :
  exists call,
    GameScreen.confirmWin 9
      (GameScreen.run
         (GameScreen.init {| Selection.forward := Sample.anna; Selection.defender := Sample.bert |}
                          {| Selection.forward := Sample.cleo; Selection.defender := Sample.dirk |} 0)
         Sample.sixThree) = Normal call /\
    NoDup (participants call).
Proof.
  apply (ui_summary_participants_distinct
           [Sample.bert; Sample.anna; Sample.cleo; Sample.dirk]).
  reflexivity.
Defined.

End SelectionToLedger.

(* ================================================================= *)
(** ** Further properties of the rating ledger *)
(* ================================================================= *)

Section LedgerMore.

#[local] Arguments updatesFor : simpl never.
#[local] Arguments applyWrites : simpl never.
#[local] Arguments App.applyStats : simpl never.

Lemma updatesFor_notin (id : string) (us : list (string * list Write)) (d : PlayerDoc) :
  id ∉ map fst us -> updatesFor id us d = d.
Proof.
  unfold updatesFor. revert d. induction us as [| u us IH]; intros d Hnotin; simpl;
    [reflexivity |].
  simpl in Hnotin. apply not_elem_of_cons in Hnotin as [Hne Hnotin].
  rewrite decide_False by congruence. apply IH, Hnotin.
Qed.

Lemma matchUpdates_ids (call : GameEnd.t) (d0 d1 d2 d3 : PlayerDoc) :
  map fst (App.matchUpdates call d0 d1 d2 d3) = participants call.
Proof. reflexivity. Qed.

(** X13.  A game end that cannot commit writes nothing: without a
    database handle, with the transaction rejected, or with the document
    of one of the four participants missing, the database is left as it
    was - no player updated, no match record stored. *)
Theorem handleGameEnd_failure_is_noop (hasDb : bool) (faults : FaultPlan)
    (call : GameEnd.t) (db : Store) :
  hasDb = false \/ faults RunMatchTransaction = true \/
  (exists id, id ∈ participants call /\ players db !! id = None) ->
  App.handleGameEnd hasDb faults call db = db.
Proof.
  intros [-> | [Hf | (id & Hin & Hnone)]]; [reflexivity | |].
  - unfold App.handleGameEnd, try_catch, guarded. rewrite Hf. destruct hasDb; reflexivity.
  - destruct (handleGameEnd_cases hasDb faults call db)
      as [H | (d0 & d1 & d2 & d3 & ps' & Hps' & _)]; [exact H |].
    exfalso.
    assert (Hin' : exists u, u ∈ App.matchUpdates call d0 d1 d2 d3 /\ u.1 = id).
    { rewrite <- (matchUpdates_ids call d0 d1 d2 d3) in Hin.
      apply list_elem_of_fmap in Hin as (u & -> & Hu). eauto. }
    destruct Hin' as (u & Hu & <-).
    rewrite (commitUpdates_absent _ _ u Hu Hnone) in Hps'. discriminate Hps'.
Qed.

Lemma handleGameEnd_failure_is_noop_witness :
  App.handleGameEnd true noFaults
    (Sample.summary 90000 (GameScreen.run Sample.start Sample.sixThree))
    (App.handleDeletePlayer true noFaults "p3" Sample.db)
  = App.handleDeletePlayer true noFaults "p3" Sample.db.
Proof.
  apply handleGameEnd_failure_is_noop. right. right. exists "p3".
  split; [| reflexivity].
  right. right. left.
Defined.

Lemma applyStats_profile (wd ld : Z) (tally : gmap string Z) (dur : Z) (sh : bool)
    (pid : string) (didWin : bool) (pos : Position) (d : PlayerDoc) :
  let d' := applyWrites (App.applyStats wd ld tally dur sh pid didWin pos) d in
  firstName d' = firstName d /\ lastName d' = lastName d /\ country d' = country d /\
  img d' = img d /\ seasonsWon d' = seasonsWon d.
Proof. intros d'. unfold d'. rewrite applyStats_effect. auto. Qed.

Lemma matchUpdates_profile (call : GameEnd.t) (d0 d1 d2 d3 : PlayerDoc) (d : PlayerDoc) :
  Forall (fun u => forall d',
            (firstName d' = firstName d /\ lastName d' = lastName d /\
             country d' = country d /\ img d' = img d /\ seasonsWon d' = seasonsWon d) ->
            (firstName (applyWrites u.2 d') = firstName d /\
             lastName (applyWrites u.2 d') = lastName d /\
             country (applyWrites u.2 d') = country d /\
             img (applyWrites u.2 d') = img d /\
             seasonsWon (applyWrites u.2 d') = seasonsWon d))
         (App.matchUpdates call d0 d1 d2 d3).
Proof.
  unfold App.matchUpdates. cbv zeta.
  repeat first [apply Forall_nil_2 | apply Forall_cons_2];
    intros d' (H1 & H2 & H3 & H4 & H5); cbn [snd];
    match goal with
    | |- context [applyWrites (App.applyStats ?wd ?ld ?t ?dur ?sh ?pid ?w ?pos) d'] =>
        destruct (applyStats_profile wd ld t dur sh pid w pos d') as (-> & -> & -> & -> & ->)
    end; auto.
Qed.

(** X14.  What a committed game end leaves besides the statistics: one
    match record more, holding winner, score and duration of the summary
    and one entry per goal of the log, in order, with its index, scorer
    id, position and team key; season history and season counter
    untouched; no player document added or removed; the documents of
    players who did not take part unchanged; and of every document the
    names, country, image and title counter unchanged. *)
Theorem handleGameEnd_commit_frame (faults : FaultPlan) (call : GameEnd.t) (db : Store) :
  (forall id, id ∈ participants call -> is_Some (players db !! id)) ->
  faults RunMatchTransaction = false ->
  let db' := App.handleGameEnd true faults call db in
  (exists r, matches db' = matches db ++ [r] /\
     MatchRecord.winner r = GameEnd.winner call /\
     MatchRecord.score r = GameEnd.score call /\
     MatchRecord.duration r = GameEnd.duration call /\
     length (MatchRecord.goals r) = length (GameEnd.goalHistory call) /\
     forall i g, GameEnd.goalHistory call !! i = Some g ->
       MatchRecord.goals r !! i =
         Some {| MatchRecord.i := i; MatchRecord.playerId := Player.id (Goal.player g);
                 MatchRecord.position := Goal.position g;
                 MatchRecord.teamKey := Goal.teamKey g |}) /\
  seasonHistory db' = seasonHistory db /\ config db' = config db /\
  (forall id, is_Some (players db' !! id) <-> is_Some (players db !! id)) /\
  (forall id, id ∉ participants call -> players db' !! id = players db !! id) /\
  (forall id d d', players db !! id = Some d -> players db' !! id = Some d' ->
     firstName d' = firstName d /\ lastName d' = lastName d /\ country d' = country d /\
     img d' = img d /\ seasonsWon d' = seasonsWon d).
Proof.
  intros Hpresent Hf db'.
  destruct (Hpresent (Player.id (Team.striker (Teams.team1 (GameEnd.teams call)))))
    as [d0 H0]; [unfold participants; set_solver |].
  destruct (Hpresent (Player.id (Team.defender (Teams.team1 (GameEnd.teams call)))))
    as [d1 H1]; [unfold participants; set_solver |].
  destruct (Hpresent (Player.id (Team.striker (Teams.team2 (GameEnd.teams call)))))
    as [d2 H2]; [unfold participants; set_solver |].
  destruct (Hpresent (Player.id (Team.defender (Teams.team2 (GameEnd.teams call)))))
    as [d3 H3]; [unfold participants; set_solver |].
  destruct (handleGameEnd_commit faults call db d0 d1 d2 d3 H0 H1 H2 H3 Hf)
    as (ps' & Hps' & Hrun).
  unfold db'. rewrite Hrun. cbn [players matches seasonHistory config].
  split.
  { exists (App.matchRecord call). split; [reflexivity |].
    unfold App.matchRecord. cbn [MatchRecord.winner MatchRecord.score MatchRecord.duration
                                 MatchRecord.goals].
    do 3 (split; [reflexivity |]).
    split; [apply length_imap |].
    intros i g Hg. rewrite list_lookup_imap, Hg. reflexivity. }
  do 2 (split; [reflexivity |]).
  split.
  { intros id. rewrite (commitUpdates_lookup _ _ _ Hps' id).
    destruct (players db !! id); simpl; split; intros [? ?]; eauto; discriminate. }
  split.
  { intros id Hnotin. rewrite (commitUpdates_lookup _ _ _ Hps' id).
    destruct (players db !! id) as [d |]; simpl; [| reflexivity].
    rewrite updatesFor_notin; [reflexivity |]. rewrite matchUpdates_ids. exact Hnotin. }
  intros id d d' Hd Hd'. rewrite (commitUpdates_lookup _ _ _ Hps' id), Hd in Hd'.
  injection Hd' as <-.
  apply (updatesFor_preserves
           (fun d' => firstName d' = firstName d /\ lastName d' = lastName d /\
                      country d' = country d /\ img d' = img d /\
                      seasonsWon d' = seasonsWon d));
    [apply matchUpdates_profile | auto].
Qed.

Lemma handleGameEnd_commit_frame_witness :
  let call := Sample.summary 90000 (GameScreen.run Sample.start Sample.sixThree) in
  seasonHistory (App.handleGameEnd true noFaults call Sample.db) = seasonHistory Sample.db.
Proof.
  intros call.
  destruct (handleGameEnd_commit_frame noFaults call Sample.db) as (_ & H & _).
  - intros id Hin. change (participants call) with ["p1"; "p2"; "p3"; "p4"] in Hin.
    repeat (apply elem_of_cons in Hin as [-> | Hin]; [eexists; reflexivity |]).
    inversion Hin.
  - reflexivity.
  - exact H.
Defined.

End LedgerMore.

Section LedgerStatistics.

#[local] Arguments updatesFor : simpl never.
#[local] Arguments applyWrites : simpl never.
#[local] Arguments App.applyStats : simpl never.

(** The four documents after a committed game end, each changed by the
    update object of its slot. *)
Lemma commit_slot_docs (faults : FaultPlan) (call : GameEnd.t) (db : Store)
    (d0 d1 d2 d3 : PlayerDoc) :
  let id0 := Player.id (Team.striker (Teams.team1 (GameEnd.teams call))) in
  let id1 := Player.id (Team.defender (Teams.team1 (GameEnd.teams call))) in
  let id2 := Player.id (Team.striker (Teams.team2 (GameEnd.teams call))) in
  let id3 := Player.id (Team.defender (Teams.team2 (GameEnd.teams call))) in
  let team1Won := bool_decide (GameEnd.winner call = Some Team_1) in
  let team2Won := bool_decide (GameEnd.winner call = Some Team_2) in
  let sh := (if team1Won then Score.team2 (GameEnd.score call)
             else Score.team1 (GameEnd.score call)) =? 0 in
  let db' := App.handleGameEnd true faults call db in
  NoDup [id0; id1; id2; id3] ->
  players db !! id0 = Some d0 -> players db !! id1 = Some d1 ->
  players db !! id2 = Some d2 -> players db !! id3 = Some d3 ->
  faults RunMatchTransaction = false ->
  exists wd ld tally,
    wd - ld = (if sh then 5 else 0) /\
    let stats := App.applyStats wd ld tally (GameEnd.duration call) sh in
    players db' !! id0 = Some (applyWrites (stats id0 team1Won striker) d0) /\
    players db' !! id1 = Some (applyWrites (stats id1 team1Won defender) d1) /\
    players db' !! id2 = Some (applyWrites (stats id2 team2Won striker) d2) /\
    players db' !! id3 = Some (applyWrites (stats id3 team2Won defender) d3).
Proof.
  intros id0 id1 id2 id3 team1Won team2Won sh db' Hnodup H0 H1 H2 H3 Hf.
  destruct (handleGameEnd_commit faults call db d0 d1 d2 d3 H0 H1 H2 H3 Hf)
    as (ps' & Hps' & Hrun).
  unfold db'. rewrite Hrun. cbn [players].
  rewrite !(commitUpdates_lookup _ _ _ Hps').
  fold id0 id1 id2 id3. rewrite H0, H1, H2, H3. simpl.
  unfold App.matchUpdates. cbv zeta.
  match goal with
  | |- context [updatesFor _ [(?i0, ?w0); (?i1, ?w1); (?i2, ?w2); (?i3, ?w3)]] =>
      pose proof (updatesFor_four i0 i1 i2 i3 w0 w1 w2 w3) as Hfour
  end.
  destruct (Hfour d0 Hnodup) as (E0 & _).
  destruct (Hfour d1 Hnodup) as (_ & E1 & _).
  destruct (Hfour d2 Hnodup) as (_ & _ & E2 & _).
  destruct (Hfour d3 Hnodup) as (_ & _ & _ & E3 & _).
  unfold id0 at 1. unfold id1 at 1. unfold id2 at 1. unfold id3 at 1.
  rewrite E0, E1, E2, E3. clear Hfour E0 E1 E2 E3.
  eexists _, _, _. split; [| repeat split; reflexivity].
  unfold computeScoreChange. cbn [winDelta loseDelta]. fold team1Won. fold sh.
  destruct sh; lia.
Qed.

(** X15.  A committed game moves rating points from the losing to the
    winning team and creates points only in a shutout: with a declared
    winner and four different participants, the sum of the four stored
    ratings rises by 10 if the losing team scored no goal and is
    unchanged otherwise. *)
Theorem commit_rating_sum (faults : FaultPlan) (call : GameEnd.t) (db : Store)
    (w : WinnerLabel) :
  GameEnd.winner call = Some w ->
  NoDup (participants call) ->
  (forall id, id ∈ participants call -> is_Some (players db !! id)) ->
  faults RunMatchTransaction = false ->
  let loserScore := match w with
                    | Team_1 => Score.team2 (GameEnd.score call)
                    | Team_2 => Score.team1 (GameEnd.score call)
                    end in
  ratingSum (participants call) (players (App.handleGameEnd true faults call db))
    = ratingSum (participants call) (players db) + (if loserScore =? 0 then 10 else 0).
Proof.
  intros Hw Hnodup Hpresent Hf loserScore.
  destruct (Hpresent (Player.id (Team.striker (Teams.team1 (GameEnd.teams call)))))
    as [d0 H0]; [unfold participants; set_solver |].
  destruct (Hpresent (Player.id (Team.defender (Teams.team1 (GameEnd.teams call)))))
    as [d1 H1]; [unfold participants; set_solver |].
  destruct (Hpresent (Player.id (Team.striker (Teams.team2 (GameEnd.teams call)))))
    as [d2 H2]; [unfold participants; set_solver |].
  destruct (Hpresent (Player.id (Team.defender (Teams.team2 (GameEnd.teams call)))))
    as [d3 H3]; [unfold participants; set_solver |].
  destruct (commit_slot_docs faults call db d0 d1 d2 d3 Hnodup H0 H1 H2 H3 Hf)
    as (wd & ld & tally & Hbonus & E0 & E1 & E2 & E3).
  unfold ratingSum, participants. cbn [foldr].
  rewrite E0, E1, E2, E3, H0, H1, H2, H3, !applyStats_effect.
  cbn [fmap option_fmap option_map default score].
  rewrite Hw in *. unfold loserScore. clear E0 E1 E2 E3.
  destruct w; simpl in *; destruct (_ =? 0); lia.
Qed.

Lemma commit_rating_sum_witness :
  let st := Sample.clicks Sample.swapMatch Sample.start in
  let call := Sample.summary 60000 st in
  ratingSum (participants call) (players (App.handleGameEnd true noFaults call Sample.db))
    = ratingSum (participants call) (players Sample.db) + 10.
Proof.
  intros st call.
  apply (commit_rating_sum noFaults call Sample.db Team_1).
  - reflexivity.
  - apply (bool_decide_unpack _). vm_compute. exact I.
  - intros id Hin. change (participants call) with ["p2"; "p1"; "p3"; "p4"] in Hin.
    repeat (apply elem_of_cons in Hin as [-> | Hin]; [eexists; reflexivity |]).
    inversion Hin.
  - reflexivity.
Defined.

(** X16.  The other statistics of a committed game: every participant's
    playtime grows by the duration of the match; the player in a
    team's striker slot at confirmation gets one more game as striker,
    the one in the defender slot one more as defender; and
    [shutoutWins] grows by 1 exactly for the players of the winning team
    of a match in which the other team scored no goal. *)
Theorem commit_roles_and_playtime (faults : FaultPlan) (call : GameEnd.t) (db : Store)
    (d0 d1 d2 d3 : PlayerDoc) :
  let id0 := Player.id (Team.striker (Teams.team1 (GameEnd.teams call))) in
  let id1 := Player.id (Team.defender (Teams.team1 (GameEnd.teams call))) in
  let id2 := Player.id (Team.striker (Teams.team2 (GameEnd.teams call))) in
  let id3 := Player.id (Team.defender (Teams.team2 (GameEnd.teams call))) in
  let team1Won := bool_decide (GameEnd.winner call = Some Team_1) in
  let team2Won := bool_decide (GameEnd.winner call = Some Team_2) in
  let sh := (if team1Won then Score.team2 (GameEnd.score call)
             else Score.team1 (GameEnd.score call)) =? 0 in
  let dur := GameEnd.duration call in
  let db' := App.handleGameEnd true faults call db in
  let roleStats := fun d =>
    (gamesAsStriker d, gamesAsDefender d, totalPlaytime d, shutoutWins d) in
  NoDup [id0; id1; id2; id3] ->
  players db !! id0 = Some d0 -> players db !! id1 = Some d1 ->
  players db !! id2 = Some d2 -> players db !! id3 = Some d3 ->
  faults RunMatchTransaction = false ->
  roleStats <$> players db' !! id0
    = Some (gamesAsStriker d0 + 1, gamesAsDefender d0, totalPlaytime d0 + dur,
            shutoutWins d0 + (if team1Won && sh then 1 else 0)) /\
  roleStats <$> players db' !! id1
    = Some (gamesAsStriker d1, gamesAsDefender d1 + 1, totalPlaytime d1 + dur,
            shutoutWins d1 + (if team1Won && sh then 1 else 0)) /\
  roleStats <$> players db' !! id2
    = Some (gamesAsStriker d2 + 1, gamesAsDefender d2, totalPlaytime d2 + dur,
            shutoutWins d2 + (if team2Won && sh then 1 else 0)) /\
  roleStats <$> players db' !! id3
    = Some (gamesAsStriker d3, gamesAsDefender d3 + 1, totalPlaytime d3 + dur,
            shutoutWins d3 + (if team2Won && sh then 1 else 0)).
Proof.
  intros id0 id1 id2 id3 team1Won team2Won sh dur db' roleStats Hnodup H0 H1 H2 H3 Hf.
  destruct (commit_slot_docs faults call db d0 d1 d2 d3 Hnodup H0 H1 H2 H3 Hf)
    as (wd & ld & tally & _ & E0 & E1 & E2 & E3).
  fold id0 id1 id2 id3 team1Won team2Won sh db' in E0, E1, E2, E3.
  rewrite E0, E1, E2, E3, !applyStats_effect. unfold roleStats.
  cbn [fmap option_fmap option_map gamesAsStriker gamesAsDefender totalPlaytime shutoutWins].
  rewrite !Z.add_0_r. auto.
Qed.

Lemma commit_roles_and_playtime_witness :
  let st := Sample.clicks Sample.swapMatch Sample.start in
  let call := Sample.summary 60000 st in
  (fun d => (gamesAsStriker d, gamesAsDefender d, totalPlaytime d, shutoutWins d))
    <$> players (App.handleGameEnd true noFaults call Sample.db) !! "p1"
  = Some (0, 1, 60000, 1).
Proof.
  intros st call.
  destruct (commit_roles_and_playtime noFaults call Sample.db
              (Player.data Sample.bert) (Player.data Sample.anna)
              (Player.data Sample.cleo) (Player.data Sample.dirk)) as (_ & H & _).
  - apply (bool_decide_unpack _). vm_compute. exact I.
  - reflexivity.
  - reflexivity.
  - reflexivity.
  - reflexivity.
  - reflexivity.
  - exact H.
Defined.

(** The concrete match of C1 again, through the general statement: the
    two goals of Anna, one logged as striker and one as defender, both
    go to [goalsAsDefender]. *)
Lemma commit_credits_final_position_witness :
  let st := Sample.clicks Sample.swapMatch Sample.start in
  let call := Sample.summary 60000 st in
  (fun d => (goalsAsStriker d, goalsAsDefender d))
    <$> players (App.handleGameEnd true noFaults call Sample.db) !! "p1"
  = Some (0, 0 + goalsBy "p1" (GameEnd.goalHistory call)).
Proof.
  intros st call.
  destruct (commit_credits_final_position noFaults call Sample.db
              (Player.data Sample.bert) (Player.data Sample.anna)
              (Player.data Sample.cleo) (Player.data Sample.dirk)) as (_ & H & _).
  - apply (bool_decide_unpack _). vm_compute. exact I.
  - apply (bool_decide_unpack _). vm_compute. exact I.
  - reflexivity.
  - reflexivity.
  - reflexivity.
  - reflexivity.
  - reflexivity.
  - exact H.
Defined.

End LedgerStatistics.

Section LedgerRetry.

#[local] Arguments updatesFor : simpl never.
#[local] Arguments applyWrites : simpl never.
#[local] Arguments App.applyStats : simpl never.

Lemma commit_counts_once (faults : FaultPlan) (call : GameEnd.t) (db : Store) :
  NoDup (participants call) ->
  (forall id, id ∈ participants call -> is_Some (players db !! id)) ->
  faults RunMatchTransaction = false ->
  let db' := App.handleGameEnd true faults call db in
  matches db' = matches db ++ [App.matchRecord call] /\
  forall id, id ∈ participants call ->
    exists d d', players db !! id = Some d /\ players db' !! id = Some d' /\
                 totalGames d' = totalGames d + 1.
Proof.
  intros Hnodup Hpresent Hf db'.
  destruct (Hpresent (Player.id (Team.striker (Teams.team1 (GameEnd.teams call)))))
    as [d0 H0]; [unfold participants; set_solver |].
  destruct (Hpresent (Player.id (Team.defender (Teams.team1 (GameEnd.teams call)))))
    as [d1 H1]; [unfold participants; set_solver |].
  destruct (Hpresent (Player.id (Team.striker (Teams.team2 (GameEnd.teams call)))))
    as [d2 H2]; [unfold participants; set_solver |].
  destruct (Hpresent (Player.id (Team.defender (Teams.team2 (GameEnd.teams call)))))
    as [d3 H3]; [unfold participants; set_solver |].
  destruct (handleGameEnd_commit faults call db d0 d1 d2 d3 H0 H1 H2 H3 Hf)
    as (ps' & Hps' & Hrun).
  unfold db'. rewrite Hrun. cbn [players matches]. split; [reflexivity |].
  intros id Hin. destruct (Hpresent id Hin) as [d Hd].
  exists d, (updatesFor id (App.matchUpdates call d0 d1 d2 d3) d).
  split; [exact Hd |]. split; [rewrite (commitUpdates_lookup _ _ _ Hps' id), Hd; reflexivity |].
  pose proof (matchUpdates_counters call d0 d1 d2 d3 id d Hnodup) as Hc.
  cbv zeta in Hc. rewrite bool_decide_eq_true_2 in Hc by exact Hin. apply Hc.
Qed.

(** X17.  A commit is not idempotent: handing the same summary to the
    ledger writer a second time stores a second match record and counts
    the game a second time for each of the four participants. *)
Theorem commit_twice_counts_twice (faults : FaultPlan) (call : GameEnd.t) (db : Store) :
  NoDup (participants call) ->
  (forall id, id ∈ participants call -> is_Some (players db !! id)) ->
  faults RunMatchTransaction = false ->
  let db2 := App.handleGameEnd true faults call (App.handleGameEnd true faults call db) in
  matches db2 = matches db ++ [App.matchRecord call; App.matchRecord call] /\
  forall id, id ∈ participants call ->
    exists d d2, players db !! id = Some d /\ players db2 !! id = Some d2 /\
                 totalGames d2 = totalGames d + 2.
Proof.
  intros Hnodup Hpresent Hf db2.
  destruct (commit_counts_once faults call db Hnodup Hpresent Hf) as (Hm1 & Hc1).
  assert (Hpresent1 : forall id, id ∈ participants call ->
            is_Some (players (App.handleGameEnd true faults call db) !! id)).
  { intros id Hin. destruct (Hc1 id Hin) as (d & d' & _ & Hd' & _). eauto. }
  destruct (commit_counts_once faults call _ Hnodup Hpresent1 Hf) as (Hm2 & Hc2).
  unfold db2. split.
  - rewrite Hm2, Hm1, <- app_assoc. reflexivity.
  - intros id Hin. destruct (Hc1 id Hin) as (d & d1 & Hd & Hd1 & Ht1).
    destruct (Hc2 id Hin) as (d1' & d2 & Hd1' & Hd2 & Ht2).
    assert (d1' = d1) as -> by congruence.
    exists d, d2. split; [exact Hd |]. split; [exact Hd2 | lia].
Qed.

Lemma commit_twice_counts_twice_witness :
  let call := Sample.summary 90000 (GameScreen.run Sample.start Sample.sixThree) in
  length (matches (App.handleGameEnd true noFaults call
                     (App.handleGameEnd true noFaults call Sample.db))) = 2%nat.
Proof.
  intros call.
  destruct (commit_twice_counts_twice noFaults call Sample.db) as (H & _).
  - apply (bool_decide_unpack _). vm_compute. exact I.
  - intros id Hin. change (participants call) with ["p1"; "p2"; "p3"; "p4"] in Hin.
    repeat (apply elem_of_cons in Hin as [-> | Hin]; [eexists; reflexivity |]).
    inversion Hin.
  - reflexivity.
  - rewrite H. reflexivity.
Defined.

End LedgerRetry.

(* ================================================================= *)
(** ** Managing players *)
(* ================================================================= *)

Section ManagePlayers.

(** X18.  A submitted "new player" form.  If first name, last name or
    country is empty nothing is written.  Otherwise (call not rejected)
    the collection gets one new document under the new id, with the
    names as typed, the country as the runtime's [toUpperCase] returns
    it, an image that is not empty, rating 1500, every counter 0 and no
    title counter; all other documents and collections stay as they
    are. *)
Theorem form_add_creates_player {rt : Runtime} (faults : FaultPlan)
    (ms : ManagePlayersScreen.ModalState)
    (newId : string) (form : PlayerForm.t) (db : Store) :
  ManagePlayersScreen.modalType ms = Some ManagePlayersScreen.modal_add ->
  faults AddPlayer = false ->
  let db' := ManagePlayersScreen.submit true faults ms newId form db in
  (PlayerForm.firstName form = "" \/ PlayerForm.lastName form = "" \/
   PlayerForm.country form = "" -> db' = db) /\
  (PlayerForm.firstName form <> "" -> PlayerForm.lastName form <> "" ->
   PlayerForm.country form <> "" ->
   (exists d, players db' !! newId = Some d /\
      firstName d = PlayerForm.firstName form /\ lastName d = PlayerForm.lastName form /\
      country d = toUpperCase (PlayerForm.country form) /\
      img d <> "" /\
      (PlayerForm.img form <> "" -> img d = PlayerForm.img form) /\
      score d = 1500 /\ seasonsWon d = None /\
      forall f, f <> F_score -> getNum f d = 0) /\
   (forall id, id <> newId -> players db' !! id = players db !! id) /\
   matches db' = matches db /\ seasonHistory db' = seasonHistory db /\
   config db' = config db).
Proof.
  intros Hadd Hf db'. unfold db', ManagePlayersScreen.submit, ManagePlayersScreen.handleSubmit.
  split.
  - intros Hempty.
    assert (Hb : bool_decide (PlayerForm.firstName form = "")
                 || bool_decide (PlayerForm.lastName form = "")
                 || bool_decide (PlayerForm.country form = "") = true).
    { destruct Hempty as [H | [H | H]]; rewrite H;
        rewrite ?orb_true_r; reflexivity. }
    rewrite Hb. reflexivity.
  - intros H1 H2 H3.
    rewrite !bool_decide_eq_false_2 by assumption. simpl.
    unfold ManagePlayersScreen.handleSavePlayer. rewrite Hadd. simpl.
    unfold App.handleAddPlayer, try_catch, guarded. simpl. rewrite Hf. simpl.
    split.
    + eexists. split; [apply lookup_insert_eq |]. simpl.
      do 3 (split; [reflexivity |]).
      split; [case_bool_decide; [discriminate | assumption] |].
      split; [intros Himg; rewrite bool_decide_eq_false_2 by exact Himg; reflexivity |].
      do 2 (split; [reflexivity |]).
      intros [] Hne; try reflexivity. contradiction.
    + split; [intros id Hne; apply lookup_insert_ne; congruence |].
      auto.
Qed.

Lemma form_add_creates_player_witness :
  let form := {| PlayerForm.firstName := "Eva"; PlayerForm.lastName := "Ernst";
                 PlayerForm.country := "at"; PlayerForm.img := "" |} in
  let ms := {| ManagePlayersScreen.modalType := Some ManagePlayersScreen.modal_add;
               ManagePlayersScreen.modalPlayer := None |} in
  exists d, players (ManagePlayersScreen.submit (rt := Sample.runtime)
                       true noFaults ms "p5" form Sample.db) !! "p5"
            = Some d /\ country d = "AT" /\ score d = 1500.
Proof.
  intros form ms.
  destruct (form_add_creates_player (rt := Sample.runtime) noFaults ms "p5" form Sample.db)
    as (_ & H); [reflexivity | reflexivity |].
  destruct H as ((d & Hd & _ & _ & Hc & _ & _ & Hs & _) & _); try discriminate.
  exists d. split; [exact Hd |]. split; [exact Hc | exact Hs].
Defined.

Lemma store_eq (a b : Store) :
  players a = players b -> matches a = matches b ->
  seasonHistory a = seasonHistory b -> config a = config b -> a = b.
Proof. destruct a, b; simpl; intros; subst; reflexivity. Qed.

(** X19.  Adding a player under a fresh id and deleting that id again
    gives back the database; deleting an id that has no document changes
    nothing; and a deletion removes that one document and no other. *)
Theorem add_then_delete {rt : Runtime} (faults : FaultPlan) (newId : string)
    (form : PlayerForm.t) (db : Store) :
  faults AddPlayer = false -> faults DeletePlayer = false ->
  (players db !! newId = None ->
   App.handleDeletePlayer true faults newId (App.handleAddPlayer true faults newId form db) = db /\
   App.handleDeletePlayer true faults newId db = db) /\
  players (App.handleDeletePlayer true faults newId db) !! newId = None /\
  (forall id, id <> newId ->
     players (App.handleDeletePlayer true faults newId db) !! id = players db !! id).
Proof.
  intros Ha Hd.
  unfold App.handleDeletePlayer, App.handleAddPlayer, try_catch, guarded. simpl.
  rewrite Ha, Hd. simpl.
  split; [| split].
  - intros Hfresh. split; apply store_eq; simpl; try reflexivity.
    + apply delete_insert_id, Hfresh.
    + apply delete_id, Hfresh.
  - apply lookup_delete_eq.
  - intros id Hne. apply lookup_delete_ne. congruence.
Qed.

Lemma add_then_delete_witness :
  let form := {| PlayerForm.firstName := "Eva"; PlayerForm.lastName := "Ernst";
                 PlayerForm.country := "at"; PlayerForm.img := "" |} in
  App.handleDeletePlayer true noFaults "p5"
    (App.handleAddPlayer (rt := Sample.runtime) true noFaults "p5" form Sample.db)
    = Sample.db.
Proof.
  intros form.
  destruct (add_then_delete (rt := Sample.runtime) noFaults "p5" form Sample.db) as (H & _);
    [reflexivity | reflexivity |].
  apply H. reflexivity.
Defined.

Ltac unchanged_case :=
  repeat split; intros; try discriminate;
  try match goal with
      | H1 : ?m !! ?i = Some ?a, H2 : ?m !! ?i = Some ?b |- _ =>
          assert (b = a) by congruence; subst
      end;
  try reflexivity; try congruence; try tauto.

(** X20.  An update of a player writes the four form fields as typed
    (the country is not put in upper case here) and nothing else: rating,
    all counters and the title counter of the document stay, and so does
    every other document.  If the id has no document the update is
    rejected and nothing changes.  Updating twice with the same data is
    the same as updating once. *)
Theorem update_keeps_statistics (hasDb : bool) (faults : FaultPlan) (playerId : string)
    (form : PlayerForm.t) (db : Store) :
  let db' := App.handleUpdatePlayer hasDb faults playerId form db in
  (players db !! playerId = None -> db' = db) /\
  (forall d, hasDb = true -> faults UpdatePlayer = false -> players db !! playerId = Some d ->
     exists d', players db' !! playerId = Some d' /\
       firstName d' = PlayerForm.firstName form /\ lastName d' = PlayerForm.lastName form /\
       country d' = PlayerForm.country form /\ img d' = PlayerForm.img form) /\
  (forall id d d', players db !! id = Some d -> players db' !! id = Some d' ->
     (forall f, getNum f d' = getNum f d) /\ seasonsWon d' = seasonsWon d /\
     (id <> playerId -> d' = d)) /\
  (forall id, is_Some (players db' !! id) <-> is_Some (players db !! id)) /\
  App.handleUpdatePlayer hasDb faults playerId form db' = db'.
Proof.
  intros db'. unfold db', App.handleUpdatePlayer, try_catch, guarded, updatePlayerDoc.
  destruct hasDb; simpl.
  2: { unchanged_case. }
  destruct (faults UpdatePlayer) eqn:Hf; simpl.
  { unchanged_case. }
  destruct (players db !! playerId) as [d0 |] eqn:Hd0; simpl.
  2: { unchanged_case. rewrite Hd0. reflexivity. }
  split; [discriminate |].
  split.
  { intros d _ _ [= <-]. eexists. split; [apply lookup_insert_eq |]. auto. }
  split.
  { intros id d d' Hd Hd'. destruct (decide (playerId = id)) as [<- | Hne].
    - rewrite lookup_insert_eq in Hd'. injection Hd' as <-.
      assert (d = d0) as -> by congruence.
      split; [intros []; reflexivity |]. split; [reflexivity |]. intros H. contradiction.
    - rewrite lookup_insert_ne in Hd' by exact Hne.
      assert (d' = d) as -> by congruence. auto. }
  split.
  { intros id. destruct (decide (playerId = id)) as [<- | Hne].
    - rewrite lookup_insert_eq, Hd0. split; eauto.
    - rewrite lookup_insert_ne by exact Hne. reflexivity. }
  rewrite lookup_insert_eq. simpl. apply store_eq; simpl; try reflexivity.
  rewrite insert_insert_eq. reflexivity.
Qed.

Lemma update_keeps_statistics_witness :
  let form := {| PlayerForm.firstName := "Anna"; PlayerForm.lastName := "Adler";
                 PlayerForm.country := "de"; PlayerForm.img := "" |} in
  exists d', players (App.handleUpdatePlayer true noFaults "p1" form Sample.db) !! "p1" = Some d' /\
             country d' = "de".
Proof.
  intros form.
  destruct (update_keeps_statistics true noFaults "p1" form Sample.db) as (_ & H & _).
  destruct (H (Player.data Sample.anna)) as (d' & Hd' & _ & _ & Hc & _);
    [reflexivity | reflexivity | reflexivity |].
  exists d'. split; [exact Hd' | exact Hc].
Defined.

End ManagePlayers.

(* ================================================================= *)
(** ** Strings *)
(* ================================================================= *)

Section Strings.

Lemma hexDigit_code (n : N) :
  (n < 16)%N -> N_of_ascii (hexDigit n) = (if (n <? 10)%N then 48 + n else 55 + n)%N.
Proof.
  intros Hn. unfold hexDigit. apply N_ascii_embedding.
  destruct (N.ltb_spec n 10); lia.
Qed.

Lemma hexDigit_safe (n : N) : (n < 16)%N -> isUnreserved (hexDigit n) = true.
Proof.
  intros Hn. unfold isUnreserved. rewrite (hexDigit_code n Hn).
  destruct (N.ltb_spec n 10) as [Hlt | Hge].
  - rewrite (proj2 (N.leb_le 48 (48 + n))) by lia.
    rewrite (proj2 (N.leb_le (48 + n) 57)) by lia. reflexivity.
  - rewrite (proj2 (N.leb_le 65 (55 + n))) by lia.
    rewrite (proj2 (N.leb_le (55 + n) 90)) by lia. simpl.
    rewrite !orb_true_r. reflexivity.
Qed.

Lemma hexDigit_inj (a b : N) : (a < 16)%N -> (b < 16)%N -> hexDigit a = hexDigit b -> a = b.
Proof.
  intros Ha Hb H. apply (f_equal N_of_ascii) in H.
  rewrite (hexDigit_code a Ha), (hexDigit_code b Hb) in H.
  destruct (N.ltb_spec a 10), (N.ltb_spec b 10); lia.
Qed.

Lemma percent_reserved : isUnreserved "%" = false.
Proof. reflexivity. Qed.

Lemma encodeURIComponent_safe (s : string) :
  Forall (fun c => isUrlSafe c = true) (list_ascii_of_string (encodeURIComponent s)).
Proof.
  induction s as [| c s IH]; simpl; [constructor |].
  destruct (isUnreserved c) eqn:Hc; simpl.
  - constructor; [unfold isUrlSafe; rewrite Hc; reflexivity | exact IH].
  - pose proof (N_ascii_bounded c) as Hb.
    apply Forall_cons_2; [reflexivity |].
    apply Forall_cons_2.
    { unfold isUrlSafe. rewrite hexDigit_safe; [reflexivity |].
      apply N.Div0.div_lt_upper_bound. lia. }
    apply Forall_cons_2; [| exact IH].
    unfold isUrlSafe. rewrite hexDigit_safe; [reflexivity |]. apply N.mod_lt. lia.
Qed.

Lemma encodeURIComponent_inj (s1 : string) :
  forall s2, encodeURIComponent s1 = encodeURIComponent s2 -> s1 = s2.
Proof.
  induction s1 as [| c1 s1 IH]; intros [| c2 s2] H; simpl in H.
  - reflexivity.
  - destruct (isUnreserved c2); discriminate H.
  - destruct (isUnreserved c1); discriminate H.
  - destruct (isUnreserved c1) eqn:H1, (isUnreserved c2) eqn:H2.
    + injection H as -> H. f_equal. apply IH, H.
    + injection H as -> _. rewrite percent_reserved in H1. discriminate H1.
    + injection H as <- _. rewrite percent_reserved in H2. discriminate H2.
    + injection H as Hhi Hlo H.
      pose proof (N_ascii_bounded c1) as Hb1. pose proof (N_ascii_bounded c2) as Hb2.
      apply hexDigit_inj in Hhi;
        [| apply N.Div0.div_lt_upper_bound; lia | apply N.Div0.div_lt_upper_bound; lia].
      apply hexDigit_inj in Hlo; [| apply N.mod_lt; lia | apply N.mod_lt; lia].
      assert (Hn : N_of_ascii c1 = N_of_ascii c2).
      { rewrite (N.div_mod (N_of_ascii c1) 16), (N.div_mod (N_of_ascii c2) 16) by lia.
        rewrite Hhi, Hlo. reflexivity. }
      f_equal; [| apply IH, H].
      rewrite <- (ascii_N_embedding c1), <- (ascii_N_embedding c2), Hn. reflexivity.
Qed.

(** X22.  The placeholder image address of a player is the fixed prefix
    followed by characters that are safe in a URL (unreserved characters
    and [%]) only; it does not depend on the last name; and two first
    names give the same address only if they are equal. *)
Theorem placeholderFor_spec (first last : string) :
  (exists text,
     placeholderFor first last
       = ("https://placehold.co/150x200/EFEFEF/333?text=" ++ text)%string /\
     Forall (fun c => isUrlSafe c = true) (list_ascii_of_string text)) /\
  (forall last', placeholderFor first last' = placeholderFor first last) /\
  (forall first' last', placeholderFor first' last' = placeholderFor first last ->
                        first' = first).
Proof.
  split; [| split].
  - exists (encodeURIComponent first). split; [reflexivity | apply encodeURIComponent_safe].
  - reflexivity.
  - intros first' last' H. unfold placeholderFor in H.
    apply encodeURIComponent_inj.
    simpl in H. repeat (injection H as H). exact H.
Qed.

Lemma placeholderFor_spec_witness :
  placeholderFor "Eva" "Ernst" = placeholderFor "Eva" "Engel".
Proof.
  destruct (placeholderFor_spec "Eva" "Engel") as (_ & H & _). apply H.
Defined.

End Strings.

(* ================================================================= *)
(** ** Rankings *)
(* ================================================================= *)

Section Rankings.
Context {A : Type} (key : A -> Z).

Local Abbreviation byKeyDesc := (fun a b : A => key b - key a).

Lemma sort_insert_perm (cmp : A -> A -> Z) (x : A) (l : list A) :
  sort_insert cmp x l ≡ₚ x :: l.
Proof.
  induction l as [| y l IH]; simpl; [reflexivity |].
  destruct (cmp x y <=? 0); [reflexivity |].
  rewrite IH. apply perm_swap.
Qed.

Lemma Array_sort_perm (cmp : A -> A -> Z) (l : list A) : Array_sort cmp l ≡ₚ l.
Proof.
  unfold Array_sort. induction l as [| x l IH]; simpl; [reflexivity |].
  rewrite sort_insert_perm, IH. reflexivity.
Qed.

Lemma sort_insert_sorted (x : A) (l : list A) :
  StronglySorted (fun a b => key b <= key a) l ->
  StronglySorted (fun a b => key b <= key a) (sort_insert byKeyDesc x l).
Proof.
  induction 1 as [| y l Hl IH Hy]; simpl.
  - repeat constructor.
  - destruct (Z.leb_spec (key y - key x) 0) as [Hle | Hgt].
    + constructor; [constructor; assumption |].
      constructor; [lia |]. eapply Forall_impl; [exact Hy |]. simpl. intros z Hz. lia.
    + constructor; [exact IH |].
      rewrite sort_insert_perm. constructor; [lia | exact Hy].
Qed.

Lemma sort_insert_stable (v : Z) (x : A) (l : list A) :
  StronglySorted (fun a b => key b <= key a) l ->
  filter (fun p => key p = v) (sort_insert byKeyDesc x l)
    = filter (fun p => key p = v) (x :: l).
Proof.
  induction 1 as [| y l Hl IH Hy]; simpl; [reflexivity |].
  destruct (Z.leb_spec (key y - key x) 0) as [Hle | Hgt]; [reflexivity |].
  rewrite (filter_cons _ y), IH, !filter_cons.
  destruct (decide (key y = v)) as [Hyv | Hyv], (decide (key x = v)) as [Hxv | Hxv];
    try reflexivity.
  lia.
Qed.

Lemma Array_sort_sorted (l : list A) :
  StronglySorted (fun a b => key b <= key a) (Array_sort byKeyDesc l).
Proof.
  unfold Array_sort. induction l as [| x l IH]; simpl; [constructor |].
  apply sort_insert_sorted, IH.
Qed.

Lemma Array_sort_stable (v : Z) (l : list A) :
  filter (fun p => key p = v) (Array_sort byKeyDesc l) = filter (fun p => key p = v) l.
Proof.
  unfold Array_sort. induction l as [| x l IH]; simpl; [reflexivity |].
  rewrite sort_insert_stable by apply Array_sort_sorted.
  rewrite !filter_cons. fold (Array_sort byKeyDesc l).
  unfold Array_sort in *. rewrite IH. reflexivity.
Qed.

(** The head of the sorted list is the first element of the list among
    those with the largest key. *)
Lemma Array_sort_head (l : list A) :
  match head (Array_sort byKeyDesc l) with
  | Some w =>
      exists l1 l2, l = l1 ++ w :: l2 /\
        (forall p, p ∈ l1 -> key p < key w) /\ (forall p, p ∈ l2 -> key p <= key w)
  | None => l = []
  end.
Proof.
  unfold Array_sort. induction l as [| x l IH]; simpl; [reflexivity |].
  rewrite sort_insert_head.
  destruct (head (foldr _ [] l)) as [y |].
  - destruct IH as (l1 & l2 & -> & Hlt & Hle).
    destruct (Z.leb_spec (key y - key x) 0) as [Hyx | Hxy].
    + exists [], (l1 ++ y :: l2). split; [reflexivity |].
      split; [intros p Hp; inversion Hp |].
      intros p [Hp | [-> | Hp]%elem_of_cons]%elem_of_app.
      * specialize (Hlt p Hp). lia.
      * lia.
      * specialize (Hle p Hp). lia.
    + exists (x :: l1), l2. split; [reflexivity |].
      split; [| exact Hle].
      intros p [-> | Hp]%elem_of_cons; [lia | auto].
  - subst l. exists [], []. split; [reflexivity |]. split; intros p Hp; inversion Hp.
Qed.

End Rankings.

Section RankingClaims.

(** X23.  The ranking (the cards of the selection screen, the rows of
    the statistics screen, the order [handleCloseSeason] takes its
    winner from) lists every player of the list exactly once, in order
    of non-increasing rating, players of equal rating in the order of
    the list; its first row is the player a season closure would
    declare winner. *)
Theorem ranking_sorted (playerList : list Player.t) :
  let ranking := PlayerSelectionScreen.sortedPlayers playerList in
  ranking ≡ₚ playerList /\
  StronglySorted (fun a b => score (Player.data b) <= score (Player.data a)) ranking /\
  (forall v, filter (fun p => score (Player.data p) = v) ranking
             = filter (fun p => score (Player.data p) = v) playerList) /\
  head ranking = App.seasonWinner playerList.
Proof.
  intros ranking. unfold ranking, PlayerSelectionScreen.sortedPlayers.
  split; [apply Array_sort_perm |].
  split; [apply (Array_sort_sorted (fun p => score (Player.data p))) |].
  split; [| reflexivity].
  intros v. apply (Array_sort_stable (fun p => score (Player.data p))).
Qed.

(** X24.  Ties at the top are broken by the order of the list: the
    winner of a season closure is the first player of the list among
    those with the highest rating - every player before them in the list
    is rated strictly lower, every player after them at most as high.
    An empty list has no winner. *)
Theorem seasonWinner_first_of_top (playerList : list Player.t) :
  match App.seasonWinner playerList with
  | Some w =>
      exists before after, playerList = before ++ w :: after /\
        (forall p, p ∈ before -> score (Player.data p) < score (Player.data w)) /\
        (forall p, p ∈ after -> score (Player.data p) <= score (Player.data w))
  | None => playerList = []
  end.
Proof. apply (Array_sort_head (fun p => score (Player.data p))). Qed.

Lemma seasonWinner_first_of_top_witness :
  App.seasonWinner [Sample.bert; Sample.dirk] = Some Sample.bert /\
  score (Player.data Sample.dirk) <= score (Player.data Sample.bert).
Proof.
  split; [reflexivity |].
  pose proof (seasonWinner_first_of_top [Sample.bert; Sample.dirk]) as H.
  change (App.seasonWinner [Sample.bert; Sample.dirk]) with (Some Sample.bert) in H.
  destruct H as (before & after & Heq & _ & Hafter).
  apply Hafter.
  destruct before as [| b before]; simpl in Heq.
  - injection Heq as <-. left.
  - injection Heq as _ Heq. destruct before as [| b' before]; simpl in Heq.
    + injection Heq as Hd _. discriminate Hd.
    + injection Heq as _ Heq. destruct before; discriminate Heq.
Defined.

(** X25.  The season history is shown latest season first: the list
    holds every record exactly once, in order of non-increasing season
    number, records of the same number in the order of the list. *)
Theorem sortedHistory_sorted (history : list SeasonRecord) :
  sortedHistory history ≡ₚ history /\
  StronglySorted (fun a b => seasonNumber b <= seasonNumber a) (sortedHistory history) /\
  (forall n, filter (fun r => seasonNumber r = n) (sortedHistory history)
             = filter (fun r => seasonNumber r = n) history).
Proof.
  unfold sortedHistory.
  split; [apply Array_sort_perm |].
  split; [apply (Array_sort_sorted seasonNumber) |].
  intros n. apply (Array_sort_stable seasonNumber).
Qed.

End RankingClaims.

(* ================================================================= *)
(** ** What a season closure leaves alone *)
(* ================================================================= *)

Section SeasonClosureFrame.

Local Abbreviation keeps db db' :=
  (matches db' = matches db /\
   forall id,
     match players db !! id, players db' !! id with
     | Some d, Some d' =>
         firstName d' = firstName d /\ lastName d' = lastName d /\
         country d' = country d /\ img d' = img d /\
         (forall f, f <> F_score -> f <> F_seasonsWon -> getNum f d' = getNum f d) /\
         (score d' = score d \/ score d' = 1500)
     | None, None => True
     | _, _ => False
     end).

Lemma keeps_refl (db : Store) : keeps db db.
Proof. split; [reflexivity |]. intros id. destruct (players db !! id); auto 10. Qed.

Lemma keeps_effect (winner : Player.t) (currentSeason : Z) (f : Store -> Store)
    (db x : Store) :
  f ∈ closureEffects winner currentSeason -> keeps db x -> keeps db (f x).
Proof.
  intros Hf [Hm Hdocs].
  assert (Hstep : keeps x (f x)).
  { unfold closureEffects in Hf.
    repeat (apply elem_of_cons in Hf as [-> | Hf]); [.. | inversion Hf];
      unfold withSeasonRecord, withTitle, withRatingsReset, withSeasonCounter, setPlayers;
      cbn [players matches]; (split; [reflexivity |]); intros id;
      rewrite ?lookup_fmap, ?lookup_alter; try (case_decide; [subst id |]);
      match goal with |- context [players x !! ?i] =>
        destruct (players x !! i) as [d |] end; simpl; auto 10;
      (split; [reflexivity |]); (split; [reflexivity |]); (split; [reflexivity |]);
      (split; [reflexivity |]); (split; [| auto]);
      intros [] H1 H2; try reflexivity; contradiction. }
  destruct Hstep as [Hm' Hdocs']. split; [congruence |].
  intros id. specialize (Hdocs id). specialize (Hdocs' id).
  destruct (players db !! id) as [d |], (players x !! id) as [dx |],
    (players (f x) !! id) as [d' |]; try contradiction; auto.
  destruct Hdocs as (E1 & E2 & E3 & E4 & Hnum & Hs).
  destruct Hdocs' as (E1' & E2' & E3' & E4' & Hnum' & Hs').
  do 4 (split; [congruence |]).
  split; [intros g H1 H2; rewrite Hnum', Hnum by assumption; reflexivity |].
  destruct Hs as [Hs | Hs], Hs' as [Hs' | Hs']; (left; congruence) || (right; congruence).
Qed.

Lemma keeps_effects (winner : Player.t) (currentSeason : Z) (k : nat) (db : Store) :
  keeps db (applyEffects (take k (closureEffects winner currentSeason)) db).
Proof.
  unfold applyEffects.
  assert (Hgen : forall fs x,
    (forall f, f ∈ fs -> f ∈ closureEffects winner currentSeason) ->
    keeps db x -> keeps db (foldl (fun db f => f db) x fs)).
  { induction fs as [| f fs IH]; intros x Hsub Hx; simpl; [exact Hx |].
    apply IH; [intros g Hg; apply Hsub; right; exact Hg |].
    apply (keeps_effect winner currentSeason); [apply Hsub; left | exact Hx]. }
  apply Hgen; [| apply keeps_refl].
  intros f Hf. exact (subseteq_take _ _ _ Hf).
Qed.

(** X26.  Whatever calls are rejected, a season closure never touches
    the match records, never adds or removes a player document, and
    changes nothing in a player document but the rating (to 1500) and
    the title counter: names, country, image and all game and goal
    counters stay.  It appends at most one season record, and leaves
    the season counter or sets it to the next season.  Without a
    database handle or with an empty player list it does nothing. *)
Theorem closeSeason_frame (hasDb : bool) (faults : FaultPlan)
    (playerList : list Player.t) (currentSeason : Z) (db : Store) :
  let db' := App.handleCloseSeason hasDb faults playerList currentSeason db in
  (hasDb = false \/ playerList = [] -> db' = db) /\
  matches db' = matches db /\
  (forall id, is_Some (players db' !! id) <-> is_Some (players db !! id)) /\
  (forall id d d', players db !! id = Some d -> players db' !! id = Some d' ->
     firstName d' = firstName d /\ lastName d' = lastName d /\
     country d' = country d /\ img d' = img d /\
     (forall f, f <> F_score -> f <> F_seasonsWon -> getNum f d' = getNum f d) /\
     (score d' = score d \/ score d' = 1500)) /\
  (exists rs, seasonHistory db' = seasonHistory db ++ rs /\ (length rs <= 1)%nat) /\
  (config db' = config db \/
   config db' = Some ((if currentSeason =? 0 then 1 else currentSeason) + 1)).
Proof.
  intros db'.
  split.
  { unfold db', App.handleCloseSeason. intros [-> | ->]; [reflexivity |].
    rewrite orb_true_r. reflexivity. }
  unfold db'. rewrite handleCloseSeason_progress.
  destruct (App.seasonWinner playerList) as [winner |].
  2: { split; [reflexivity |]. split; [reflexivity |].
       split; [intros id d d' Hd Hd'; assert (d' = d) as -> by congruence; auto 10 |].
       split; [exists []; rewrite app_nil_r; auto | auto]. }
  set (k := if hasDb then closureProgress faults winner db else 0%nat).
  destruct (keeps_effects winner currentSeason k db) as [Hm Hdocs].
  split; [exact Hm |].
  split.
  { intros id. specialize (Hdocs id).
    destruct (players db !! id), (players (applyEffects _ db) !! id);
      try contradiction; split; intros [? ?]; eauto; discriminate. }
  split.
  { intros id d d' Hd Hd'. specialize (Hdocs id). rewrite Hd, Hd' in Hdocs. exact Hdocs. }
  clear Hm Hdocs. unfold applyEffects.
  destruct k as [| [| [| [| k]]]]; cbn [take closureEffects foldl];
    try (split; [exists []; rewrite app_nil_r; auto | auto]; fail);
    try (split; [eexists [_]; split; [reflexivity | simpl; lia] | auto]; fail).
  rewrite take_nil. cbn [foldl].
  split; [eexists [_]; split; [reflexivity | simpl; lia] | auto].
Qed.

Lemma closeSeason_frame_witness :
  App.handleCloseSeason true noFaults [] 1 Sample.db = Sample.db.
Proof.
  destruct (closeSeason_frame true noFaults [] 1 Sample.db) as (H & _).
  apply H. right. reflexivity.
Defined.

End SeasonClosureFrame.

(* ================================================================= *)
(** ** The login screen *)
(* ================================================================= *)

Section Login.

(** X27.  A login attempt is accepted exactly when the password typed
    is not empty and equals the configured administrator password; so
    when no password is configured, or an empty one, every attempt is
    rejected.  An accepted attempt keeps the typed password, clears the
    error and marks the screen as logging in; a rejected one clears the
    password field and shows the error message. *)
Theorem login_decision (env : option string) (st : LoginScreen.State) :
  let st' := fst (LoginScreen.handleLogin env st) in
  let granted := snd (LoginScreen.handleLogin env st) in
  (granted = true <-> LoginScreen.password st <> "" /\ env = Some (LoginScreen.password st)) /\
  ((env = None \/ env = Some "") -> granted = false) /\
  (granted = true ->
     st' = {| LoginScreen.password := LoginScreen.password st;
              LoginScreen.error := "";
              LoginScreen.isLoggingIn := true |}) /\
  (granted = false ->
     st' = {| LoginScreen.password := "";
              LoginScreen.error := "Falsches Passwort";
              LoginScreen.isLoggingIn := LoginScreen.isLoggingIn st |}).
Proof.
  destruct st as [pw err busy]. unfold LoginScreen.handleLogin.
  cbn [LoginScreen.setError LoginScreen.setPassword LoginScreen.setIsLoggingIn
       LoginScreen.password LoginScreen.error LoginScreen.isLoggingIn].
  set (expected := match env with
                   | Some v => if LoginScreen.nonEmpty v then v else ""
                   | None => ""
                   end).
  set (ok := LoginScreen.nonEmpty pw && LoginScreen.nonEmpty expected && String.eqb pw expected).
  assert (Hne : forall s, LoginScreen.nonEmpty s = true <-> s <> "").
  { intros []; simpl; split; congruence. }
  assert (Hok : ok = true <-> pw <> "" /\ env = Some pw).
  { unfold ok. rewrite !andb_true_iff, !Hne, String.eqb_eq. unfold expected. split.
    - intros [[Hpw Hex] Heq]. split; [exact Hpw |].
      destruct env as [v |]; [| congruence].
      destruct v; simpl in *; congruence.
    - intros [Hpw ->]. apply Hne in Hpw as Hpw'. rewrite Hpw'. auto. }
  destruct ok; cbn [fst snd].
  - split; [exact Hok |]. split; [| split; [reflexivity | discriminate]].
    destruct Hok as [Hok _]. destruct (Hok eq_refl) as [Hpw ->].
    intros [HH | HH]; congruence.
  - split; [exact Hok |]. split; [reflexivity |]. split; [discriminate | reflexivity].
Qed.

End Login.

(* ================================================================= *)
(** ** The list of the player administration *)
(* ================================================================= *)

Section NameOrder.
Context {rt : Runtime}.
Hypothesis String_lt_order : strictTotalOrder rt.

Lemma String_lt_irrefl (a : string) : String_lt a a = false.
Proof. apply String_lt_order. Qed.

Lemma String_lt_trans (a b c : string) :
  String_lt a b = true -> String_lt b c = true -> String_lt a c = true.
Proof. apply String_lt_order. Qed.

Lemma String_lt_connex (a b : string) :
  String_lt a b = false -> String_lt b a = false -> a = b.
Proof. apply String_lt_order. Qed.

Lemma String_lt_asym (a b : string) : String_lt a b = true -> String_lt b a = false.
Proof.
  intros Hab. destruct (String_lt b a) eqn:Hba; [| reflexivity].
  pose proof (String_lt_trans _ _ _ Hab Hba) as H.
  rewrite String_lt_irrefl in H. discriminate.
Qed.

Lemma nameLe_refl (k : string * string) : nameLe k k.
Proof. right. auto. Qed.

Lemma nameLe_trans (k1 k2 k3 : string * string) :
  nameLe k1 k2 -> nameLe k2 k3 -> nameLe k1 k3.
Proof.
  unfold nameLe. intros [H12 | [E12 H12]] [H23 | [E23 H23]].
  - left. eapply String_lt_trans; eassumption.
  - left. rewrite <- E23. exact H12.
  - left. rewrite E12. exact H23.
  - right. split; [congruence |].
    destruct H12 as [H12 | H12], H23 as [H23 | H23].
    + left. eapply String_lt_trans; eassumption.
    + left. rewrite <- H23. exact H12.
    + left. rewrite H12. exact H23.
    + right. congruence.
Qed.

Lemma nameLe_antisym (k1 k2 : string * string) : nameLe k1 k2 -> nameLe k2 k1 -> k1 = k2.
Proof.
  destruct k1 as [l1 f1], k2 as [l2 f2]. unfold nameLe. cbn [fst snd].
  intros [H12 | [E12 H12]] [H21 | [E21 H21]].
  - apply String_lt_asym in H12. congruence.
  - subst l1. rewrite String_lt_irrefl in H12. discriminate.
  - subst l2. rewrite String_lt_irrefl in H21. discriminate.
  - subst l2. destruct H12 as [H12 | H12], H21 as [H21 | H21].
    + apply String_lt_asym in H12. congruence.
    + subst f1. rewrite String_lt_irrefl in H12. discriminate.
    + subst f2. rewrite String_lt_irrefl in H21. discriminate.
    + subst f2. reflexivity.
Qed.

Lemma compareNames_le (a b : Player.t) :
  ManagePlayersScreen.compareNames a b <= 0 <-> nameLe (nameKey a) (nameKey b).
Proof.
  unfold ManagePlayersScreen.compareNames, nameLe, nameKey. cbn [fst snd].
  generalize (toLowerCase (lastName (Player.data a))) (toLowerCase (lastName (Player.data b)))
             (toLowerCase (firstName (Player.data a))) (toLowerCase (firstName (Player.data b))).
  intros lnA lnB fnA fnB.
  destruct (String_lt lnA lnB) eqn:El; [split; [auto | lia] |].
  destruct (String_lt lnB lnA) eqn:El'.
  { split; [lia |]. intros [H | [H _]]; [discriminate |].
    subst lnB. rewrite String_lt_irrefl in El'. discriminate. }
  pose proof (String_lt_connex _ _ El El') as ->.
  destruct (String_lt fnA fnB) eqn:Ef; [split; [auto | lia] |].
  destruct (String_lt fnB fnA) eqn:Ef'.
  { split; [lia |]. intros [H | [_ [H | H]]]; try discriminate.
    subst fnB. rewrite String_lt_irrefl in Ef'. discriminate. }
  pose proof (String_lt_connex _ _ Ef Ef') as ->.
  split; [auto | lia].
Qed.

Lemma compareNames_total (a b : Player.t) :
  ~ ManagePlayersScreen.compareNames a b <= 0 -> ManagePlayersScreen.compareNames b a <= 0.
Proof.
  rewrite !compareNames_le. unfold nameLe, nameKey. cbn [fst snd].
  generalize (toLowerCase (lastName (Player.data a))) (toLowerCase (lastName (Player.data b)))
             (toLowerCase (firstName (Player.data a))) (toLowerCase (firstName (Player.data b))).
  intros lnA lnB fnA fnB Hn.
  destruct (String_lt lnB lnA) eqn:El'; [auto |].
  destruct (String_lt lnA lnB) eqn:El; [exfalso; apply Hn; auto |].
  pose proof (String_lt_connex _ _ El El') as ->.
  right. split; [reflexivity |].
  destruct (String_lt fnB fnA) eqn:Ef'; [auto |].
  destruct (String_lt fnA fnB) eqn:Ef; [exfalso; apply Hn; auto |].
  right. symmetry. apply String_lt_connex; assumption.
Qed.

Lemma sort_insert_names_sorted (x : Player.t) (l : list Player.t) :
  StronglySorted (fun a b => nameLe (nameKey a) (nameKey b)) l ->
  StronglySorted (fun a b => nameLe (nameKey a) (nameKey b))
    (sort_insert ManagePlayersScreen.compareNames x l).
Proof.
  induction 1 as [| y l Hl IH Hy]; simpl.
  - repeat constructor.
  - destruct (Z.leb_spec (ManagePlayersScreen.compareNames x y) 0) as [Hle | Hgt].
    + apply compareNames_le in Hle.
      constructor; [constructor; assumption |].
      constructor; [exact Hle |].
      eapply Forall_impl; [exact Hy |]. simpl. intros z Hz.
      eapply nameLe_trans; eassumption.
    + constructor; [exact IH |].
      rewrite sort_insert_perm. constructor; [| exact Hy].
      apply compareNames_le, compareNames_total. lia.
Qed.

Lemma sort_insert_names_stable (k : string * string) (x : Player.t) (l : list Player.t) :
  filter (fun p => nameKey p = k) (sort_insert ManagePlayersScreen.compareNames x l)
    = filter (fun p => nameKey p = k) (x :: l).
Proof.
  induction l as [| y l IH]; simpl; [reflexivity |].
  destruct (Z.leb_spec (ManagePlayersScreen.compareNames x y) 0) as [Hle | Hgt];
    [reflexivity |].
  rewrite (filter_cons _ y), IH, !filter_cons.
  destruct (decide (nameKey y = k)) as [Hyk | Hyk], (decide (nameKey x = k)) as [Hxk | Hxk];
    try reflexivity.
  exfalso.
  assert (Hxy : ManagePlayersScreen.compareNames x y <= 0).
  { apply compareNames_le. rewrite Hxk, Hyk. apply nameLe_refl. }
  lia.
Qed.

End NameOrder.

Section NameOrderClaims.

(** X28.  Given that [<] on strings is a strict total order, as the
    language defines it, the list of the player administration is in
    the order of the lower-cased last name, then the lower-cased first
    name, lower-casing and comparison being those of the runtime: it
    holds every player of the list exactly once, each player's pair of
    lower-cased names is at most that of every player listed later, two
    pairs that are each at most the other are equal, and players whose
    lower-cased names coincide keep the order of the list. *)
Theorem manage_list_sorted {rt : Runtime} (players : list Player.t) :
  strictTotalOrder rt ->
  ManagePlayersScreen.sortedPlayers players ≡ₚ players /\
  StronglySorted (fun a b => nameLe (nameKey a) (nameKey b))
    (ManagePlayersScreen.sortedPlayers players) /\
  (forall k, filter (fun p => nameKey p = k) (ManagePlayersScreen.sortedPlayers players)
             = filter (fun p => nameKey p = k) players) /\
  (forall a b, nameLe (nameKey a) (nameKey b) -> nameLe (nameKey b) (nameKey a) ->
               nameKey a = nameKey b).
Proof.
  intros Hord. unfold ManagePlayersScreen.sortedPlayers.
  split; [apply Array_sort_perm |].
  split.
  { unfold Array_sort. induction players as [| x l IH]; simpl; [constructor |].
    apply sort_insert_names_sorted; [exact Hord | exact IH]. }
  split.
  { intros k. unfold Array_sort. induction players as [| x l IH]; simpl; [reflexivity |].
    rewrite (sort_insert_names_stable Hord), !filter_cons, IH. reflexivity. }
  intros a b. apply nameLe_antisym. exact Hord.
Qed.

Lemma ascii_compare_refl (c : ascii) : Ascii.compare c c = Eq.
Proof. unfold Ascii.compare. apply N.compare_refl. Qed.

Lemma String_compare_refl (s : string) : String.compare s s = Eq.
Proof. induction s as [| c s IH]; simpl; [reflexivity |]. rewrite ascii_compare_refl. exact IH. Qed.

Lemma String_compare_trans (s1 s2 s3 : string) :
  String.compare s1 s2 = Lt -> String.compare s2 s3 = Lt -> String.compare s1 s3 = Lt.
Proof.
  revert s2 s3. induction s1 as [| c1 s1 IH]; intros [| c2 s2] [| c3 s3]; simpl;
    try congruence.
  unfold Ascii.compare.
  destruct (N.compare_spec (N_of_ascii c1) (N_of_ascii c2)) as [E12 | L12 | G12];
    destruct (N.compare_spec (N_of_ascii c2) (N_of_ascii c3)) as [E23 | L23 | G23];
    try congruence; intros H12 H23.
  - rewrite E12, E23, N.compare_refl. eauto.
  - rewrite E12. apply N.compare_lt_iff in L23. rewrite L23. reflexivity.
  - rewrite <- E23. apply N.compare_lt_iff in L12. rewrite L12. reflexivity.
  - assert (L13 : (N_of_ascii c1 < N_of_ascii c3)%N) by lia.
    apply N.compare_lt_iff in L13. rewrite L13. reflexivity.
Qed.

(** Comparison character by character is a strict total order. *)
Lemma Sample_runtime_order : strictTotalOrder Sample.runtime.
Proof.
  unfold strictTotalOrder. cbn [String_lt Sample.runtime]. unfold String.ltb.
  split; [| split].
  - intros a. rewrite String_compare_refl. reflexivity.
  - intros a b c Hab Hbc.
    destruct (String.compare a b) eqn:Eab; try discriminate.
    destruct (String.compare b c) eqn:Ebc; try discriminate.
    rewrite (String_compare_trans _ _ _ Eab Ebc). reflexivity.
  - intros a b Hab Hba. rewrite (String.compare_antisym b a) in Hba.
    destruct (String.compare a b) eqn:Eab; try discriminate.
    apply String.compare_eq_iff. exact Eab.
Qed.

Lemma manage_list_sorted_witness :
  ManagePlayersScreen.sortedPlayers (rt := Sample.runtime)
    [Sample.dirk; Sample.cleo; Sample.bert; Sample.anna]
  ≡ₚ [Sample.dirk; Sample.cleo; Sample.bert; Sample.anna].
Proof.
  destruct (manage_list_sorted (rt := Sample.runtime)
              [Sample.dirk; Sample.cleo; Sample.bert; Sample.anna] Sample_runtime_order)
    as (H & _).
  exact H.
Defined.

End NameOrderClaims.
